(** * NovinPythonBridge: a shallow embedding of the native bridge

    The bridge (Sources/NovinPythonBridge/src/NovinPythonBridge.c) keeps
    five file-scope variables and talks to two outside parties: the
    embedded CPython runtime and the C allocator.  The embedding below
    is a state monad over those variables; every call that leaves the
    translation unit is a primitive that asks an environment for the
    answer and appends an event to a history, so that statements about
    the order of interactions (lock acquisition and release, absence of
    any interpreter call) are statements about lists of events. *)

From Stdlib Require Import Ascii.
From stdpp Require Import base option list gmap strings.

Open Scope string_scope.

(** ** Values crossing the boundary *)

(** [const char *]: [None] is the NULL pointer, [Some s] a NUL-terminated
    buffer with contents [s]. *)
Definition cstr : Type := option string.

(** What the bridge can tell about a [PyObject *]: the strings and argument
    tuples it builds itself, and opaque references handed back by the
    interpreter (modules, classes, bound methods, instances, results). *)
#[warnings="-register-all"] Inductive PyObject : Type :=
| PyStr (s : string)
| PyTuple (items : list (option PyObject))
| PyRef (id : N).

(** [PyStatus] as far as [PyStatus_Exception] looks at it. *)
Inductive PyStatus : Type :=
| PyStatus_OK
| PyStatus_ERROR
| PyStatus_EXIT.

Definition PyStatus_Exception (status : PyStatus) : bool :=
  match status with
  | PyStatus_OK => false
  | _ => true
  end.

Inductive PyGILState_STATE : Type :=
| PyGILState_LOCKED
| PyGILState_UNLOCKED.

Definition PyGILState_eqb (a b : PyGILState_STATE) : bool :=
  match a, b with
  | PyGILState_LOCKED, PyGILState_LOCKED => true
  | PyGILState_UNLOCKED, PyGILState_UNLOCKED => true
  | _, _ => false
  end.

Definition PyThreadState : Type := N.

(** The fields of [PyConfig] the bridge reads or writes.  Wide strings are
    kept by their decoded text. *)
Record PyConfig : Type := mkPyConfig {
  isolated : Z;
  use_environment : Z;
  home : option string;
  module_search_paths : list string
}.

(** The configuration [PyConfig_InitIsolatedConfig] produces. *)
Definition isolated_config : PyConfig := mkPyConfig 1 0 None [].

(** A successful [PyConfig_SetString(&config, &config.home, w)]. *)
Definition set_home (config : PyConfig) (w : string) : PyConfig :=
  mkPyConfig (isolated config) (use_environment config) (Some w)
             (module_search_paths config).

(** A successful [PyWideStringList_Append(&config.module_search_paths, w)]. *)
Definition add_search_path (config : PyConfig) (w : string) : PyConfig :=
  mkPyConfig (isolated config) (use_environment config) (home config)
             (module_search_paths config ++ [w]).

(** ** Events: one constructor per external function *)

Inductive event : Type :=
(* libc *)
| EvStrdup (s : string) (r : option N)
| EvFree (p : N)
(* interpreter configuration and life cycle *)
| EvPyConfig_InitIsolatedConfig
| EvPy_DecodeLocale (s : string) (r : option string)
| EvPyConfig_SetString (w : string) (status : PyStatus)
| EvPyWideStringList_Append (w : string) (status : PyStatus)
| EvPyMem_RawFree (w : string)
| EvPyConfig_Clear
| EvPy_InitializeFromConfig (config : PyConfig) (status : PyStatus)
| EvPy_IsInitialized (r : bool)
| EvPyEval_SaveThread (r : option PyThreadState)
| EvPyEval_RestoreThread (t : PyThreadState)
| EvPy_Finalize
(* the interpreter lock *)
| EvPyGILState_Ensure (g : PyGILState_STATE)
| EvPyGILState_Release (g : PyGILState_STATE)
(* objects *)
| EvPyUnicode_FromString (s : cstr) (r : option PyObject)
| EvPyUnicode_AsUTF8 (o : PyObject) (r : cstr)
| EvPyImport_Import (name : PyObject) (r : option PyObject)
| EvPyImport_ImportModule (name : string) (r : option PyObject)
| EvPyObject_GetAttrString (o : PyObject) (attr : string) (r : option PyObject)
| EvPyTuple_New (n : nat) (r : option PyObject)
| EvPyTuple_SetItem (t : option PyObject) (i : nat) (v : option PyObject)
| EvPyObject_CallObject (f : PyObject) (args : option PyObject) (r : option PyObject)
| EvPy_DECREF (o : option PyObject)
| EvPy_XDECREF (o : option PyObject)
| EvPyErr_Print.

(** ** The environment

    Every answer of the outside world may depend on everything that
    happened so far (the history) and on the arguments of the call.
    Nothing is assumed about these functions; what the interpreter itself
    guarantees whatever the collaborator does (a call made while the error
    indicator is set comes back NULL) is part of the primitives. *)
Record PyEnv : Type := mkPyEnv {
  (* does an allocation of [n] bytes succeed? *)
  env_malloc : list event → nat → bool;
  env_Py_DecodeLocale : list event → string → option string;
  env_PyConfig_SetString : list event → string → PyStatus;
  env_PyWideStringList_Append : list event → string → PyStatus;
  env_Py_InitializeFromConfig : list event → PyConfig → PyStatus;
  env_Py_IsInitialized : list event → bool;
  env_PyEval_SaveThread : list event → option PyThreadState;
  env_PyGILState_Ensure : list event → PyGILState_STATE;
  (* can the interpreter allocate the string / the tuple? *)
  env_PyUnicode_FromString : list event → string → bool;
  env_PyTuple_New : list event → nat → bool;
  (* is the text encodable as UTF-8? *)
  env_PyUnicode_AsUTF8 : list event → string → bool;
  env_PyImport_Import : list event → PyObject → option PyObject;
  env_PyImport_ImportModule : list event → string → option PyObject;
  env_PyObject_GetAttrString : list event → PyObject → string → option PyObject;
  env_PyObject_CallObject : list event → PyObject → option PyObject → option PyObject
}.

(** ** Program state *)

Record state : Type := mkState {
  (* the file-scope variables, lines 8-12 *)
  s_pythonInitialized : bool;
  s_novinBridgeInstance : option PyObject;
  s_pythonHomeW : option string;
  s_pythonPathW : option string;
  s_mainThreadState : option PyThreadState;
  (* the C heap: live [char] buffers by address *)
  heap : gmap N string;
  (* caller memory: the [const char *] cells an [errorOut] may point to *)
  cells : gmap N (option N);
  (* every external call made so far, oldest first *)
  hist : list event
}.

Definition set_pythonInitialized (b : bool) (st : state) : state :=
  let '(mkState _ inst homeW pathW ts hp cl h) := st in
  mkState b inst homeW pathW ts hp cl h.

Definition set_novinBridgeInstance (o : option PyObject) (st : state) : state :=
  let '(mkState init _ homeW pathW ts hp cl h) := st in
  mkState init o homeW pathW ts hp cl h.

Definition set_pythonHomeW (w : option string) (st : state) : state :=
  let '(mkState init inst _ pathW ts hp cl h) := st in
  mkState init inst w pathW ts hp cl h.

Definition set_pythonPathW (w : option string) (st : state) : state :=
  let '(mkState init inst homeW _ ts hp cl h) := st in
  mkState init inst homeW w ts hp cl h.

Definition set_mainThreadState (t : option PyThreadState) (st : state) : state :=
  let '(mkState init inst homeW pathW _ hp cl h) := st in
  mkState init inst homeW pathW t hp cl h.

Definition set_heap (hp : gmap N string) (st : state) : state :=
  let '(mkState init inst homeW pathW ts _ cl h) := st in
  mkState init inst homeW pathW ts hp cl h.

Definition set_cells (cl : gmap N (option N)) (st : state) : state :=
  let '(mkState init inst homeW pathW ts hp _ h) := st in
  mkState init inst homeW pathW ts hp cl h.

(** Append one event to the history. *)
Definition log (e : event) (st : state) : state :=
  let '(mkState init inst homeW pathW ts hp cl h) := st in
  mkState init inst homeW pathW ts hp cl (h ++ [e]).

(** The state of a fresh process: the static initialisers of lines 8-12,
    whatever the host has on its heap and in its cells, and no call made. *)
Definition process_start (h : gmap N string) (c : gmap N (option N)) : state :=
  mkState false None None None None h c [].

(** The events a computation added to the history. *)
Definition emitted (st st' : state) : list event :=
  drop (length (hist st)) (hist st').

(** ** The monad *)

Definition M (A : Type) : Type := state → A * state.

Global Instance M_ret : MRet M := λ A a st, (a, st).
Global Instance M_bind : MBind M :=
  λ A B f m st, let '(a, st1) := m st in f a st1.

Definition get {A} (proj : state → A) : M A := λ st, (proj st, st).
Definition modify (f : state → state) : M unit := λ st, (tt, f st).
Definition emit (e : event) : M unit := modify (log e).

(** An external call: ask the environment, record the call and its answer. *)
Definition extcall {A} (ask : list event → A) (ev : A → event) : M A :=
  λ st, let r := ask (hist st) in (r, log (ev r) st).

(** ** Text helpers *)

Definition strlen (s : string) : nat := String.length s.

(** The C test [s && strlen(s) > 0], giving the contents when it passes. *)
Definition nonempty (s : cstr) : option string :=
  match s with
  | Some s' => if (0 <? strlen s')%nat then Some s' else None
  | None => None
  end.

(** The tokens successive [strtok_r] calls with delimiter [delim] return:
    the maximal runs of other characters, in order; [cur] is the run being
    read.  Empty runs (leading, trailing or doubled delimiters) give no
    token. *)
Fixpoint strtok_r (delim : Ascii.ascii) (s : string) (cur : string) : list string :=
  match s with
  | EmptyString => if (0 <? strlen cur)%nat then [cur] else []
  | String c rest =>
      if Ascii.eqb c delim
      then (if (0 <? strlen cur)%nat
            then cur :: strtok_r delim rest EmptyString
            else strtok_r delim rest EmptyString)
      else strtok_r delim rest (cur ++ String c EmptyString)
  end.

(** [const char *delim = ":";] *)
Definition delim : ascii := ":"%char.

(** What C reads from a buffer: the characters before the first NUL.  The
    arguments of the bridge are C strings already; the UTF-8 buffer of a
    Python string may hold NUL characters, and [strdup] stops at the first. *)
Fixpoint c_string (s : string) : string :=
  match s with
  | EmptyString => EmptyString
  | String c rest =>
      if Ascii.eqb c Ascii.zero then EmptyString else String c (c_string rest)
  end.

(** [PyTuple_SetItem] as seen by the owner of a tuple nobody else holds:
    the slot is overwritten; an index out of range or a non-tuple changes
    nothing.  The bridge never checks its tuples for NULL, and on a NULL
    tuple the C function dereferences NULL: the process does not survive
    that.  The embedding leaves NULL as it is and goes on; such runs are
    recognised by their events ([null_dereferenced] below). *)
Definition tuple_store (t : option PyObject) (i : nat) (v : option PyObject)
  : option PyObject :=
  match t with
  | Some (PyTuple items) => Some (PyTuple (<[i:=v]> items))
  | other => other
  end.

(** ** The interpreter's error indicator

    Every object function the bridge calls reports failure by returning
    NULL with the error indicator set; the indicator stays set until
    [PyErr_Print] clears it (the bridge never calls [PyErr_Clear]) or the
    interpreter is shut down. *)
Definition raises (e : event) : bool :=
  match e with
  | EvPyUnicode_FromString _ None | EvPyUnicode_AsUTF8 _ None
  | EvPyImport_Import _ None | EvPyImport_ImportModule _ None
  | EvPyObject_GetAttrString _ _ None | EvPyTuple_New _ None
  | EvPyObject_CallObject _ _ None => true
  | _ => false
  end.

Definition error_step (pending : bool) (e : event) : bool :=
  match e with
  | EvPyErr_Print | EvPy_Finalize => false
  | _ => if raises e then true else pending
  end.

Definition error_pending (h : list event) : bool := foldl error_step false h.

Section Bridge.

Context (env : PyEnv).

(** ** Primitives *)

(** libc [strdup]: a fresh buffer holding a copy of the C string at [s]
    (what precedes the first NUL of the buffer), or NULL. *)
Definition strdup (s : string) : M (option N) := λ st,
  if env_malloc env (hist st) (strlen (c_string s) + 1)
  then let p := fresh (dom (heap st)) in
       (Some p,
        log (EvStrdup s (Some p)) (set_heap (<[p:=c_string s]> (heap st)) st))
  else (None, log (EvStrdup s None) st).

Definition free (p : N) : M unit := λ st,
  (tt, log (EvFree p) (set_heap (delete p (heap st)) st)).

Definition PyConfig_InitIsolatedConfig : M PyConfig :=
  emit EvPyConfig_InitIsolatedConfig;; mret isolated_config.

Definition Py_DecodeLocale (s : string) : M (option string) :=
  extcall (λ h, env_Py_DecodeLocale env h s) (EvPy_DecodeLocale s).

(** [PyConfig_SetString(&config, &config.home, w)] *)
Definition PyConfig_SetString_home (config : PyConfig) (w : string)
  : M (PyStatus * PyConfig) :=
  status ← extcall (λ h, env_PyConfig_SetString env h w) (EvPyConfig_SetString w);
  mret (status, if PyStatus_Exception status then config else set_home config w).

(** [PyWideStringList_Append(&config.module_search_paths, w)] *)
Definition PyWideStringList_Append (config : PyConfig) (w : string)
  : M (PyStatus * PyConfig) :=
  status ← extcall (λ h, env_PyWideStringList_Append env h w)
                   (EvPyWideStringList_Append w);
  mret (status,
        if PyStatus_Exception status then config else add_search_path config w).

Definition PyMem_RawFree (w : string) : M unit := emit (EvPyMem_RawFree w).
Definition PyConfig_Clear : M unit := emit EvPyConfig_Clear.

Definition Py_InitializeFromConfig (config : PyConfig) : M PyStatus :=
  extcall (λ h, env_Py_InitializeFromConfig env h config)
          (EvPy_InitializeFromConfig config).

Definition Py_IsInitialized : M bool :=
  extcall (env_Py_IsInitialized env) EvPy_IsInitialized.

Definition PyEval_SaveThread : M (option PyThreadState) :=
  extcall (env_PyEval_SaveThread env) EvPyEval_SaveThread.

Definition PyEval_RestoreThread (t : PyThreadState) : M unit :=
  emit (EvPyEval_RestoreThread t).

Definition Py_Finalize : M unit := emit EvPy_Finalize.

Definition PyGILState_Ensure : M PyGILState_STATE :=
  extcall (env_PyGILState_Ensure env) EvPyGILState_Ensure.

Definition PyGILState_Release (g : PyGILState_STATE) : M unit :=
  emit (EvPyGILState_Release g).

(** When it succeeds the new object is the string itself; whether it
    succeeds is up to the interpreter.  A NULL argument is dereferenced by
    the C function (undefined behaviour); the embedding answers NULL and
    goes on, and the event marks the run ([null_dereferenced] below). *)
Definition PyUnicode_FromString (s : cstr) : M (option PyObject) :=
  extcall (λ h, match s with
                | Some s' => if env_PyUnicode_FromString env h s'
                             then Some (PyStr s') else None
                | None => None
                end)
          (EvPyUnicode_FromString s).

(** The UTF-8 text of a string object, NULL for anything that is not a
    string or cannot be encoded. *)
Definition PyUnicode_AsUTF8 (o : PyObject) : M cstr :=
  extcall (λ h, match o with
                | PyStr s => if env_PyUnicode_AsUTF8 env h s then Some s else None
                | _ => None
                end)
          (EvPyUnicode_AsUTF8 o).

Definition PyImport_Import (name : PyObject) : M (option PyObject) :=
  extcall (λ h, env_PyImport_Import env h name) (EvPyImport_Import name).

Definition PyImport_ImportModule (name : string) : M (option PyObject) :=
  extcall (λ h, env_PyImport_ImportModule env h name) (EvPyImport_ImportModule name).

Definition PyObject_GetAttrString (o : PyObject) (attr : string)
  : M (option PyObject) :=
  extcall (λ h, env_PyObject_GetAttrString env h o attr)
          (EvPyObject_GetAttrString o attr).

(** A new tuple has [n] empty slots. *)
Definition PyTuple_New (n : nat) : M (option PyObject) :=
  extcall (λ h, if env_PyTuple_New env h n
                then Some (PyTuple (replicate n None)) else None)
          (EvPyTuple_New n).

(** Returns the tuple as it is after the store (the C call mutates it in
    place; its [int] result is ignored by the bridge). *)
Definition PyTuple_SetItem (t : option PyObject) (i : nat) (v : option PyObject)
  : M (option PyObject) :=
  emit (EvPyTuple_SetItem t i v);; mret (tuple_store t i v).

(** The call protocol of the interpreter never hands back a result while
    the error indicator is set: a call made with an error pending comes
    back NULL, whatever the callee did.  Otherwise the answer is the
    collaborator's. *)
Definition PyObject_CallObject (f : PyObject) (args : option PyObject)
  : M (option PyObject) :=
  extcall (λ h, if error_pending h then None
                else env_PyObject_CallObject env h f args)
          (EvPyObject_CallObject f args).

(** [Py_XDECREF] accepts NULL; [Py_DECREF] dereferences it (undefined
    behaviour, marked by the event as above). *)
Definition Py_DECREF (o : option PyObject) : M unit := emit (EvPy_DECREF o).
Definition Py_XDECREF (o : option PyObject) : M unit := emit (EvPy_XDECREF o).
Definition PyErr_Print : M unit := emit EvPyErr_Print.

(** [if (errorOut) { *errorOut = strdup(msg); }] *)
Definition set_error (errorOut : option N) (msg : string) : M unit :=
  match errorOut with
  | Some l =>
      p ← strdup msg;
      modify (λ st, set_cells (<[l:=p]> (cells st)) st)
  | None => mret tt
  end.

(** ** ensure_bridge_initialized (lines 14-73) *)

(** Lines 39-61: the argument tuple for the constructor. *)
Definition constructor_args (brandConfigJson : cstr) : M (option PyObject) :=
  args ←
    match nonempty brandConfigJson with
    | Some config =>
        jsonModule ← PyImport_ImportModule "json";
        match jsonModule with
        | Some jsonModule =>
            loadsFunc ← PyObject_GetAttrString jsonModule "loads";
            Py_DECREF (Some jsonModule);;
            match loadsFunc with
            | Some loadsFunc =>
                jsonArgs ← PyTuple_New 1;
                text ← PyUnicode_FromString (Some config);
                jsonArgs ← PyTuple_SetItem jsonArgs 0 text;
                configDict ← PyObject_CallObject loadsFunc jsonArgs;
                Py_DECREF (Some loadsFunc);;
                Py_DECREF jsonArgs;;
                match configDict with
                | Some configDict =>
                    args ← PyTuple_New 1;
                    PyTuple_SetItem args 0 (Some configDict)
                | None => mret None
                end
            | None => mret None
            end
        | None => mret None
        end
    | None => mret None
    end;
  match args with
  | Some args => mret (Some args)
  | None => PyTuple_New 0
  end.

Definition ensure_bridge_initialized (brandConfigJson : cstr) : M unit :=
  instance ← get s_novinBridgeInstance;
  match instance with
  | Some _ => mret tt
  | None =>
      moduleName ← PyUnicode_FromString (Some "novin_ai_bridge");
      match moduleName with
      | None => PyErr_Print
      | Some moduleName =>
          module ← PyImport_Import moduleName;
          Py_DECREF (Some moduleName);;
          match module with
          | None => PyErr_Print
          | Some module =>
              class ← PyObject_GetAttrString module "NovinAIBridge";
              Py_DECREF (Some module);;
              match class with
              | None => PyErr_Print
              | Some class =>
                  args ← constructor_args brandConfigJson;
                  instance ← PyObject_CallObject class args;
                  Py_DECREF args;;
                  Py_DECREF (Some class);;
                  match instance with
                  | None => PyErr_Print
                  | Some instance =>
                      modify (set_novinBridgeInstance (Some instance))
                  end
              end
          end
      end
  end.

(** ** novin_python_initialize (lines 75-141) *)

(** Lines 113-125: the loop over the tokens of the duplicated path.  [None]
    is the [return false] of line 123. *)
Fixpoint append_search_paths (mutablePath : N) (tokens : list string)
    (config : PyConfig) : M (option PyConfig) :=
  match tokens with
  | [] => mret (Some config)
  | token :: tokens =>
      wpath ← Py_DecodeLocale token;
      match wpath with
      | None => append_search_paths mutablePath tokens config
      | Some wpath =>
          '(status, config) ← PyWideStringList_Append config wpath;
          PyMem_RawFree wpath;;
          if PyStatus_Exception status
          then free mutablePath;; PyConfig_Clear;; mret None
          else append_search_paths mutablePath tokens config
      end
  end.

(** Lines 90-101; [None] is a [return false]. *)
Definition configure_home (pythonHome : cstr) (config : PyConfig)
  : M (option PyConfig) :=
  match nonempty pythonHome with
  | Some pythonHome =>
      w ← Py_DecodeLocale pythonHome;
      modify (set_pythonHomeW w);;
      match w with
      | None => PyConfig_Clear;; mret None
      | Some w =>
          '(status, config) ← PyConfig_SetString_home config w;
          if PyStatus_Exception status
          then PyConfig_Clear;; mret None
          else mret (Some config)
      end
  | None => mret (Some config)
  end.

(** Lines 104-127; [None] is a [return false]. *)
Definition configure_paths (pythonPath : cstr) (config : PyConfig)
  : M (option PyConfig) :=
  match nonempty pythonPath with
  | Some pythonPath =>
      mutablePath ← strdup pythonPath;
      match mutablePath with
      | None => PyConfig_Clear;; mret None
      | Some mutablePath =>
          r ← append_search_paths mutablePath (strtok_r delim pythonPath EmptyString) config;
          match r with
          | None => mret None
          | Some config => free mutablePath;; mret (Some config)
          end
      end
  | None => mret (Some config)
  end.

Definition novin_python_initialize (pythonHome pythonPath : cstr) : M bool :=
  initialized ← get s_pythonInitialized;
  if (initialized : bool) then mret true
  else
    config ← PyConfig_InitIsolatedConfig;
    (* config.isolated = 1; config.use_environment = 0; *)
    let config := mkPyConfig 1 0 (home config) (module_search_paths config) in
    config ← configure_home pythonHome config;
    match config with
    | None => mret false
    | Some config =>
        config ← configure_paths pythonPath config;
        match config with
        | None => mret false
        | Some config =>
            status ← Py_InitializeFromConfig config;
            failed ← (if PyStatus_Exception status then mret true
                      else (b ← Py_IsInitialized; mret (negb b)));
            if (failed : bool)
            then PyConfig_Clear;; PyErr_Print;; mret false
            else
              PyConfig_Clear;;
              t ← PyEval_SaveThread;
              modify (set_mainThreadState t);;
              modify (set_pythonInitialized true);;
              mret true
        end
    end.

(** ** novin_python_process_request (lines 143-212) *)

(** Lines 167-211: what the function does once [s_novinBridgeInstance] is
    known to be set; [instance] is the value of that variable. *)
Definition forward_request (gilState : PyGILState_STATE) (instance : PyObject)
    (requestJson clientId : cstr) (errorOut : option N) : M (option N) :=
  processFunc ← PyObject_GetAttrString instance "process_request";
  match processFunc with
  | None =>
      PyErr_Print;;
      PyGILState_Release gilState;;
      set_error errorOut "NovinAIBridge missing process_request";;
      mret None
  | Some processFunc =>
      args ← PyTuple_New 2;
      request ← PyUnicode_FromString requestJson;
      args ← PyTuple_SetItem args 0 request;
      let actualClientId :=
        match clientId with
        | Some c => Some c
        | None => Some "ios-client"
        end in
      client ← PyUnicode_FromString actualClientId;
      args ← PyTuple_SetItem args 1 client;
      result ← PyObject_CallObject processFunc args;
      Py_DECREF args;;
      Py_DECREF (Some processFunc);;
      match result with
      | None =>
          PyErr_Print;;
          PyGILState_Release gilState;;
          set_error errorOut "Python processing failed";;
          mret None
      | Some result =>
          resultCString ← PyUnicode_AsUTF8 result;
          match resultCString with
          | None =>
              Py_DECREF (Some result);;
              PyGILState_Release gilState;;
              set_error errorOut "Failed to convert Python result to UTF-8";;
              mret None
          | Some resultCString =>
              response ← strdup resultCString;
              Py_DECREF (Some result);;
              PyGILState_Release gilState;;
              match response with
              | None => set_error errorOut "Out of memory duplicating response"
              | Some _ => mret tt
              end;;
              mret response
          end
      end
  end.

Definition novin_python_process_request
    (requestJson clientId brandConfigJson : cstr) (errorOut : option N)
  : M (option N) :=
  initialized ← get s_pythonInitialized;
  if (initialized : bool) then
    gilState ← PyGILState_Ensure;
    instance ← get s_novinBridgeInstance;
    match instance with
    | None =>
        ensure_bridge_initialized brandConfigJson;;
        instance ← get s_novinBridgeInstance;
        match instance with
        | None =>
            PyGILState_Release gilState;;
            set_error errorOut "Failed to initialize NovinAIBridge";;
            mret None
        | Some instance =>
            forward_request gilState instance requestJson clientId errorOut
        end
    | Some instance =>
        forward_request gilState instance requestJson clientId errorOut
    end
  else
    set_error errorOut "Python runtime not initialized";;
    mret None.

(** ** novin_python_free_string (lines 214-218) *)

Definition novin_python_free_string (string : option N) : M unit :=
  match string with
  | Some p => free p
  | None => mret tt
  end.

(** ** novin_python_finalize (lines 220-246) *)

Definition novin_python_finalize : M unit :=
  initialized ← get s_pythonInitialized;
  if (initialized : bool) then
    mainThreadState ← get s_mainThreadState;
    match mainThreadState with
    | Some t => PyEval_RestoreThread t;; modify (set_mainThreadState None)
    | None => mret tt
    end;;
    gilState ← PyGILState_Ensure;
    instance ← get s_novinBridgeInstance;
    Py_XDECREF instance;;
    modify (set_novinBridgeInstance None);;
    PyGILState_Release gilState;;
    Py_Finalize;;
    modify (set_pythonInitialized false);;
    homeW ← get s_pythonHomeW;
    match homeW with
    | Some w => PyMem_RawFree w;; modify (set_pythonHomeW None)
    | None => mret tt
    end;;
    pathW ← get s_pythonPathW;
    match pathW with
    | Some w => PyMem_RawFree w;; modify (set_pythonPathW None)
    | None => mret tt
    end
  else mret tt.

(** ** Sequences of API calls *)

Inductive op : Type :=
| OpInitialize (pythonHome pythonPath : cstr)
| OpProcessRequest (requestJson clientId brandConfigJson : cstr) (errorOut : option N)
| OpFreeString (string : option N)
| OpFinalize.

Definition run_op (o : op) (st : state) : state :=
  match o with
  | OpInitialize h p => (novin_python_initialize h p st).2
  | OpProcessRequest r c b e => (novin_python_process_request r c b e st).2
  | OpFreeString s => (novin_python_free_string s st).2
  | OpFinalize => (novin_python_finalize st).2
  end.

Definition run_ops (ops : list op) (st : state) : state :=
  foldl (λ st o, run_op o st) st ops.

End Bridge.

(** ** Observations on event lists *)

(** Calls into libc, as opposed to calls into the interpreter. *)
Definition is_libc_event (e : event) : bool :=
  match e with
  | EvStrdup _ _ | EvFree _ => true
  | _ => false
  end.

(** The lock protocol of one call, as an automaton over its events:
    nothing of the interpreter is touched before [PyGILState_Ensure],
    the lock is taken once, given back once with the handle that was
    obtained, and nothing of the interpreter is touched afterwards. *)
Inductive gil_phase : Type :=
| GilNotTaken
| GilHeld (g : PyGILState_STATE)
| GilReleased.

Definition gil_step (ph : gil_phase) (e : event) : option gil_phase :=
  match ph, e with
  | GilNotTaken, EvPyGILState_Ensure g => Some (GilHeld g)
  | GilHeld g, EvPyGILState_Release g' =>
      if PyGILState_eqb g g' then Some GilReleased else None
  | GilHeld _, EvPyGILState_Ensure _ => None
  | GilHeld g, _ => Some (GilHeld g)
  | ph, e => if is_libc_event e then Some ph else None
  end.

Fixpoint gil_scan (ph : gil_phase) (evs : list event) : option gil_phase :=
  match evs with
  | [] => Some ph
  | e :: evs =>
      match gil_step ph e with
      | Some ph' => gil_scan ph' evs
      | None => None
      end
  end.

Definition gil_released_before_return (evs : list event) : bool :=
  match gil_scan GilNotTaken evs with
  | Some GilReleased => true
  | _ => false
  end.

(** The exits of [novin_python_process_request]. *)
Inductive exit_path : Type :=
| Success
| NotInitialized
| BridgeInitFailed
| MethodMissing
| ProcessingFailed
| EncodingFailed
| OutOfMemory.

Definition error_message (x : exit_path) : string :=
  match x with
  | Success => EmptyString
  | NotInitialized => "Python runtime not initialized"
  | BridgeInitFailed => "Failed to initialize NovinAIBridge"
  | MethodMissing => "NovinAIBridge missing process_request"
  | ProcessingFailed => "Python processing failed"
  | EncodingFailed => "Failed to convert Python result to UTF-8"
  | OutOfMemory => "Out of memory duplicating response"
  end.

(** A construction attempt starts by importing the bridge module and goes on
    to look its class up; the JSON machinery is only touched on the way. *)
Definition is_construction_event (e : event) : bool :=
  match e with
  | EvPyImport_Import _ _ => true
  | EvPyImport_ImportModule _ _ => true
  | EvPyObject_GetAttrString _ attr _ =>
      String.eqb attr "NovinAIBridge" || String.eqb attr "loads"
  | _ => false
  end.

Definition is_module_import (e : event) : bool :=
  match e with
  | EvPyImport_Import (PyStr name) _ => String.eqb name "novin_ai_bridge"
  | _ => false
  end.

Definition is_class_lookup (e : event) : bool :=
  match e with
  | EvPyObject_GetAttrString _ attr _ => String.eqb attr "NovinAIBridge"
  | _ => false
  end.

(** Events that configure the interpreter from the two arguments of
    [novin_python_initialize]. *)
Definition is_path_configuration (e : event) : bool :=
  match e with
  | EvPy_DecodeLocale _ _ | EvPyConfig_SetString _ _
  | EvPyWideStringList_Append _ _ | EvStrdup _ _ => true
  | _ => false
  end.

(** ** Sample environments *)

(** A cooperative interpreter with a well-behaved collaborator: every
    allocation succeeds, the module and its class exist, [json.loads]
    returns an object, the constructor returns the instance [PyRef 10] and
    [process_request] answers with the text [{}]. *)
Definition friendly_env : PyEnv := {|
  env_malloc := λ _ _, true;
  env_Py_DecodeLocale := λ _ s, Some s;
  env_PyConfig_SetString := λ _ _, PyStatus_OK;
  env_PyWideStringList_Append := λ _ _, PyStatus_OK;
  env_Py_InitializeFromConfig := λ _ _, PyStatus_OK;
  env_Py_IsInitialized := λ _, true;
  env_PyEval_SaveThread := λ _, Some 1%N;
  env_PyGILState_Ensure := λ _, PyGILState_UNLOCKED;
  env_PyUnicode_FromString := λ _ _, true;
  env_PyTuple_New := λ _ _, true;
  env_PyUnicode_AsUTF8 := λ _ _, true;
  env_PyImport_Import := λ _ _, Some (PyRef 1);
  env_PyImport_ImportModule := λ _ _, Some (PyRef 2);
  env_PyObject_GetAttrString := λ _ _ attr,
    if String.eqb attr "NovinAIBridge" then Some (PyRef 3)
    else if String.eqb attr "loads" then Some (PyRef 4)
    else if String.eqb attr "process_request" then Some (PyRef 5)
    else None;
  env_PyObject_CallObject := λ _ f _,
    match f with
    | PyRef 3 => Some (PyRef 10)
    | PyRef 4 => Some (PyRef 11)
    | PyRef 5 => Some (PyStr "{}")
    | _ => None
    end
|}.

(** The same, but the C allocator is exhausted. *)
Definition no_memory_env : PyEnv := {|
  env_malloc := λ _ _, false;
  env_Py_DecodeLocale := env_Py_DecodeLocale friendly_env;
  env_PyConfig_SetString := env_PyConfig_SetString friendly_env;
  env_PyWideStringList_Append := env_PyWideStringList_Append friendly_env;
  env_Py_InitializeFromConfig := env_Py_InitializeFromConfig friendly_env;
  env_Py_IsInitialized := env_Py_IsInitialized friendly_env;
  env_PyEval_SaveThread := env_PyEval_SaveThread friendly_env;
  env_PyGILState_Ensure := env_PyGILState_Ensure friendly_env;
  env_PyUnicode_FromString := env_PyUnicode_FromString friendly_env;
  env_PyTuple_New := env_PyTuple_New friendly_env;
  env_PyUnicode_AsUTF8 := env_PyUnicode_AsUTF8 friendly_env;
  env_PyImport_Import := env_PyImport_Import friendly_env;
  env_PyImport_ImportModule := env_PyImport_ImportModule friendly_env;
  env_PyObject_GetAttrString := env_PyObject_GetAttrString friendly_env;
  env_PyObject_CallObject := env_PyObject_CallObject friendly_env
|}.

(** A collaborator like that of [friendly_env], with a [json.loads] (the
    callable [PyRef 4]) that raises on every input: the brand configuration
    is never valid JSON.  What the class would answer is only asked when no
    error is pending (see [PyObject_CallObject]). *)
Definition bad_json_env : PyEnv := {|
  env_malloc := env_malloc friendly_env;
  env_Py_DecodeLocale := env_Py_DecodeLocale friendly_env;
  env_PyConfig_SetString := env_PyConfig_SetString friendly_env;
  env_PyWideStringList_Append := env_PyWideStringList_Append friendly_env;
  env_Py_InitializeFromConfig := env_Py_InitializeFromConfig friendly_env;
  env_Py_IsInitialized := env_Py_IsInitialized friendly_env;
  env_PyEval_SaveThread := env_PyEval_SaveThread friendly_env;
  env_PyGILState_Ensure := env_PyGILState_Ensure friendly_env;
  env_PyUnicode_FromString := env_PyUnicode_FromString friendly_env;
  env_PyTuple_New := env_PyTuple_New friendly_env;
  env_PyUnicode_AsUTF8 := env_PyUnicode_AsUTF8 friendly_env;
  env_PyImport_Import := env_PyImport_Import friendly_env;
  env_PyImport_ImportModule := env_PyImport_ImportModule friendly_env;
  env_PyObject_GetAttrString := env_PyObject_GetAttrString friendly_env;
  env_PyObject_CallObject := λ _ f _,
    match f with
    | PyRef 3 => Some (PyRef 10)
    | PyRef 5 => Some (PyStr "{}")
    | _ => None
    end
|}.

(** The same as [friendly_env], but the entry [b] cannot be decoded. *)
Definition picky_env : PyEnv := {|
  env_malloc := env_malloc friendly_env;
  env_Py_DecodeLocale := λ _ s, if String.eqb s "b" then None else Some s;
  env_PyConfig_SetString := env_PyConfig_SetString friendly_env;
  env_PyWideStringList_Append := env_PyWideStringList_Append friendly_env;
  env_Py_InitializeFromConfig := env_Py_InitializeFromConfig friendly_env;
  env_Py_IsInitialized := env_Py_IsInitialized friendly_env;
  env_PyEval_SaveThread := env_PyEval_SaveThread friendly_env;
  env_PyGILState_Ensure := env_PyGILState_Ensure friendly_env;
  env_PyUnicode_FromString := env_PyUnicode_FromString friendly_env;
  env_PyTuple_New := env_PyTuple_New friendly_env;
  env_PyUnicode_AsUTF8 := env_PyUnicode_AsUTF8 friendly_env;
  env_PyImport_Import := env_PyImport_Import friendly_env;
  env_PyImport_ImportModule := env_PyImport_ImportModule friendly_env;
  env_PyObject_GetAttrString := env_PyObject_GetAttrString friendly_env;
  env_PyObject_CallObject := env_PyObject_CallObject friendly_env
|}.

Definition empty_start : state := process_start ∅ ∅.

(** A state the friendly interpreter reaches by a successful initialize. *)
Definition running : state :=
  (novin_python_initialize friendly_env None None empty_start).2.

(** A state in which the runtime is up but the C allocator is exhausted. *)
Definition running_no_memory : state :=
  (novin_python_initialize no_memory_env None None empty_start).2.

(** ** Specification vocabulary *)

Local Open Scope list_scope.

(** Weakest precondition of a (total, deterministic) computation. *)
Definition wp {A} (m : M A) (st : state) (Q : A → state → Prop) : Prop :=
  Q (m st).1 (m st).2.

(** [st] with [evs] appended to its history and nothing else changed. *)
Definition with_events (evs : list event) (st : state) : state :=
  let '(mkState init inst homeW pathW ts hp cl h) := st in
  mkState init inst homeW pathW ts hp cl (h ++ evs).

Definition is_gil_event (e : event) : bool :=
  match e with
  | EvPyGILState_Ensure _ | EvPyGILState_Release _ => true
  | _ => false
  end.

Definition no_gil_event (evs : list event) : bool :=
  forallb (λ e, negb (is_gil_event e)) evs.

(** [p] is a buffer the call allocated, holding [s], and the only change to
    the heap: the caller now owns it. *)
Definition owned_copy (st st' : state) (p : N) (s : string) : Prop :=
  heap st !! p = None ∧ heap st' = <[p:=s]> (heap st).

(** What the statement [if (errorOut) *errorOut = strdup(msg);] leaves
    behind: the events [post], and the cell holding whatever [strdup]
    returned. *)
Definition error_report (errorOut : option N) (msg : string) (st st' : state)
    (post : list event) : Prop :=
  match errorOut with
  | None => post = [] ∧ heap st' = heap st ∧ cells st' = cells st
  | Some l =>
      ∃ r, post = [EvStrdup msg r] ∧ cells st' = <[l:=r]> (cells st) ∧
           match r with
           | Some q => owned_copy st st' q msg
           | None => heap st' = heap st
           end
  end.

(** The failures that can happen while the lock is held. *)
Definition locked_failures : list exit_path :=
  [BridgeInitFailed; MethodMissing; ProcessingFailed; EncodingFailed; OutOfMemory].

(** The result of a call that went past the initialisation check: [mid] are
    the events between taking and releasing the lock, [post] those after the
    release. *)
Definition call_outcome (errorOut : option N) (st st' : state) (ret : option N)
    (mid post : list event) : Prop :=
  match ret with
  | Some p =>
      post = [] ∧ cells st' = cells st ∧
      ∃ o s, In (EvPyUnicode_AsUTF8 o (Some s)) mid ∧
             In (EvStrdup s (Some p)) mid ∧
             owned_copy st st' p (c_string s)
  | None =>
      ∃ x, In x locked_failures ∧
           error_report errorOut (error_message x) st st' post
  end.

(** How [constructor_args] arrives at the argument tuple: the events it
    emits and the tuple it returns. *)
Inductive arguments (brandConfigJson : cstr) : list event → option PyObject → Prop :=
| args_no_config a :
    nonempty brandConfigJson = None →
    arguments brandConfigJson [EvPyTuple_New 0 a] a
| args_json_unavailable s a :
    nonempty brandConfigJson = Some s →
    arguments brandConfigJson
      [EvPyImport_ImportModule "json" None; EvPyTuple_New 0 a] a
| args_loads_missing s j a :
    nonempty brandConfigJson = Some s →
    arguments brandConfigJson
      [EvPyImport_ImportModule "json" (Some j);
       EvPyObject_GetAttrString j "loads" None;
       EvPy_DECREF (Some j);
       EvPyTuple_New 0 a] a
| args_parse_failed s j loads t u a :
    nonempty brandConfigJson = Some s →
    arguments brandConfigJson
      [EvPyImport_ImportModule "json" (Some j);
       EvPyObject_GetAttrString j "loads" (Some loads);
       EvPy_DECREF (Some j);
       EvPyTuple_New 1 t;
       EvPyUnicode_FromString (Some s) u;
       EvPyTuple_SetItem t 0 u;
       EvPyObject_CallObject loads (tuple_store t 0 u) None;
       EvPy_DECREF (Some loads);
       EvPy_DECREF (tuple_store t 0 u);
       EvPyTuple_New 0 a] a
| args_tuple_failed s j loads t u d a :
    nonempty brandConfigJson = Some s →
    arguments brandConfigJson
      [EvPyImport_ImportModule "json" (Some j);
       EvPyObject_GetAttrString j "loads" (Some loads);
       EvPy_DECREF (Some j);
       EvPyTuple_New 1 t;
       EvPyUnicode_FromString (Some s) u;
       EvPyTuple_SetItem t 0 u;
       EvPyObject_CallObject loads (tuple_store t 0 u) (Some d);
       EvPy_DECREF (Some loads);
       EvPy_DECREF (tuple_store t 0 u);
       EvPyTuple_New 1 None;
       EvPyTuple_SetItem None 0 (Some d);
       EvPyTuple_New 0 a] a
| args_parsed s j loads t u d :
    nonempty brandConfigJson = Some s →
    arguments brandConfigJson
      [EvPyImport_ImportModule "json" (Some j);
       EvPyObject_GetAttrString j "loads" (Some loads);
       EvPy_DECREF (Some j);
       EvPyTuple_New 1 t;
       EvPyUnicode_FromString (Some s) u;
       EvPyTuple_SetItem t 0 u;
       EvPyObject_CallObject loads (tuple_store t 0 u) (Some d);
       EvPy_DECREF (Some loads);
       EvPy_DECREF (tuple_store t 0 u);
       EvPyTuple_New 1 (Some (PyTuple [None]));
       EvPyTuple_SetItem (Some (PyTuple [None])) 0 (Some d)]
      (Some (PyTuple [Some d])).

(** One run of [ensure_bridge_initialized] that finds no instance: the
    events it emits and the value it leaves in [s_novinBridgeInstance]. *)
Inductive construction (brandConfigJson : cstr) : list event → option PyObject → Prop :=
| construction_no_name :
    construction brandConfigJson
      [EvPyUnicode_FromString (Some "novin_ai_bridge") None; EvPyErr_Print] None
| construction_import_failed :
    construction brandConfigJson
      [EvPyUnicode_FromString (Some "novin_ai_bridge") (Some (PyStr "novin_ai_bridge"));
       EvPyImport_Import (PyStr "novin_ai_bridge") None;
       EvPy_DECREF (Some (PyStr "novin_ai_bridge"));
       EvPyErr_Print] None
| construction_class_missing module :
    construction brandConfigJson
      [EvPyUnicode_FromString (Some "novin_ai_bridge") (Some (PyStr "novin_ai_bridge"));
       EvPyImport_Import (PyStr "novin_ai_bridge") (Some module);
       EvPy_DECREF (Some (PyStr "novin_ai_bridge"));
       EvPyObject_GetAttrString module "NovinAIBridge" None;
       EvPy_DECREF (Some module);
       EvPyErr_Print] None
| construction_constructor_failed module class pre args :
    arguments brandConfigJson pre args →
    construction brandConfigJson
      ([EvPyUnicode_FromString (Some "novin_ai_bridge") (Some (PyStr "novin_ai_bridge"));
        EvPyImport_Import (PyStr "novin_ai_bridge") (Some module);
        EvPy_DECREF (Some (PyStr "novin_ai_bridge"));
        EvPyObject_GetAttrString module "NovinAIBridge" (Some class);
        EvPy_DECREF (Some module)]
       ++ pre ++
       [EvPyObject_CallObject class args None;
        EvPy_DECREF args;
        EvPy_DECREF (Some class);
        EvPyErr_Print]) None
| construction_done module class pre args instance :
    arguments brandConfigJson pre args →
    construction brandConfigJson
      ([EvPyUnicode_FromString (Some "novin_ai_bridge") (Some (PyStr "novin_ai_bridge"));
        EvPyImport_Import (PyStr "novin_ai_bridge") (Some module);
        EvPy_DECREF (Some (PyStr "novin_ai_bridge"));
        EvPyObject_GetAttrString module "NovinAIBridge" (Some class);
        EvPy_DECREF (Some module)]
       ++ pre ++
       [EvPyObject_CallObject class args (Some instance);
        EvPy_DECREF args;
        EvPy_DECREF (Some class)]) (Some instance).

(** Lines 19-37 when the module is imported and the class found. *)
Definition class_lookup_events (module class : PyObject) : list event :=
  [EvPyUnicode_FromString (Some "novin_ai_bridge") (Some (PyStr "novin_ai_bridge"));
   EvPyImport_Import (PyStr "novin_ai_bridge") (Some module);
   EvPy_DECREF (Some (PyStr "novin_ai_bridge"));
   EvPyObject_GetAttrString module "NovinAIBridge" (Some class);
   EvPy_DECREF (Some module)].

(** Lines 41-54 when every step of parsing the configuration [s] succeeds:
    [d] is what [json.loads] returned for the one-element tuple holding
    [s]. *)
Definition parse_events (s : string) (j loads d : PyObject) : list event :=
  [EvPyImport_ImportModule "json" (Some j);
   EvPyObject_GetAttrString j "loads" (Some loads);
   EvPy_DECREF (Some j);
   EvPyTuple_New 1 (Some (PyTuple [None]));
   EvPyUnicode_FromString (Some s) (Some (PyStr s));
   EvPyTuple_SetItem (Some (PyTuple [None])) 0 (Some (PyStr s));
   EvPyObject_CallObject loads (Some (PyTuple [Some (PyStr s)])) (Some d);
   EvPy_DECREF (Some loads);
   EvPy_DECREF (Some (PyTuple [Some (PyStr s)]));
   EvPyTuple_New 1 (Some (PyTuple [None]));
   EvPyTuple_SetItem (Some (PyTuple [None])) 0 (Some d)].

(** The runs of [ensure_bridge_initialized] that leave an instance: without
    a configuration the class is called on the empty tuple, with one it is
    called on the one-element tuple holding the parsed configuration. *)
Inductive constructed (brandConfigJson : cstr) : list event → PyObject → Prop :=
| constructed_default module class instance :
    nonempty brandConfigJson = None →
    constructed brandConfigJson
      (class_lookup_events module class ++
       [EvPyTuple_New 0 (Some (PyTuple []));
        EvPyObject_CallObject class (Some (PyTuple [])) (Some instance);
        EvPy_DECREF (Some (PyTuple []));
        EvPy_DECREF (Some class)])
      instance
| constructed_configured s module class j loads d instance :
    nonempty brandConfigJson = Some s →
    constructed brandConfigJson
      (class_lookup_events module class ++ parse_events s j loads d ++
       [EvPyObject_CallObject class (Some (PyTuple [Some d])) (Some instance);
        EvPy_DECREF (Some (PyTuple [Some d]));
        EvPy_DECREF (Some class)])
      instance.

(** The call changed none of the five file-scope variables. *)
Definition same_globals (st st' : state) : Prop :=
  s_pythonInitialized st' = s_pythonInitialized st ∧
  s_novinBridgeInstance st' = s_novinBridgeInstance st ∧
  s_pythonHomeW st' = s_pythonHomeW st ∧
  s_pythonPathW st' = s_pythonPathW st ∧
  s_mainThreadState st' = s_mainThreadState st.

Definition is_construction_free (evs : list event) : bool :=
  forallb (λ e, negb (is_construction_event e)) evs.

(** The cell [l] points to a live buffer holding [msg]. *)
Definition slot_holds_message (st : state) (l : N) (msg : string) : Prop :=
  ∃ p, cells st !! l = Some (Some p) ∧ heap st !! p = Some msg.

(** *** Traces of [novin_python_initialize] *)

(** Lines 90-101. *)
Inductive home_stage (pythonHome : cstr) (c : PyConfig)
  : list event → option PyConfig → Prop :=
| home_absent :
    nonempty pythonHome = None →
    home_stage pythonHome c [] (Some c)
| home_decode_fails h :
    nonempty pythonHome = Some h →
    home_stage pythonHome c [EvPy_DecodeLocale h None; EvPyConfig_Clear] None
| home_store_fails h w status :
    nonempty pythonHome = Some h →
    PyStatus_Exception status = true →
    home_stage pythonHome c
      [EvPy_DecodeLocale h (Some w); EvPyConfig_SetString w status; EvPyConfig_Clear]
      None
| home_stored h w status :
    nonempty pythonHome = Some h →
    PyStatus_Exception status = false →
    home_stage pythonHome c
      [EvPy_DecodeLocale h (Some w); EvPyConfig_SetString w status]
      (Some (set_home c w)).

(** Lines 113-125, one constructor per way through the loop body. *)
Inductive path_loop (mutablePath : N)
  : list string → PyConfig → list event → option PyConfig → Prop :=
| loop_end c :
    path_loop mutablePath [] c [] (Some c)
| loop_skip token tokens c evs r :
    path_loop mutablePath tokens c evs r →
    path_loop mutablePath (token :: tokens) c (EvPy_DecodeLocale token None :: evs) r
| loop_append token tokens w status c evs r :
    PyStatus_Exception status = false →
    path_loop mutablePath tokens (add_search_path c w) evs r →
    path_loop mutablePath (token :: tokens) c
      (EvPy_DecodeLocale token (Some w) :: EvPyWideStringList_Append w status
       :: EvPyMem_RawFree w :: evs) r
| loop_abort token tokens w status c :
    PyStatus_Exception status = true →
    path_loop mutablePath (token :: tokens) c
      [EvPy_DecodeLocale token (Some w); EvPyWideStringList_Append w status;
       EvPyMem_RawFree w; EvFree mutablePath; EvPyConfig_Clear] None.

(** Lines 104-127. *)
Inductive path_stage (pythonPath : cstr) (c : PyConfig)
  : list event → option PyConfig → Prop :=
| path_absent :
    nonempty pythonPath = None →
    path_stage pythonPath c [] (Some c)
| path_no_memory p :
    nonempty pythonPath = Some p →
    path_stage pythonPath c [EvStrdup p None; EvPyConfig_Clear] None
| path_aborted p mutablePath evs :
    nonempty pythonPath = Some p →
    path_loop mutablePath (strtok_r delim p EmptyString) c evs None →
    path_stage pythonPath c (EvStrdup p (Some mutablePath) :: evs) None
| path_appended p mutablePath evs c' :
    nonempty pythonPath = Some p →
    path_loop mutablePath (strtok_r delim p EmptyString) c evs (Some c') →
    path_stage pythonPath c
      (EvStrdup p (Some mutablePath) :: evs ++ [EvFree mutablePath]) (Some c').

(** Lines 129-140. *)
Inductive startup_stage (c : PyConfig) : list event → bool → Prop :=
| startup_exception status :
    PyStatus_Exception status = true →
    startup_stage c
      [EvPy_InitializeFromConfig c status; EvPyConfig_Clear; EvPyErr_Print] false
| startup_not_initialized status :
    PyStatus_Exception status = false →
    startup_stage c
      [EvPy_InitializeFromConfig c status; EvPy_IsInitialized false;
       EvPyConfig_Clear; EvPyErr_Print] false
| startup_done status t :
    PyStatus_Exception status = false →
    startup_stage c
      [EvPy_InitializeFromConfig c status; EvPy_IsInitialized true;
       EvPyConfig_Clear; EvPyEval_SaveThread t] true.

(** A whole run of [novin_python_initialize] from the uninitialised state:
    its events and its result. *)
Inductive initialize_run (pythonHome pythonPath : cstr) : list event → bool → Prop :=
| run_home_failed hevs :
    home_stage pythonHome isolated_config hevs None →
    initialize_run pythonHome pythonPath (EvPyConfig_InitIsolatedConfig :: hevs) false
| run_path_failed hevs c1 pevs :
    home_stage pythonHome isolated_config hevs (Some c1) →
    path_stage pythonPath c1 pevs None →
    initialize_run pythonHome pythonPath
      (EvPyConfig_InitIsolatedConfig :: hevs ++ pevs) false
| run_started hevs c1 pevs c2 sevs b :
    home_stage pythonHome isolated_config hevs (Some c1) →
    path_stage pythonPath c1 pevs (Some c2) →
    startup_stage c2 sevs b →
    initialize_run pythonHome pythonPath
      (EvPyConfig_InitIsolatedConfig :: hevs ++ pevs ++ sevs) b.

(** Events that make [novin_python_initialize] give up. *)
Definition is_fatal_event (e : event) : bool :=
  match e with
  | EvPyConfig_SetString _ status => PyStatus_Exception status
  | EvStrdup _ None => true
  | EvPyWideStringList_Append _ status => PyStatus_Exception status
  | EvPy_InitializeFromConfig _ status => PyStatus_Exception status
  | EvPy_IsInitialized b => negb b
  | _ => false
  end.

(** Of those, the ones the specification lists. *)
Definition is_listed_fatal_event (e : event) : bool :=
  match e with
  | EvPyWideStringList_Append _ status => PyStatus_Exception status
  | EvPy_InitializeFromConfig _ status => PyStatus_Exception status
  | EvPy_IsInitialized b => negb b
  | _ => false
  end.

(** The home path is the first thing decoded, right after the configuration
    is initialised; a path entry is only decoded after the [strdup]. *)
Definition home_decode_failed (evs : list event) : bool :=
  match evs with
  | _ :: EvPy_DecodeLocale _ None :: _ => true
  | _ => false
  end.

Definition initialize_failure (evs : list event) : bool :=
  home_decode_failed evs || existsb is_fatal_event evs.

Definition listed_initialize_failure (evs : list event) : bool :=
  home_decode_failed evs || existsb is_listed_fatal_event evs.

(** The strings handed to [Py_DecodeLocale], and those it decoded. *)
Definition decode_attempts (evs : list event) : list string :=
  omap (λ e, match e with EvPy_DecodeLocale s _ => Some s | _ => None end) evs.

Definition decoded (evs : list event) : list string :=
  omap (λ e, match e with EvPy_DecodeLocale _ (Some w) => Some w | _ => None end) evs.

(** The configurations the interpreter was started with. *)
Definition startup_configs (evs : list event) : list PyConfig :=
  omap (λ e, match e with EvPy_InitializeFromConfig c _ => Some c | _ => None end) evs.

(** The paths a configuration carries: the home, then the search paths. *)
Definition configured (c : PyConfig) : list string :=
  option_list (home c) ++ module_search_paths c.

(** The entries of a colon-separated path argument. *)
Definition path_entries (pythonPath : cstr) : list string :=
  match nonempty pythonPath with
  | Some p => strtok_r delim p EmptyString
  | None => []
  end.

(** A later call: request, client, brand configuration, error slot. *)
Definition request : Type := cstr * cstr * cstr * option N.

Definition run_requests (env : PyEnv) (calls : list request) (st : state) : state :=
  foldl (λ st '(rq, c, b, e), (novin_python_process_request env rq c b e st).2)
        st calls.

Definition count_events (p : event → bool) (evs : list event) : nat :=
  length (List.filter p evs).

(** The invariant tying the two main globals together. *)
Definition bridge_invariant (st : state) : bool :=
  match s_novinBridgeInstance st with
  | Some _ => s_pythonInitialized st
  | None => true
  end.

(** *** Traces of the forwarding part of a call *)

(** [clientId ? clientId : "ios-client"] (line 179). *)
Definition default_client (clientId : cstr) : string :=
  match clientId with
  | Some c => c
  | None => "ios-client"
  end.

(** What the three allocating calls can answer. *)
Definition fresh_tuple (n : nat) (t : option PyObject) : Prop :=
  t = Some (PyTuple (replicate n None)) ∨ t = None.

Definition unicode_of (s : cstr) (u : option PyObject) : Prop :=
  u = None ∨ ∃ s', s = Some s' ∧ u = Some (PyStr s').

Definition utf8_of (o : PyObject) (r : cstr) : Prop :=
  r = None ∨ ∃ s, o = PyStr s ∧ r = Some s.

(** The argument tuple of line 182, from the results [t], [u], [v] of the
    three allocations. *)
Definition request_args (t u v : option PyObject) : option PyObject :=
  tuple_store (tuple_store t 0 u) 1 v.

(** Lines 177-184: building the arguments, the call, dropping the
    references. *)
Definition call_events (processFunc : PyObject) (requestJson : cstr)
    (client : string) (t u v result : option PyObject) : list event :=
  [EvPyTuple_New 2 t;
   EvPyUnicode_FromString requestJson u;
   EvPyTuple_SetItem t 0 u;
   EvPyUnicode_FromString (Some client) v;
   EvPyTuple_SetItem (tuple_store t 0 u) 1 v;
   EvPyObject_CallObject processFunc (request_args t u v) result;
   EvPy_DECREF (request_args t u v);
   EvPy_DECREF (Some processFunc)].

(** Lines 167-207, one constructor per exit: the events between the
    construction (if any) and the release of the lock, the exit taken and
    the value returned. *)
Inductive forwarding (instance : PyObject) (requestJson clientId : cstr)
  : list event → exit_path → option N → Prop :=
| fwd_method_missing :
    forwarding instance requestJson clientId
      [EvPyObject_GetAttrString instance "process_request" None; EvPyErr_Print]
      MethodMissing None
| fwd_processing_failed processFunc t u v :
    fresh_tuple 2 t → unicode_of requestJson u →
    unicode_of (Some (default_client clientId)) v →
    forwarding instance requestJson clientId
      (EvPyObject_GetAttrString instance "process_request" (Some processFunc)
       :: call_events processFunc requestJson (default_client clientId) t u v None
       ++ [EvPyErr_Print])
      ProcessingFailed None
| fwd_encoding_failed processFunc t u v result :
    fresh_tuple 2 t → unicode_of requestJson u →
    unicode_of (Some (default_client clientId)) v →
    forwarding instance requestJson clientId
      (EvPyObject_GetAttrString instance "process_request" (Some processFunc)
       :: call_events processFunc requestJson (default_client clientId) t u v
            (Some result)
       ++ [EvPyUnicode_AsUTF8 result None; EvPy_DECREF (Some result)])
      EncodingFailed None
| fwd_out_of_memory processFunc t u v s :
    fresh_tuple 2 t → unicode_of requestJson u →
    unicode_of (Some (default_client clientId)) v →
    forwarding instance requestJson clientId
      (EvPyObject_GetAttrString instance "process_request" (Some processFunc)
       :: call_events processFunc requestJson (default_client clientId) t u v
            (Some (PyStr s))
       ++ [EvPyUnicode_AsUTF8 (PyStr s) (Some s); EvStrdup s None;
           EvPy_DECREF (Some (PyStr s))])
      OutOfMemory None
| fwd_success processFunc t u v s p :
    fresh_tuple 2 t → unicode_of requestJson u →
    unicode_of (Some (default_client clientId)) v →
    forwarding instance requestJson clientId
      (EvPyObject_GetAttrString instance "process_request" (Some processFunc)
       :: call_events processFunc requestJson (default_client clientId) t u v
            (Some (PyStr s))
       ++ [EvPyUnicode_AsUTF8 (PyStr s) (Some s); EvStrdup s (Some p);
           EvPy_DECREF (Some (PyStr s))])
      Success (Some p).

(** What an exit leaves in memory: on success the returned buffer and an
    untouched error cell, otherwise the error report for that exit. *)
Definition exit_effect (errorOut : option N) (x : exit_path) (ret : option N)
    (st st' : state) (mid post : list event) : Prop :=
  match x with
  | Success =>
      post = [] ∧ cells st' = cells st ∧
      ∃ p s, ret = Some p ∧ In (EvStrdup s (Some p)) mid ∧
             owned_copy st st' p (c_string s)
  | _ => ret = None ∧ error_report errorOut (error_message x) st st' post
  end.

(** A whole call made while the runtime is initialised: its events, the
    events after the release, the instance it leaves, its exit and result.
    [before] is the instance it finds. *)
Inductive request_run (requestJson clientId brandConfigJson : cstr)
    (before : option PyObject)
  : list event → list event → option PyObject → exit_path → option N → Prop :=
| run_existing g i mid x ret post :
    before = Some i →
    forwarding i requestJson clientId mid x ret →
    request_run requestJson clientId brandConfigJson before
      (EvPyGILState_Ensure g :: mid ++ EvPyGILState_Release g :: post)
      post (Some i) x ret
| run_constructed g i cevs mid x ret post :
    before = None →
    construction brandConfigJson cevs (Some i) →
    forwarding i requestJson clientId mid x ret →
    request_run requestJson clientId brandConfigJson before
      (EvPyGILState_Ensure g :: (cevs ++ mid) ++ EvPyGILState_Release g :: post)
      post (Some i) x ret
| run_not_constructed g cevs post :
    before = None →
    construction brandConfigJson cevs None →
    request_run requestJson clientId brandConfigJson before
      (EvPyGILState_Ensure g :: cevs ++ EvPyGILState_Release g :: post)
      post None BridgeInitFailed None.

(** The callables invoked with their arguments, and what they returned. *)
Definition calls (evs : list event) : list (PyObject * option PyObject) :=
  omap (λ e, match e with
             | EvPyObject_CallObject f a _ => Some (f, a)
             | _ => None
             end) evs.

Definition call_results (evs : list event) : list (option PyObject) :=
  omap (λ e, match e with
             | EvPyObject_CallObject _ _ r => Some r
             | _ => None
             end) evs.

Definition is_free_event (e : event) : bool :=
  match e with
  | EvFree _ => true
  | _ => false
  end.

(** *** Runs the C code does not survive

    The bridge uses the tuples and strings it creates without checking them
    for NULL.  Where it hands NULL to a function that dereferences its
    argument ([PyTuple_SetItem] on a NULL tuple, [Py_DECREF] of NULL,
    [PyUnicode_FromString] of a NULL text, a call whose argument tuple has
    an empty slot) the behaviour of the C program is undefined; the
    embedding goes on as if the function had done nothing, and the event
    marks the run. *)
Definition has_empty_slot (args : option PyObject) : bool :=
  match args with
  | Some (PyTuple items) =>
      existsb (λ x, match x with None => true | Some _ => false end) items
  | _ => false
  end.

Definition dereferences_null (e : event) : bool :=
  match e with
  | EvPyTuple_SetItem None _ _ => true
  | EvPy_DECREF None => true
  | EvPyUnicode_FromString None _ => true
  | EvPyObject_CallObject _ args _ => has_empty_slot args
  | _ => false
  end.

Definition null_dereferenced (evs : list event) : bool :=
  existsb dereferences_null evs.

(** *** Reference counting

    Every object-returning function the bridge calls gives it a new
    reference when it does not return NULL; [PyTuple_SetItem] takes over
    the reference to the item it is passed; [Py_DECREF] and [Py_XDECREF]
    give one up. *)
Definition held (o : option PyObject) : nat :=
  match o with
  | Some _ => 1
  | None => 0
  end.

Definition acquired (e : event) : nat :=
  match e with
  | EvPyUnicode_FromString _ r | EvPyImport_Import _ r
  | EvPyImport_ImportModule _ r | EvPyObject_GetAttrString _ _ r
  | EvPyTuple_New _ r | EvPyObject_CallObject _ _ r => held r
  | _ => 0
  end.

Definition released (e : event) : nat :=
  match e with
  | EvPy_DECREF o | EvPy_XDECREF o => held o
  | _ => 0
  end.

Definition total (f : event → nat) (evs : list event) : nat :=
  foldr (λ e n, f e + n) 0 evs.

(** The new reference an event brings, if any. *)
Definition new_reference (e : event) : option PyObject :=
  match e with
  | EvPyUnicode_FromString _ r | EvPyImport_Import _ r
  | EvPyImport_ImportModule _ r | EvPyObject_GetAttrString _ _ r
  | EvPyTuple_New _ r | EvPyObject_CallObject _ _ r => r
  | _ => None
  end.

(** Events that neither bring nor move nor give up a reference. *)
Definition keeps_references (e : event) : bool :=
  match e with
  | EvPyTuple_SetItem _ _ _ | EvPy_DECREF _ | EvPy_XDECREF (Some _) => false
  | _ => match new_reference e with Some _ => false | None => true end
  end.

(** [take o owned rest]: [o] is one of the references in [owned], and
    [rest] are the others. *)
Inductive take (o : PyObject) : list PyObject → list PyObject → Prop :=
| take_here owned : take o (o :: owned) owned
| take_later x owned rest : take o owned rest → take o (x :: owned) (x :: rest).

(** [ledger owned evs final]: starting with the references [owned], the
    events [evs] can be accounted for one by one, and [final] are the
    references left.  A new reference is added to the books; storing an
    owned item into an empty slot of an owned tuple moves the item's
    reference into the tuple (which is then the tuple with that slot
    filled); a release
    needs a reference that is on the books and removes it.  Nothing can be
    released twice, released without being owned, or stored into a tuple
    that is not there. *)
Inductive ledger : list PyObject → list event → list PyObject → Prop :=
| ledger_done owned :
    ledger owned [] owned
| ledger_new e o owned evs final :
    new_reference e = Some o →
    ledger (o :: owned) evs final →
    ledger owned (e :: evs) final
| ledger_keep e owned evs final :
    keeps_references e = true →
    ledger owned evs final →
    ledger owned (e :: evs) final
| ledger_store items i v owned owned1 owned2 evs final :
    items !! i = Some None →
    take v owned owned1 →
    take (PyTuple items) owned1 owned2 →
    ledger (PyTuple (<[i:=Some v]> items) :: owned2) evs final →
    ledger owned (EvPyTuple_SetItem (Some (PyTuple items)) i (Some v) :: evs) final
| ledger_store_nothing t i owned evs final :
    ledger owned evs final →
    ledger owned (EvPyTuple_SetItem (Some t) i None :: evs) final
| ledger_release o owned rest evs final :
    take o owned rest →
    ledger rest evs final →
    ledger owned (EvPy_DECREF (Some o) :: evs) final
| ledger_xrelease o owned rest evs final :
    take o owned rest →
    ledger rest evs final →
    ledger owned (EvPy_XDECREF (Some o) :: evs) final.

(** The friendly interpreter after a first request: the instance exists. *)
Definition serving : state :=
  (novin_python_process_request friendly_env (Some "{}") None None None running).2.

(** *** Tear-down and clean-up *)

(** The events of a [novin_python_finalize] that finds the runtime
    initialised, from the globals it finds and the lock handle it gets. *)
Definition finalize_events (t : option PyThreadState) (g : PyGILState_STATE)
    (instance : option PyObject) (homeW pathW : option string) : list event :=
  match t with
  | Some t => [EvPyEval_RestoreThread t]
  | None => []
  end ++
  [EvPyGILState_Ensure g; EvPy_XDECREF instance; EvPyGILState_Release g;
   EvPy_Finalize] ++
  match homeW with
  | Some w => [EvPyMem_RawFree w]
  | None => []
  end ++
  match pathW with
  | Some w => [EvPyMem_RawFree w]
  | None => []
  end.

(** [s_pythonHomeW] after lines 90-101, from the events of that stage. *)
Definition home_saved (old : option string) (hevs : list event) : option string :=
  match hevs with
  | EvPy_DecodeLocale _ r :: _ => r
  | _ => old
  end.

Definition is_clear_event (e : event) : bool :=
  match e with
  | EvPyConfig_Clear => true
  | _ => false
  end.

Definition is_copy_event (e : event) : bool :=
  match e with
  | EvStrdup _ (Some _) => true
  | _ => false
  end.

(** The wide strings given back with [PyMem_RawFree]. *)
Definition raw_freed (evs : list event) : list string :=
  omap (λ e, match e with EvPyMem_RawFree w => Some w | _ => None end) evs.

(** The thread states saved by [PyEval_SaveThread]. *)
Definition saved_threads (evs : list event) : list (option PyThreadState) :=
  omap (λ e, match e with EvPyEval_SaveThread t => Some t | _ => None end) evs.

(** Two facts about the globals [s_pythonPathW] and [s_mainThreadState]. *)
Definition lifecycle_invariant (st : state) : bool :=
  match s_pythonPathW st, s_mainThreadState st with
  | None, Some _ => s_pythonInitialized st
  | None, None => true
  | Some _, _ => false
  end.

(** *** Path entries *)

Fixpoint delimiter_free (s : string) : bool :=
  match s with
  | EmptyString => true
  | String c rest => negb (Ascii.eqb c delim) && delimiter_free rest
  end.

(** What a search-path entry looks like: at least one character, no
    delimiter among them. *)
Definition is_entry (s : string) : bool :=
  (0 <? strlen s)%nat && delimiter_free s.

(** The path argument naming the given entries. *)
Definition joined (entries : list string) : string :=
  String.concat (String delim EmptyString) entries.

(** * Proofs *)

(** ** Rules of the weakest precondition *)

Section Rules.

Context (env : PyEnv).

Lemma wp_ret {A} (a : A) st Q : Q a st → wp (mret a) st Q.
Proof. done. Qed.

Lemma wp_bind {A B} (m : M A) (f : A → M B) st Q :
  wp m st (λ a st', wp (f a) st' Q) → wp (m ≫= f) st Q.
Proof. unfold wp, mbind, M_bind. by destruct (m st). Qed.

Lemma wp_mono {A} (m : M A) st (Q Q' : A → state → Prop) :
  wp m st Q → (∀ a st', Q a st' → Q' a st') → wp m st Q'.
Proof. unfold wp. auto. Qed.

Lemma wp_get {A} (proj : state → A) st Q : Q (proj st) st → wp (get proj) st Q.
Proof. done. Qed.

Lemma wp_modify f st Q : Q tt (f st) → wp (modify f) st Q.
Proof. done. Qed.

Lemma wp_emit e st Q : Q tt (log e st) → wp (emit e) st Q.
Proof. done. Qed.

(** The answer of the outside world is arbitrary. *)
Lemma wp_extcall {A} (ask : list event → A) ev st Q :
  (∀ r, Q r (log (ev r) st)) → wp (extcall ask ev) st Q.
Proof. unfold wp, extcall. auto. Qed.

Lemma wp_PyTuple_New n st Q :
  Q (Some (PyTuple (replicate n None)))
    (log (EvPyTuple_New n (Some (PyTuple (replicate n None)))) st) →
  Q None (log (EvPyTuple_New n None) st) →
  wp (PyTuple_New env n) st Q.
Proof.
  unfold wp, PyTuple_New, extcall. simpl.
  by destruct (env_PyTuple_New env (hist st) n).
Qed.

Lemma wp_PyUnicode_FromString s st Q :
  Q (Some (PyStr s)) (log (EvPyUnicode_FromString (Some s) (Some (PyStr s))) st) →
  Q None (log (EvPyUnicode_FromString (Some s) None) st) →
  wp (PyUnicode_FromString env (Some s)) st Q.
Proof.
  unfold wp, PyUnicode_FromString, extcall. simpl.
  by destruct (env_PyUnicode_FromString env (hist st) s).
Qed.

Lemma wp_PyUnicode_FromString_any s st Q :
  (∀ r, Q r (log (EvPyUnicode_FromString s r) st)) →
  wp (PyUnicode_FromString env s) st Q.
Proof. intros H. apply wp_extcall, H. Qed.

Lemma wp_strdup s st Q :
  (∀ p, heap st !! p = None →
        Q (Some p)
          (log (EvStrdup s (Some p)) (set_heap (<[p:=c_string s]> (heap st)) st))) →
  Q None (log (EvStrdup s None) st) →
  wp (strdup env s) st Q.
Proof.
  intros Hok Hfail. unfold wp, strdup.
  destruct (env_malloc env (hist st) (strlen (c_string s) + 1)); [|done].
  apply Hok. apply not_elem_of_dom, is_fresh.
Qed.

Lemma wp_free p st Q :
  Q tt (log (EvFree p) (set_heap (delete p (heap st)) st)) → wp (free p) st Q.
Proof. done. Qed.

End Rules.

Ltac head_of t :=
  lazymatch t with
  | ?f _ => head_of f
  | _ => t
  end.

(** One step of symbolic execution. *)
Ltac wp_step :=
  lazymatch goal with
  | |- wp (mret _) _ _ => apply wp_ret
  | |- wp (_ ≫= _) _ _ => apply wp_bind
  | |- wp (get _) _ _ => apply wp_get
  | |- wp (modify _) _ _ => apply wp_modify
  | |- wp (emit _) _ _ => apply wp_emit
  | |- wp (extcall _ _) _ _ => apply wp_extcall; intros ?
  | |- wp (PyTuple_New _ _) _ _ => apply wp_PyTuple_New
  | |- wp (PyUnicode_FromString _ (Some _)) _ _ => apply wp_PyUnicode_FromString
  | |- wp (PyUnicode_FromString _ _) _ _ =>
      apply wp_PyUnicode_FromString_any; intros ?
  | |- wp (strdup _ _) _ _ => apply wp_strdup; [intros ? ?|]
  | |- wp (free _) _ _ => apply wp_free
  | |- wp (match ?x with _ => _ end) _ _ =>
      let y := eval cbn in x in
      change x with y;
      first [ let hd := head_of y in is_constructor hd; cbv beta iota
            | destruct y eqn:? ]
  | |- wp (let _ := _ in _) _ _ => cbv zeta
  end.

Ltac wp_unfold :=
  unfold PyConfig_InitIsolatedConfig, Py_DecodeLocale, PyConfig_SetString_home,
    PyWideStringList_Append, PyMem_RawFree, PyConfig_Clear,
    Py_InitializeFromConfig, Py_IsInitialized, PyEval_SaveThread,
    PyEval_RestoreThread, Py_Finalize, PyGILState_Ensure, PyGILState_Release,
    PyUnicode_AsUTF8, PyImport_Import, PyImport_ImportModule,
    PyObject_GetAttrString, PyTuple_SetItem, PyObject_CallObject, Py_DECREF,
    Py_XDECREF, PyErr_Print, set_error.

Ltac wp_run := wp_unfold; repeat wp_step.

(** Bring a history built by successive [log]s into the form
    [start ++ [e1; ...; en]]. *)
Ltac hist_norm :=
  unfold log, with_events, set_heap, set_cells, set_novinBridgeInstance,
    set_pythonInitialized, set_pythonHomeW, set_pythonPathW, set_mainThreadState;
  cbn; rewrite <- ?app_assoc, ?app_nil_r; cbn.

(** The events by which a state built from [log]s differs from its base,
    oldest first; [acc] collects the later ones. *)
Ltac events_of s acc :=
  lazymatch s with
  | log ?e ?s' => events_of s' constr:(e :: acc)
  | with_events ?evs ?s' =>
      lazymatch acc with
      | [] => events_of s' evs
      | _ => events_of s' constr:(evs ++ acc)
      end
  | set_heap _ ?s' => events_of s' acc
  | set_cells _ ?s' => events_of s' acc
  | set_novinBridgeInstance _ ?s' => events_of s' acc
  | set_pythonInitialized _ ?s' => events_of s' acc
  | set_pythonHomeW _ ?s' => events_of s' acc
  | set_pythonPathW _ ?s' => events_of s' acc
  | set_mainThreadState _ ?s' => events_of s' acc
  | _ => acc
  end.

(** The same, when the state is known by an equation [Hh] on its history. *)
Ltac exists_after Hh :=
  lazymatch type of Hh with
  | hist _ = hist ?s ++ ?evs =>
      let l := events_of s constr:(evs) in exists l
  end.

Ltac exists_events :=
  lazymatch goal with
  | |- ∃ _, hist ?s = _ ∧ _ =>
      let l := events_of s constr:(@nil event) in exists l
  | |- ∃ _, ?s = _ ∧ _ =>
      let l := events_of s constr:(@nil event) in exists l
  | |- ∃ _ _, ?s = _ ∧ _ =>
      let l := events_of s constr:(@nil event) in exists l
  end.

Section Proofs.

Context (env : PyEnv).

Lemma emitted_app st st' evs : hist st' = hist st ++ evs → emitted st st' = evs.
Proof. unfold emitted. intros ->. by rewrite drop_app_length. Qed.

Lemma constructor_args_spec brandConfigJson st :
  wp (constructor_args env brandConfigJson) st
     (λ args st', ∃ evs, st' = with_events evs st ∧ arguments brandConfigJson evs args).
Proof.
  destruct st as [f inst hw pw ts hp cl h].
  unfold constructor_args. wp_run.
  all: exists_events; (split; [hist_norm; reflexivity|]).
  all: econstructor; eassumption.
Qed.

Lemma ensure_bridge_initialized_spec brandConfigJson st :
  s_novinBridgeInstance st = None →
  wp (ensure_bridge_initialized env brandConfigJson) st
     (λ _ st', ∃ evs r, st' = set_novinBridgeInstance r (with_events evs st) ∧
                        construction brandConfigJson evs r).
Proof.
  destruct st as [f inst hw pw ts hp cl h]. intros Hinst. cbn in Hinst. subst inst.
  unfold ensure_bridge_initialized. wp_unfold.
  wp_run.
  all: try lazymatch goal with
           | |- wp (constructor_args _ _) _ _ =>
               eapply wp_mono; [apply constructor_args_spec|];
               intros args st' (evs & -> & Hargs); wp_run
           end.
  all: exists_events; eexists; (split; [hist_norm; reflexivity|]).
  all: econstructor; eassumption.
Qed.


(** *** The error indicator *)

Lemma error_pending_snoc h e :
  error_pending (h ++ [e]) = error_step (error_pending h) e.
Proof. unfold error_pending. by rewrite foldl_snoc. Qed.

(** A call made with the error indicator set comes back NULL. *)
Lemma wp_PyObject_CallObject_checked f args st Q :
  (∀ r, (error_pending (hist st) = true → r = None) →
        Q r (log (EvPyObject_CallObject f args r) st)) →
  wp (PyObject_CallObject env f args) st Q.
Proof.
  intros H. unfold wp, PyObject_CallObject, extcall. cbv zeta. cbn [fst snd].
  apply H. by intros ->.
Qed.

Ltac wp_step_checked :=
  lazymatch goal with
  | |- wp (PyObject_CallObject _ _ _) _ _ =>
      apply wp_PyObject_CallObject_checked; intros ? ?
  | _ => wp_step
  end.

Ltac wp_run_checked :=
  unfold PyConfig_InitIsolatedConfig, Py_DecodeLocale, PyConfig_SetString_home,
    PyWideStringList_Append, PyMem_RawFree, PyConfig_Clear,
    Py_InitializeFromConfig, Py_IsInitialized, PyEval_SaveThread,
    PyEval_RestoreThread, Py_Finalize, PyGILState_Ensure, PyGILState_Release,
    PyUnicode_AsUTF8, PyImport_Import, PyImport_ImportModule,
    PyObject_GetAttrString, PyTuple_SetItem, Py_DECREF,
    Py_XDECREF, PyErr_Print, set_error;
  repeat wp_step_checked.

(** Evaluate the indicator over the events a run has logged so far. *)
Ltac pending_norm H :=
  unfold log in H; cbn [hist] in H;
  rewrite ?error_pending_snoc in H; cbn [error_step raises] in H.

(** A run that sets the instance made every step of lines 19-63 succeed:
    after any failure the indicator is still set when the class is called,
    and the call comes back NULL. *)
Lemma ensure_bridge_initialized_checked brandConfigJson st :
  s_novinBridgeInstance st = None →
  wp (ensure_bridge_initialized env brandConfigJson) st
     (λ _ st', ∀ i, s_novinBridgeInstance st' = Some i →
                    ∃ evs, hist st' = hist st ++ evs ∧
                           constructed brandConfigJson evs i).
Proof.
  destruct st as [f inst hw pw ts hp cl h]. intros Hinst. cbn in Hinst. subst inst.
  unfold ensure_bridge_initialized, constructor_args. wp_run_checked.
  all: intros i Hi; cbn in Hi; try discriminate Hi.
  all: repeat match goal with
         | H : error_pending _ = true → _ = None |- _ =>
             pending_norm H;
             first [ subst; discriminate (H eq_refl) | clear H ]
         end.
  all: simplify_eq.
  all: exists_events; (split; [hist_norm; reflexivity|]).
  all: first [ by eapply constructed_default | by eapply constructed_configured ].
Qed.

Lemma ensure_bridge_initialized_full brandConfigJson st :
  s_novinBridgeInstance st = None →
  wp (ensure_bridge_initialized env brandConfigJson) st
     (λ _ st', ∃ evs r, st' = set_novinBridgeInstance r (with_events evs st) ∧
                        construction brandConfigJson evs r ∧
                        ∀ i, r = Some i → constructed brandConfigJson evs i).
Proof.
  intros Hinst.
  pose proof (ensure_bridge_initialized_spec brandConfigJson st Hinst) as Hshape.
  pose proof (ensure_bridge_initialized_checked brandConfigJson st Hinst) as Hdone.
  unfold wp in *. destruct Hshape as (evs & r & Heq & Hcons).
  exists evs, r. split_and!; try done. intros i ->.
  rewrite Heq in Hdone. destruct (Hdone i) as (evs' & Hh & Hcd).
  { by destruct st. }
  destruct st as [f inst hw pw ts hp cl h]. cbn in Hh.
  apply app_inv_head in Hh. by subst.
Qed.


Ltac state_norm :=
  unfold log, with_events, set_heap, set_cells, set_novinBridgeInstance,
    set_pythonInitialized, set_pythonHomeW, set_pythonPathW, set_mainThreadState;
  cbn.

Ltac solve_In := cbn; repeat first [left; reflexivity | right].

(** Close [error_report] once the states are explicit. *)
Ltac solve_error_report :=
  unfold error_report, owned_copy; state_norm;
  first [ done
        | eexists; split; [reflexivity|]; split; [reflexivity|]; cbn; done ].

Ltac solve_call_outcome :=
  unfold call_outcome, locked_failures;
  first
    [ split; [reflexivity|]; split; [state_norm; reflexivity|];
      eexists _, _; split; [solve_In|]; split; [solve_In|];
      unfold owned_copy; state_norm; done
    | exists BridgeInitFailed; split; [solve_In|]; solve_error_report
    | exists MethodMissing; split; [solve_In|]; solve_error_report
    | exists ProcessingFailed; split; [solve_In|]; solve_error_report
    | exists EncodingFailed; split; [solve_In|]; solve_error_report
    | exists OutOfMemory; split; [solve_In|]; solve_error_report ].

Ltac split_at_release l :=
  lazymatch l with
  | EvPyGILState_Release _ :: ?post => constr:((@nil event, post))
  | ?e :: ?l' =>
      let r := split_at_release l' in
      lazymatch r with
      | (?a, ?b) => constr:((e :: a, b))
      end
  end.

Lemma forward_request_spec gilState instance requestJson clientId errorOut st :
  wp (forward_request env gilState instance requestJson clientId errorOut) st
     (λ ret st',
        same_globals st st' ∧
        ∃ evs, hist st' = hist st ++ evs ∧
        ∃ mid post, evs = mid ++ EvPyGILState_Release gilState :: post ∧
                    no_gil_event mid = true ∧
                    is_construction_free mid = true ∧
                    call_outcome errorOut st st' ret mid post).
Proof.
  destruct st as [f inst hw pw ts hp cl h].
  unfold forward_request. wp_run.
  all: (split; [done|]).
  all: exists_events; (split; [hist_norm; reflexivity|]).
  all: match goal with
       | |- ∃ mid post, ?l = _ ∧ _ =>
           let r := split_at_release l in
           lazymatch r with (?a, ?b) => exists a, b end
       end.
  all: (split; [reflexivity|]); (split; [reflexivity|]); (split; [reflexivity|]).
  all: solve_call_outcome.
Qed.

Lemma call_outcome_transfer errorOut st1 st st' ret mid mid' post :
  call_outcome errorOut st1 st' ret mid post →
  heap st1 = heap st → cells st1 = cells st →
  (∀ e, In e mid → In e mid') →
  call_outcome errorOut st st' ret mid' post.
Proof.
  unfold call_outcome, error_report, owned_copy.
  intros H Hh Hc Hin. rewrite <- Hh, <- Hc.
  destruct ret; [|done].
  destruct H as (? & ? & o & s & ? & ? & ?).
  split; [done|]. split; [done|]. exists o, s. auto.
Qed.

Lemma no_gil_event_app l1 l2 :
  no_gil_event (l1 ++ l2) = no_gil_event l1 && no_gil_event l2.
Proof. apply forallb_app. Qed.

Lemma arguments_quiet brandConfigJson evs args :
  arguments brandConfigJson evs args → no_gil_event evs = true.
Proof. by destruct 1. Qed.

Lemma construction_quiet brandConfigJson evs r :
  construction brandConfigJson evs r → no_gil_event evs = true.
Proof.
  destruct 1 as [ | | | ? ? ? ? Ha | ? ? ? ? ? Ha ]; try done.
  all: cbn; rewrite no_gil_event_app, (arguments_quiet _ _ _ Ha); done.
Qed.

(** What a call does when the runtime is initialised. *)
Lemma process_request_locked requestJson clientId brandConfigJson errorOut st :
  s_pythonInitialized st = true →
  wp (novin_python_process_request env requestJson clientId brandConfigJson errorOut) st
     (λ ret st',
        s_pythonInitialized st' = true ∧
        ∃ evs, hist st' = hist st ++ evs ∧
        ∃ g mid post,
          evs = EvPyGILState_Ensure g :: mid ++ EvPyGILState_Release g :: post ∧
          no_gil_event mid = true ∧
          call_outcome errorOut st st' ret mid post ∧
          match s_novinBridgeInstance st with
          | Some i =>
              s_novinBridgeInstance st' = Some i ∧ is_construction_free mid = true
          | None =>
              ∃ cevs rest,
                mid = cevs ++ rest ∧
                construction brandConfigJson cevs (s_novinBridgeInstance st') ∧
                is_construction_free rest = true ∧
                (s_novinBridgeInstance st' = None →
                 ret = None ∧ rest = [] ∧
                 error_report errorOut (error_message BridgeInitFailed) st st' post) ∧
                (∀ i, s_novinBridgeInstance st' = Some i →
                      constructed brandConfigJson cevs i)
          end).
Proof.
  destruct st as [f inst hw pw ts hp cl h]. intros Hf. cbn in Hf. subst f.
  unfold novin_python_process_request. wp_run.
  - (* the instance exists *)
    eapply wp_mono; [apply forward_request_spec|].
    intros ret st' ((Hi & Hinst & _) & evs & Hh & mid & post & -> & Hq & Hc & Ho).
    split; [done|].
    exists (EvPyGILState_Ensure r :: mid ++ EvPyGILState_Release r :: post).
    split; [rewrite Hh; hist_norm; reflexivity|].
    exists r, mid, post. split_and!; try done.
  - (* it has to be constructed *)
    eapply wp_mono; [by apply ensure_bridge_initialized_full|].
    intros [] st1 (cevs & inst' & -> & Hcons & Hdone). wp_run.
    1: { subst inst'. eapply wp_mono; [apply forward_request_spec|].
      intros ret st' ((Hi & Hinst & _) & evs & Hh & mid & post & -> & Hq & Hc & Ho).
      split; [done|].
      exists (EvPyGILState_Ensure r :: (cevs ++ mid) ++ EvPyGILState_Release r :: post).
      split; [rewrite Hh; hist_norm; reflexivity|].
      exists r, (cevs ++ mid), post. split_and!; try done.
      * rewrite no_gil_event_app, Hq, (construction_quiet _ _ _ Hcons). done.
      * eapply call_outcome_transfer; eauto. intros e ?. apply in_or_app. by right.
      * exists cevs, mid. rewrite Hinst. cbn. subst. split_and!; try done.
        all: intros i [= <-]; by apply Hdone. }
    all: split; [reflexivity|]; exists_events; (split; [hist_norm; reflexivity|]).
    all: exists r, cevs; eexists; split; [reflexivity|].
    all: split; [by eapply construction_quiet|].
    all: split; [solve_call_outcome|].
    all: exists cevs, []; rewrite app_nil_r; split_and!; try done.
    all: try (intros _; split_and!; try done; solve_error_report).
Qed.

(** What a call does when the runtime is not initialised. *)
Lemma process_request_unlocked requestJson clientId brandConfigJson errorOut st :
  s_pythonInitialized st = false →
  wp (novin_python_process_request env requestJson clientId brandConfigJson errorOut) st
     (λ ret st',
        ret = None ∧ same_globals st st' ∧
        ∃ post, hist st' = hist st ++ post ∧
                error_report errorOut (error_message NotInitialized) st st' post).
Proof.
  destruct st as [f inst hw pw ts hp cl h]. intros Hf. cbn in Hf. subst f.
  unfold novin_python_process_request. wp_run.
  all: split; [done|]; split; [done|].
  all: exists_events; (split; [hist_norm; reflexivity|]); solve_error_report.
Qed.

Lemma PyGILState_eqb_refl g : PyGILState_eqb g g = true.
Proof. by destruct g. Qed.

Lemma gil_scan_held g mid rest :
  no_gil_event mid = true →
  gil_scan (GilHeld g) (mid ++ rest) = gil_scan (GilHeld g) rest.
Proof.
  induction mid as [|e mid IH]; [done|].
  cbn. intros [He Hmid]%andb_prop. rewrite <- (IH Hmid).
  by destruct e.
Qed.

Lemma gil_scan_released post :
  forallb is_libc_event post = true → gil_scan GilReleased post = Some GilReleased.
Proof.
  induction post as [|e post IH]; [done|].
  cbn. intros [He Hpost]%andb_prop. rewrite He. auto.
Qed.

Lemma gil_protocol g mid post :
  no_gil_event mid = true → forallb is_libc_event post = true →
  gil_released_before_return
    (EvPyGILState_Ensure g :: mid ++ EvPyGILState_Release g :: post) = true.
Proof.
  intros Hmid Hpost. unfold gil_released_before_return. cbn.
  rewrite gil_scan_held by done. cbn.
  by rewrite PyGILState_eqb_refl, gil_scan_released.
Qed.

Lemma error_report_post errorOut msg st st' post :
  error_report errorOut msg st st' post →
  post = [] ∨ ∃ r, post = [EvStrdup msg r].
Proof.
  unfold error_report. destruct errorOut.
  - intros (r & -> & _). eauto.
  - intros (-> & _). by left.
Qed.

Lemma call_outcome_post errorOut st st' ret mid post :
  call_outcome errorOut st st' ret mid post →
  match ret with
  | Some _ => post = []
  | None => post = [] ∨
            ∃ x r, In x locked_failures ∧ post = [EvStrdup (error_message x) r]
  end.
Proof.
  unfold call_outcome. destruct ret.
  - by intros (-> & _).
  - intros (x & Hx & [->|[r ->]]%error_report_post); eauto.
Qed.

(** C1. Whenever the runtime is initialised, a call takes the interpreter
    lock first, gives it back exactly once with the handle it obtained, and
    touches nothing of the interpreter afterwards: what follows the release
    is at most the duplication of one of the five error messages of the
    failure exits (bridge construction failed, method missing, processing
    failed, encoding failed, out of memory); on success nothing follows. *)
Theorem gil_released_on_every_exit
    requestJson clientId brandConfigJson errorOut st :
  s_pythonInitialized st = true →
  let r := novin_python_process_request env requestJson clientId brandConfigJson
             errorOut st in
  ∃ g mid post,
    emitted st r.2 = EvPyGILState_Ensure g :: mid ++ EvPyGILState_Release g :: post ∧
    no_gil_event mid = true ∧
    forallb is_libc_event post = true ∧
    gil_released_before_return (emitted st r.2) = true ∧
    match r.1 with
    | Some _ => post = []
    | None => post = [] ∨
              ∃ x a, In x locked_failures ∧ post = [EvStrdup (error_message x) a]
    end.
Proof.
  intros Hinit r.
  destruct (process_request_locked requestJson clientId brandConfigJson errorOut st Hinit)
    as (_ & evs & Hh & g & mid & post & -> & Hmid & Hout & _).
  fold r in Hh, Hout.
  apply emitted_app in Hh. apply call_outcome_post in Hout.
  assert (Hpost : forallb is_libc_event post = true).
  { destruct r.1; [by subst|]. destruct Hout as [->|(x & a & _ & ->)]; done. }
  exists g, mid, post. rewrite Hh. split_and!; try done.
  by apply gil_protocol.
Qed.


Lemma finalize_spec st :
  wp (novin_python_finalize env) st
     (λ _ st',
        s_pythonInitialized st' = false ∧
        (s_pythonInitialized st = true → s_novinBridgeInstance st' = None) ∧
        (s_pythonInitialized st = false → st' = st)).
Proof.
  destruct st as [f inst hw pw ts hp cl h].
  unfold novin_python_finalize. wp_run.
  all: done.
Qed.

(** C2 (as the code has it). While the initialised flag is false a call
    returns NULL, changes none of the bridge's variables and makes no call
    into the interpreter: if an error slot was supplied the only external
    call is one [strdup] of the not-initialised message, whose result is
    stored in the slot (the message when that allocation succeeds, NULL when
    it does not).  The flag is false in a fresh process and after every
    finalize. *)
Theorem not_initialized_call_fails
    requestJson clientId brandConfigJson errorOut st hp cl st0 :
  s_pythonInitialized st = false →
  let r := novin_python_process_request env requestJson clientId brandConfigJson
             errorOut st in
  r.1 = None ∧
  same_globals st r.2 ∧
  forallb is_libc_event (emitted st r.2) = true ∧
  error_report errorOut (error_message NotInitialized) st r.2 (emitted st r.2) ∧
  match errorOut with
  | Some l =>
      if env_malloc env (hist st) (strlen (error_message NotInitialized) + 1)
      then slot_holds_message r.2 l (error_message NotInitialized)
      else cells r.2 !! l = Some None
  | None => r.2 = st
  end ∧
  s_pythonInitialized (process_start hp cl) = false ∧
  s_pythonInitialized (novin_python_finalize env st0).2 = false.
Proof.
  intros Hinit r.
  destruct (process_request_unlocked requestJson clientId brandConfigJson errorOut st Hinit)
    as (Hret & Hsame & post & Hh & Hrep).
  fold r in Hret, Hsame, Hh, Hrep. apply emitted_app in Hh. rewrite Hh.
  split_and!; try done.
  - destruct (error_report_post _ _ _ _ _ Hrep) as [->|[a ->]]; done.
  - subst r. unfold novin_python_process_request, set_error, strdup,
      mbind, M_bind, mret, M_ret, get, modify.
    destruct st as [f inst hw pw ts hp' cl' h]. cbn in Hinit. subst f.
    destruct errorOut as [l|]; [|done]. cbn -[fresh].
    destruct (env_malloc env h 31); cbn -[fresh].
    + eexists. split; [apply lookup_insert_eq|apply lookup_insert_eq].
    + apply lookup_insert_eq.
  - apply (finalize_spec st0).
Qed.

(** *** The report of a failing call *)

Lemma wp_set_error_tied l msg st Q :
  (∀ a st', hist st' = hist st ++ [EvStrdup msg a] →
            (a = None ↔
             env_malloc env (hist st) (strlen (c_string msg) + 1) = false) →
            Q tt st') →
  wp (set_error env (Some l) msg) st Q.
Proof.
  intros HQ. unfold wp, set_error, strdup, mbind, M_bind, modify.
  destruct st as [f inst hw pw ts hp cl h]. cbn -[fresh c_string strlen].
  destruct (env_malloc env h (strlen (c_string msg) + 1)) eqn:Hm;
    cbn -[fresh c_string strlen].
  - apply (HQ (Some (fresh (dom hp)))); [done|]. cbn -[c_string strlen].
    by rewrite Hm.
  - apply (HQ None); [done|]. cbn -[c_string strlen]. by rewrite Hm.
Qed.

Ltac wp_step_tied :=
  lazymatch goal with
  | |- wp (set_error _ (Some _) _) _ _ => apply wp_set_error_tied; intros ? ? ? ?; cbv beta
  | _ => wp_step
  end.

Ltac wp_run_tied :=
  unfold PyConfig_InitIsolatedConfig, Py_DecodeLocale, PyConfig_SetString_home,
    PyWideStringList_Append, PyMem_RawFree, PyConfig_Clear,
    Py_InitializeFromConfig, Py_IsInitialized, PyEval_SaveThread,
    PyEval_RestoreThread, Py_Finalize, PyGILState_Ensure, PyGILState_Release,
    PyUnicode_AsUTF8, PyImport_Import, PyImport_ImportModule,
    PyObject_GetAttrString, PyTuple_SetItem, PyObject_CallObject, Py_DECREF,
    Py_XDECREF, PyErr_Print;
  repeat wp_step_tied.

(** Name the exit, the events before the [strdup] of its message and the
    answer of that [strdup]. *)
Ltac close_tied Hh Ht :=
  split;
  [ rewrite Hh; cbn; repeat rewrite <- app_assoc; reflexivity
  | cbn; repeat rewrite <- app_assoc; rewrite ?app_nil_r; exact Ht ].

Ltac solve_tied :=
  intros _;
  lazymatch goal with
  | Hh : hist _ = hist ?s ++ [EvStrdup _ ?a], Ht : _ ↔ _ |- _ =>
      let pre := events_of s constr:(@nil event) in
      unfold log, with_events, set_heap, set_cells, set_novinBridgeInstance in Hh, Ht;
      cbn in Hh, Ht; repeat rewrite <- app_assoc in Hh;
      repeat rewrite <- app_assoc in Ht; cbn in Hh, Ht;
      first [ exists NotInitialized, pre, a; close_tied Hh Ht
            | exists BridgeInitFailed, pre, a; close_tied Hh Ht
            | exists MethodMissing, pre, a; close_tied Hh Ht
            | exists ProcessingFailed, pre, a; close_tied Hh Ht
            | exists EncodingFailed, pre, a; close_tied Hh Ht
            | exists OutOfMemory, pre, a; close_tied Hh Ht ]
  end.

Lemma forward_request_tied gilState instance requestJson clientId l st :
  wp (forward_request env gilState instance requestJson clientId (Some l)) st
     (λ ret st',
        ret = None →
        ∃ x pre a,
          hist st' = hist st ++ pre ++ [EvStrdup (error_message x) a] ∧
          (a = None ↔
           env_malloc env (hist st ++ pre) (strlen (error_message x) + 1) = false)).
Proof.
  destruct st as [f inst hw pw ts hp cl h].
  unfold forward_request. wp_run_tied.
  all: first [ solve_tied | intros [=] ].
Qed.

Lemma process_request_tied requestJson clientId brandConfigJson l st :
  wp (novin_python_process_request env requestJson clientId brandConfigJson (Some l)) st
     (λ ret st',
        ret = None →
        ∃ x pre a,
          hist st' = hist st ++ pre ++ [EvStrdup (error_message x) a] ∧
          (a = None ↔
           env_malloc env (hist st ++ pre) (strlen (error_message x) + 1) = false)).
Proof.
  destruct st as [f inst hw pw ts hp cl h].
  unfold novin_python_process_request. wp_run_tied.
  - eapply wp_mono; [apply forward_request_tied|].
    intros ret st' Hfwd Hret. destruct (Hfwd Hret) as (x & pre & a & Hh & Ht).
    exists x, (EvPyGILState_Ensure r :: pre), a.
    unfold log in Hh, Ht. cbn [hist] in Hh, Ht.
    rewrite <- app_assoc in Hh. rewrite <- app_assoc in Ht. by split.
  - eapply wp_mono; [by apply ensure_bridge_initialized_spec|].
    intros [] st1 (cevs & inst' & -> & Hcons). wp_run_tied.
    + eapply wp_mono; [apply forward_request_tied|].
      intros ret st' Hfwd Hret. destruct (Hfwd Hret) as (x & pre & a & Hh & Ht).
      exists x, (EvPyGILState_Ensure r :: cevs ++ pre), a.
      unfold log, with_events, set_novinBridgeInstance in Hh, Ht.
      cbn [hist] in Hh, Ht.
      repeat rewrite <- app_assoc in Hh. repeat rewrite <- app_assoc in Ht.
      cbn [hist]. split; [|exact Ht].
      rewrite Hh. f_equal. simpl. by rewrite <- app_assoc.
    + solve_tied.
  - solve_tied.
Qed.

(** C5 (as the code has it). With an error slot supplied: a non-NULL result
    is a buffer the call allocated and handed over, and the slot is left
    alone; a NULL result comes with exactly one store into the slot, of what
    the [strdup] the call ends with returned for one of the six fixed,
    non-empty messages: an owned copy of the message when the allocation
    succeeded, and NULL exactly when the allocator refused it.  The buffer
    returned on success holds the UTF-8 text the interpreter gave for the
    collaborator's result, as C reads it. *)
Theorem process_request_reports requestJson clientId brandConfigJson l st :
  let r := novin_python_process_request env requestJson clientId brandConfigJson
             (Some l) st in
  match r.1 with
  | Some p =>
      cells r.2 = cells st ∧
      ∃ o s, In (EvPyUnicode_AsUTF8 o (Some s)) (emitted st r.2) ∧
             In (EvStrdup s (Some p)) (emitted st r.2) ∧
             owned_copy st r.2 p (c_string s)
  | None =>
      ∃ x a pre, x ≠ Success ∧ error_message x ≠ EmptyString ∧
             emitted st r.2 = pre ++ [EvStrdup (error_message x) a] ∧
             (a = None ↔
              env_malloc env (hist st ++ pre) (strlen (error_message x) + 1)
                = false) ∧
             cells r.2 = <[l:=a]> (cells st) ∧
             match a with
             | Some q => owned_copy st r.2 q (error_message x) ∧
                         slot_holds_message r.2 l (error_message x)
             | None => heap r.2 = heap st
             end
  end.
Proof.
  intros r.
  pose proof (process_request_tied requestJson clientId brandConfigJson l st) as Htied.
  unfold wp in Htied. fold r in Htied.
  assert (Hrep : ∀ x post pre0, x ≠ Success → error_message x ≠ EmptyString →
            r.1 = None →
            hist r.2 = hist st ++ pre0 ++ post →
            error_report (Some l) (error_message x) st r.2 post →
            ∃ x a pre, x ≠ Success ∧ error_message x ≠ EmptyString ∧
              emitted st r.2 = pre ++ [EvStrdup (error_message x) a] ∧
              (a = None ↔
               env_malloc env (hist st ++ pre) (strlen (error_message x) + 1)
                 = false) ∧
              cells r.2 = <[l:=a]> (cells st) ∧
              match a with
              | Some q => owned_copy st r.2 q (error_message x) ∧
                          slot_holds_message r.2 l (error_message x)
              | None => heap r.2 = heap st
              end).
  { intros x post pre0 Hx Hmsg Hret Hh (a & -> & Hc & Ha).
    destruct (Htied Hret) as (x' & pre & a' & Hh' & Ht).
    rewrite Hh in Hh'. apply app_inv_head in Hh'.
    apply app_inj_tail in Hh' as [<- Hev]. injection Hev as Hm <-.
    rewrite <- Hm in Ht.
    exists x, a, pre0. split_and!; try done.
    - apply emitted_app. by rewrite Hh.
    - destruct a as [q|]; [|done]. split; [done|].
      exists q. rewrite Hc. destruct Ha as [_ ->].
      split; apply lookup_insert_eq. }
  destruct (s_pythonInitialized st) eqn:Hinit.
  - destruct (process_request_locked requestJson clientId brandConfigJson (Some l) st Hinit)
      as (_ & evs & Hh & g & mid & post & -> & _ & Hout & _).
    fold r in Hh, Hout, Hrep.
    unfold call_outcome in Hout. destruct r.1 eqn:Hret.
    + destruct Hout as (_ & ? & o & s & Hin & Hstr & ?). split; [done|].
      rewrite (emitted_app _ _ _ Hh).
      exists o, s. split_and!; try done.
      * right. apply in_or_app. by left.
      * right. apply in_or_app. by left.
    + destruct Hout as (x & Hx & Hr).
      apply (Hrep x post (EvPyGILState_Ensure g :: mid ++ [EvPyGILState_Release g]));
        [| |done| |done].
      1,2: cbn in Hx; destruct Hx as [<-|[<-|[<-|[<-|[<-|[]]]]]]; done.
      rewrite Hh. cbn. by rewrite <- app_assoc.
  - destruct (process_request_unlocked requestJson clientId brandConfigJson (Some l) st Hinit)
      as (Hret & _ & post & Hh & Hr).
    fold r in Hret, Hr, Hh, Hrep. rewrite Hret.
    apply (Hrep NotInitialized post []); try done.
Qed.


(** *** Construction happens once *)

Lemma count_events_app p l1 l2 :
  count_events p (l1 ++ l2) = count_events p l1 + count_events p l2.
Proof. unfold count_events. by rewrite List.filter_app, length_app. Qed.

Lemma count_events_free p evs :
  (∀ e, p e = true → is_construction_event e = true) →
  is_construction_free evs = true → count_events p evs = 0.
Proof.
  intros Hp. induction evs as [|e evs IH]; [done|].
  cbn. intros [He Hevs]%andb_prop. unfold count_events in *. cbn.
  destruct (p e) eqn:Hpe; [|auto].
  apply Hp in Hpe. by rewrite Hpe in He.
Qed.

Lemma is_module_import_construction e :
  is_module_import e = true → is_construction_event e = true.
Proof. by destruct e. Qed.

Lemma is_class_lookup_construction e :
  is_class_lookup e = true → is_construction_event e = true.
Proof. destruct e; try done. cbn. by intros ->. Qed.

Lemma libc_construction_free evs :
  forallb is_libc_event evs = true → is_construction_free evs = true.
Proof.
  induction evs as [|e evs IH]; [done|].
  cbn. intros [He Hevs]%andb_prop. apply andb_true_intro.
  split; [by destruct e|by apply IH].
Qed.

Lemma is_construction_free_app l1 l2 :
  is_construction_free (l1 ++ l2) = is_construction_free l1 && is_construction_free l2.
Proof. apply forallb_app. Qed.

Lemma arguments_counts brandConfigJson pre args :
  arguments brandConfigJson pre args →
  count_events is_module_import pre = 0 ∧ count_events is_class_lookup pre = 0.
Proof. by destruct 1. Qed.

Lemma construction_counts brandConfigJson cevs i :
  construction brandConfigJson cevs (Some i) →
  count_events is_module_import cevs = 1 ∧ count_events is_class_lookup cevs = 1.
Proof.
  inversion 1 as [ | | | | m c pre args i' Ha]; subst.
  destruct (arguments_counts _ _ _ Ha) as [H1 H2].
  change (?a :: ?b :: ?c :: ?d :: ?e :: pre ++ ?l) with ([a; b; c; d; e] ++ pre ++ l).
  by rewrite !count_events_app, H1, H2.
Qed.

(** A call that finds no instance: the shape of its events. *)
Lemma process_request_constructs requestJson clientId brandConfigJson errorOut st :
  s_pythonInitialized st = true →
  s_novinBridgeInstance st = None →
  let r := novin_python_process_request env requestJson clientId brandConfigJson
             errorOut st in
  s_pythonInitialized r.2 = true ∧
  ∃ g cevs rest post,
    emitted st r.2 =
      EvPyGILState_Ensure g :: (cevs ++ rest) ++ EvPyGILState_Release g :: post ∧
    construction brandConfigJson cevs (s_novinBridgeInstance r.2) ∧
    is_construction_free rest = true ∧
    forallb is_libc_event post = true ∧
    (s_novinBridgeInstance r.2 = None →
     r.1 = None ∧ rest = [] ∧
     error_report errorOut (error_message BridgeInitFailed) st r.2 post) ∧
    (∀ i, s_novinBridgeInstance r.2 = Some i → constructed brandConfigJson cevs i).
Proof.
  intros Hinit Hinst r.
  destruct (process_request_locked requestJson clientId brandConfigJson errorOut st Hinit)
    as (Hf & evs & Hh & g & mid & post & -> & _ & Hout & Hc).
  fold r in Hf, Hh, Hout, Hc. rewrite Hinst in Hc.
  destruct Hc as (cevs & rest & -> & Hcons & Hfree & Hfail & Hdone).
  apply emitted_app in Hh. apply call_outcome_post in Hout.
  split; [done|]. exists g, cevs, rest, post. split_and!; try done.
  destruct r.1; [by subst|]. destruct Hout as [->|(x & a & _ & ->)]; done.
Qed.

Lemma run_requests_cons rq c b e calls st :
  run_requests env ((rq, c, b, e) :: calls) st =
  run_requests env calls (novin_python_process_request env rq c b e st).2.
Proof. done. Qed.

(** Later calls, whatever they carry, keep the instance. *)
Lemma run_requests_sticky calls st i :
  s_pythonInitialized st = true →
  s_novinBridgeInstance st = Some i →
  s_pythonInitialized (run_requests env calls st) = true ∧
  s_novinBridgeInstance (run_requests env calls st) = Some i ∧
  ∃ evs, hist (run_requests env calls st) = hist st ++ evs ∧
         is_construction_free evs = true.
Proof.
  revert st. induction calls as [|[[[rq c] b] e] calls IH]; intros st Hinit Hinst.
  { split_and!; try done. exists []. by rewrite app_nil_r. }
  rewrite run_requests_cons.
  destruct (process_request_locked rq c b e st Hinit)
    as (Hf & evs & Hh & g & mid & post & -> & _ & Hout & Hc).
  rewrite Hinst in Hc. destruct Hc as [Hi Hfree].
  destruct (IH _ Hf Hi) as (Hf' & Hi' & evs' & Hh' & Hfree').
  split_and!; try done.
  eexists. rewrite Hh', Hh, <- app_assoc. split; [done|].
  rewrite is_construction_free_app, Hfree'.
  change (?a :: mid ++ ?l) with ([a] ++ mid ++ l).
  rewrite !is_construction_free_app, Hfree. cbn.
  apply call_outcome_post in Hout. rewrite libc_construction_free; [done|].
  destruct (_.1); [by subst|]. destruct Hout as [->|(x & a & _ & ->)]; done.
Qed.

Lemma process_request_ignores_config requestJson clientId cfg1 cfg2 errorOut st :
  s_novinBridgeInstance st ≠ None →
  novin_python_process_request env requestJson clientId cfg1 errorOut st =
  novin_python_process_request env requestJson clientId cfg2 errorOut st.
Proof.
  destruct st as [f [i|] hw pw ts hp cl h]; [intros _|done].
  unfold novin_python_process_request, mbind, M_bind, get. cbn.
  by destruct f.
Qed.

(** *** Initialisation *)

Lemma append_search_paths_spec mutablePath tokens c st :
  wp (append_search_paths env mutablePath tokens c) st
     (λ r st', ∃ evs hp', st' = set_heap hp' (with_events evs st) ∧
                          path_loop mutablePath tokens c evs r).
Proof.
  revert c st. induction tokens as [|token tokens IH]; intros c st;
    destruct st as [f inst hw pw ts hp cl h]; cbn [append_search_paths]; wp_run.
  all: try lazymatch goal with
           | |- wp (append_search_paths _ _ _ _) _ _ =>
               eapply wp_mono; [apply IH|];
               intros r' st' (evs & hp' & -> & Hloop)
           end.
  all: exists_events; eexists; (split; [hist_norm; reflexivity|]).
  all: econstructor; eassumption.
Qed.

Lemma configure_home_spec pythonHome c st :
  wp (configure_home env pythonHome c) st
     (λ r st', ∃ evs w, st' = set_pythonHomeW w (with_events evs st) ∧
                        home_stage pythonHome c evs r).
Proof.
  destruct st as [f inst hw pw ts hp cl h]. unfold configure_home. wp_run.
  all: exists_events; eexists; (split; [hist_norm; reflexivity|]).
  all: econstructor; eassumption.
Qed.

Lemma configure_paths_spec pythonPath c st :
  wp (configure_paths env pythonPath c) st
     (λ r st', ∃ evs hp', st' = set_heap hp' (with_events evs st) ∧
                          path_stage pythonPath c evs r).
Proof.
  destruct st as [f inst hw pw ts hp cl h]. unfold configure_paths. wp_run.
  all: try lazymatch goal with
           | |- wp (append_search_paths _ _ _ _) _ _ =>
               eapply wp_mono; [apply append_search_paths_spec|];
               intros r' st' (evs & hp' & -> & Hloop); wp_run
           end.
  all: exists_events; eexists; (split; [hist_norm; reflexivity|]).
  all: try (econstructor; eassumption).
  all: subst; econstructor; eassumption.
Qed.

(** A run of [novin_python_initialize] from the uninitialised state. *)
Lemma initialize_spec pythonHome pythonPath st :
  s_pythonInitialized st = false →
  wp (novin_python_initialize env pythonHome pythonPath) st
     (λ b st',
        s_pythonInitialized st' = b ∧
        s_novinBridgeInstance st' = s_novinBridgeInstance st ∧
        cells st' = cells st ∧
        ∃ evs, hist st' = hist st ++ evs ∧
               initialize_run pythonHome pythonPath evs b).
Proof.
  destruct st as [f inst hw pw ts hp cl h]. intros Hf. cbn in Hf. subst f.
  unfold novin_python_initialize. wp_run.
  eapply wp_mono; [apply configure_home_spec|].
  intros c1 st1 (hevs & w & -> & Hhome). wp_run.
  2: { split_and!; try done. exists_events. split; [hist_norm; reflexivity|].
       by constructor. }
  eapply wp_mono; [apply configure_paths_spec|].
  intros c2 st2 (pevs & hp' & -> & Hpath). wp_run.
  all: split_and!; try done.
  all: exists_events; (split; [hist_norm; reflexivity|]).
  all: subst; try (eapply run_path_failed; [exact Hhome|exact Hpath]).
  all: eapply run_started; [exact Hhome|exact Hpath|].
  all: repeat match goal with b : bool |- _ => destruct b end; try done.
  all: by econstructor.
Qed.


Lemma path_loop_facts mutablePath tokens c evs r :
  path_loop mutablePath tokens c evs r →
  existsb is_fatal_event evs = negb (bool_decide (is_Some r)) ∧
  startup_configs evs = [] ∧
  match r with
  | Some c' =>
      decode_attempts evs = tokens ∧ home c' = home c ∧
      module_search_paths c' = module_search_paths c ++ decoded evs
  | None => True
  end.
Proof.
  unfold startup_configs, decode_attempts, decoded.
  induction 1 as [c|token tokens c evs r _ IH|token tokens w status c evs r Hs _ IH
                 |token tokens w status c Hs].
  - split_and!; try done. by rewrite app_nil_r.
  - destruct IH as (IH1 & IH2 & IH3). split_and!; try done.
    destruct r; [|done]. destruct IH3 as (Ha & ? & ?). cbn. by rewrite Ha.
  - destruct IH as (IH1 & IH2 & IH3). cbn. rewrite Hs. split_and!; try done.
    destruct r as [c'|]; [|done]. destruct IH3 as (Ha & Hh & Hm).
    rewrite Ha, Hh, Hm. cbn. by rewrite <- app_assoc.
  - cbn. by rewrite Hs.
Qed.

Lemma existsb_cons_app {A} (p : A → bool) x l1 l2 :
  existsb p (x :: l1 ++ l2) = p x || existsb p l1 || existsb p l2.
Proof. cbn. by rewrite existsb_app, orb_assoc. Qed.

Lemma initialize_run_failure pythonHome pythonPath evs b :
  initialize_run pythonHome pythonPath evs b →
  initialize_failure evs = negb b.
Proof.
  unfold initialize_failure.
  destruct 1 as [hevs Hh|hevs c1 pevs Hh Hp|hevs c1 pevs c2 sevs b Hh Hp Hs].
  - inversion Hh as [|h ?|h w status ? Hst|]; subst; cbn; [done|].
    by rewrite Hst.
  - apply orb_true_intro. right. rewrite existsb_cons_app.
    apply orb_true_intro. right.
    inversion Hp as [|p ?|p mp evs ? Hl|]; subst; [done|].
    cbn. by destruct (path_loop_facts _ _ _ _ _ Hl) as (-> & _).
  - assert (Hstart : existsb is_fatal_event sevs = negb b ∧
                     ∃ c s l, sevs = EvPy_InitializeFromConfig c s :: l).
    { destruct Hs as [status Hst|status Hst|status t Hst]; cbn; rewrite Hst; eauto. }
    destruct Hstart as (Hstart & c & s & l & ->).
    assert (Hpath : existsb is_fatal_event pevs = false ∧
                    (pevs = [] ∨ ∃ p mp l', pevs = EvStrdup p (Some mp) :: l')).
    { inversion Hp as [|?|?|p mp evs c' ? Hl]; subst; [by eauto|].
      destruct (path_loop_facts _ _ _ _ _ Hl) as (Hex & _).
      cbn. rewrite existsb_app, Hex. cbn. eauto 10. }
    destruct Hpath as (Hpath & Hpevs).
    rewrite existsb_cons_app, existsb_app, Hpath, Hstart.
    inversion Hh as [?| | |h w status ? Hst]; subst.
    + destruct Hpevs as [->|(p & mp & l' & ->)]; by destruct b.
    + cbn. rewrite Hst. by destruct b.
Qed.

Lemma initialize_run_startup pythonHome pythonPath evs b :
  initialize_run pythonHome pythonPath evs b →
  (startup_configs evs = [] ∧ b = false) ∨
  ∃ c, startup_configs evs = [c] ∧
       decode_attempts evs = option_list (nonempty pythonHome) ++ path_entries pythonPath ∧
       configured c = decoded evs.
Proof.
  unfold startup_configs, decode_attempts, decoded, configured, path_entries.
  destruct 1 as [hevs Hh|hevs c1 pevs Hh Hp|hevs c1 pevs c2 sevs b Hh Hp Hs].
  - left. by inversion Hh.
  - left. cbn. rewrite omap_app.
    assert (omap (λ e, match e with
                       | EvPy_InitializeFromConfig c _ => Some c
                       | _ => None
                       end) pevs = []) as ->.
    { inversion Hp as [|?|p mp evs ? Hl|]; subst; [done|].
      by destruct (path_loop_facts _ _ _ _ _ Hl) as (_ & ? & _). }
    by inversion Hh.
  - right. exists c2. cbn. rewrite !omap_app.
    assert (Hhome :
      startup_configs hevs = [] ∧
      decode_attempts hevs = option_list (nonempty pythonHome) ∧
      option_list (home c1) = decoded hevs ∧ module_search_paths c1 = []).
    { inversion Hh as [Hn| | |h w status Hn Hst]; subst; rewrite Hn; done. }
    assert (Hpath :
      startup_configs pevs = [] ∧
      decode_attempts pevs = path_entries pythonPath ∧
      home c2 = home c1 ∧
      module_search_paths c2 = module_search_paths c1 ++ decoded pevs).
    { unfold path_entries.
      inversion Hp as [Hn|?|?|p mp evs c' Hn Hl]; subst; rewrite Hn.
      - split_and!; try done. by rewrite app_nil_r.
      - destruct (path_loop_facts _ _ _ _ _ Hl) as (_ & Hc & Ha & Hm & Hs').
        unfold startup_configs, decode_attempts, decoded in *.
        cbn. rewrite !omap_app, Hc, Ha, Hm, Hs'. cbn.
        by rewrite !app_nil_r. }
    assert (Hstart :
      startup_configs sevs = [c2] ∧ decode_attempts sevs = [] ∧ decoded sevs = []).
    { by destruct Hs. }
    unfold startup_configs, decode_attempts, decoded, path_entries in *.
    destruct Hhome as (-> & -> & Hh1 & Hh2), Hpath as (-> & -> & Hp1 & Hp2),
      Hstart as (-> & -> & ->).
    rewrite Hp1, Hp2, Hh2, Hh1. by rewrite !app_nil_r.
Qed.

(** C7 (as the code has it). From the uninitialised state, initialize
    returns false exactly when one of five things happened: decoding the
    home path failed, storing it in the configuration failed, duplicating
    the path argument failed, appending an entry failed, or the interpreter
    did not start; the initialised flag ends up equal to the result.  When
    the interpreter is started at all, every entry of the path argument was
    handed to the decoder (failures of earlier entries notwithstanding) and
    the configuration holds exactly the strings that decoded. *)
Theorem initialize_fails_exactly_when pythonHome pythonPath st :
  s_pythonInitialized st = false →
  let r := novin_python_initialize env pythonHome pythonPath st in
  let evs := emitted st r.2 in
  (r.1 = false ↔ initialize_failure evs = true) ∧
  s_pythonInitialized r.2 = r.1 ∧
  ((startup_configs evs = [] ∧ r.1 = false) ∨
   ∃ c, startup_configs evs = [c] ∧
        decode_attempts evs =
          option_list (nonempty pythonHome) ++ path_entries pythonPath ∧
        configured c = decoded evs).
Proof.
  intros Hinit r evs.
  destruct (initialize_spec pythonHome pythonPath st Hinit)
    as (Hf & _ & _ & evs' & Hh & Hrun).
  fold r in Hf, Hh, Hrun. apply emitted_app in Hh. fold evs in Hh. subst evs'.
  split_and!; try done.
  - rewrite (initialize_run_failure _ _ _ _ Hrun). by destruct r.1.
  - by apply initialize_run_startup.
Qed.

(** C6. Once the runtime is initialised (in particular right after a call
    that returned true) initialize returns true at once: no external call is
    made and nothing changes. *)
Theorem initialize_idempotent pythonHome pythonPath pythonHome' pythonPath' st :
  let r := novin_python_initialize env pythonHome pythonPath st in
  s_pythonInitialized st = true ∨ r.1 = true →
  novin_python_initialize env pythonHome' pythonPath' r.2 = (true, r.2) ∧
  (if s_pythonInitialized st then r = (true, st) else s_pythonInitialized r.2 = true).
Proof.
  intros r H.
  assert (Hidem : ∀ h p st', s_pythonInitialized st' = true →
            novin_python_initialize env h p st' = (true, st')).
  { intros h p st' Hst'. unfold novin_python_initialize, mbind, M_bind, get.
    by rewrite Hst'. }
  destruct (s_pythonInitialized st) eqn:Hinit.
  - assert (r = (true, st)) as -> by apply Hidem, Hinit. split; [|done].
    by apply Hidem.
  - destruct H as [?|Hr]; [done|].
    destruct (initialize_spec pythonHome pythonPath st Hinit) as (Hf & _).
    fold r in Hf. rewrite Hr in Hf. split; [|done]. by apply Hidem.
Qed.

(** C10. An empty string is treated like NULL for both parameters: the two
    calls are the same computation; from the uninitialised state nothing is
    decoded, stored or appended, and the interpreter is started with the
    untouched isolated configuration. *)
Theorem initialize_empty_is_null st :
  novin_python_initialize env (Some EmptyString) (Some EmptyString) st =
    novin_python_initialize env None None st ∧
  let r := novin_python_initialize env (Some EmptyString) (Some EmptyString) st in
  forallb (λ e, negb (is_path_configuration e)) (emitted st r.2) = true ∧
  if s_pythonInitialized st then r = (true, st)
  else ∃ sevs, startup_stage isolated_config sevs r.1 ∧
               emitted st r.2 = EvPyConfig_InitIsolatedConfig :: sevs.
Proof.
  split; [done|]. intros r.
  destruct (s_pythonInitialized st) eqn:Hinit.
  - assert (r = (true, st)) as ->.
    { subst r. unfold novin_python_initialize, mbind, M_bind, get. by rewrite Hinit. }
    split; [|done]. unfold emitted. cbn. by rewrite drop_all.
  - destruct (initialize_spec (Some EmptyString) (Some EmptyString) st Hinit)
      as (_ & _ & _ & evs & Hh & Hrun).
    fold r in Hh, Hrun. apply emitted_app in Hh. rewrite Hh.
    assert (∃ sevs, startup_stage isolated_config sevs r.1 ∧
                    evs = EvPyConfig_InitIsolatedConfig :: sevs) as (sevs & Hs & ->).
    { destruct Hrun as [hevs Hh'|hevs c1 pevs Hh' Hp|hevs c1 pevs c2 sevs b Hh' Hp Hs].
      - by inversion Hh'.
      - inversion Hh'; subst; [|done]. by inversion Hp.
      - inversion Hh'; subst; [|done]. inversion Hp; subst; [|done]. eauto. }
    split; [|eauto]. by destruct Hs.
Qed.

(** C8. Freeing NULL does nothing at all: no call to [free], no event, no
    change of state. *)
Theorem free_string_null_is_noop st :
  novin_python_free_string None st = (tt, st) ∧
  emitted st (novin_python_free_string None st).2 = [].
Proof.
  split; [done|]. unfold emitted. cbn. by rewrite drop_all.
Qed.


(** *** The instance never outlives the runtime *)

Lemma run_op_invariant o st :
  bridge_invariant st = true → bridge_invariant (run_op env o st) = true.
Proof.
  unfold bridge_invariant. intros Hinv.
  destruct o as [h p|rq c b e|s|]; cbn [run_op].
  - destruct (s_pythonInitialized st) eqn:Hinit.
    + assert (novin_python_initialize env h p st = (true, st)) as ->.
      { unfold novin_python_initialize, mbind, M_bind, get. by rewrite Hinit. }
      cbn. by rewrite Hinit.
    + destruct (initialize_spec h p st Hinit) as (_ & -> & _).
      by destruct (s_novinBridgeInstance st).
  - destruct (s_pythonInitialized st) eqn:Hinit.
    + destruct (process_request_locked rq c b e st Hinit) as (Hf & _).
      rewrite Hf.
      by match goal with |- match ?x with _ => _ end = _ => destruct x end.
    + destruct (process_request_unlocked rq c b e st Hinit)
        as (_ & (-> & -> & _) & _). by rewrite Hinit.
  - by destruct st, s.
  - destruct (finalize_spec st) as (Hf & Hi & Hsame).
    destruct (s_pythonInitialized st) eqn:Hinit.
    + by rewrite Hi.
    + by rewrite Hsame, Hinit.
Qed.

Lemma run_ops_invariant ops st :
  bridge_invariant st = true → bridge_invariant (run_ops env ops st) = true.
Proof.
  revert st. induction ops as [|o ops IH]; intros st Hinv; [done|].
  apply (IH (run_op env o st)), run_op_invariant, Hinv.
Qed.

(** C9. Whatever sequence of the four operations a process runs, at the end
    of each of them a non-NULL instance comes with a true initialised flag.
    The two facts behind it: finalize, when it does anything, leaves no
    instance and a false flag; and a call made while the flag is false
    leaves the instance variable alone. *)
Theorem instance_implies_initialized
    ops hp cl st requestJson clientId brandConfigJson errorOut :
  bridge_invariant (run_ops env ops (process_start hp cl)) = true ∧
  if s_pythonInitialized st
  then s_novinBridgeInstance (novin_python_finalize env st).2 = None ∧
       s_pythonInitialized (novin_python_finalize env st).2 = false
  else (novin_python_finalize env st).2 = st ∧
       s_novinBridgeInstance
         (novin_python_process_request env requestJson clientId brandConfigJson
            errorOut st).2 = s_novinBridgeInstance st.
Proof.
  split; [by apply run_ops_invariant|].
  destruct (finalize_spec st) as (Hf & Hi & Hsame).
  destruct (s_pythonInitialized st) eqn:Hinit.
  - split; [by apply Hi|done].
  - split; [by apply Hsame|].
    by destruct (process_request_unlocked requestJson clientId brandConfigJson
                   errorOut st Hinit) as (_ & (_ & -> & _) & _).
Qed.


(** ** The forwarding part in full *)

Lemma wp_PyTuple_New_of n st Q :
  (∀ t, fresh_tuple n t → Q t (log (EvPyTuple_New n t) st)) →
  wp (PyTuple_New env n) st Q.
Proof.
  intros H. apply wp_PyTuple_New; apply H; [by left|by right].
Qed.

Lemma wp_PyUnicode_FromString_of s st Q :
  (∀ u, unicode_of s u → Q u (log (EvPyUnicode_FromString s u) st)) →
  wp (PyUnicode_FromString env s) st Q.
Proof.
  intros H. unfold wp, PyUnicode_FromString, extcall. cbn. apply H.
  destruct s as [s'|]; [|by left].
  destruct (env_PyUnicode_FromString env (hist st) s'); [right; eauto|by left].
Qed.

Lemma wp_PyUnicode_AsUTF8_of o st Q :
  (∀ r, utf8_of o r → Q r (log (EvPyUnicode_AsUTF8 o r) st)) →
  wp (PyUnicode_AsUTF8 env o) st Q.
Proof.
  intros H. unfold wp, PyUnicode_AsUTF8, extcall. cbn. apply H.
  destruct o as [s| |]; try by left.
  destruct (env_PyUnicode_AsUTF8 env (hist st) s); [right; eauto|by left].
Qed.

(** Symbolic execution that keeps what the allocating calls answered. *)
Ltac wp_step_of :=
  lazymatch goal with
  | |- wp (PyTuple_New _ _) _ _ => apply wp_PyTuple_New_of; intros ? ?
  | |- wp (PyUnicode_FromString _ _) _ _ =>
      apply wp_PyUnicode_FromString_of; intros ? ?
  | |- wp (PyUnicode_AsUTF8 _ _) _ _ => apply wp_PyUnicode_AsUTF8_of; intros ? ?
  | _ => wp_step
  end.

Ltac wp_run_of :=
  unfold PyConfig_InitIsolatedConfig, Py_DecodeLocale, PyConfig_SetString_home,
    PyWideStringList_Append, PyMem_RawFree, PyConfig_Clear,
    Py_InitializeFromConfig, Py_IsInitialized, PyEval_SaveThread,
    PyEval_RestoreThread, Py_Finalize, PyGILState_Ensure, PyGILState_Release,
    PyImport_Import, PyImport_ImportModule,
    PyObject_GetAttrString, PyTuple_SetItem, PyObject_CallObject, Py_DECREF,
    Py_XDECREF, PyErr_Print, set_error;
  repeat wp_step_of.

Lemma forward_request_trace gilState instance requestJson clientId errorOut st :
  wp (forward_request env gilState instance requestJson clientId errorOut) st
     (λ ret st',
        same_globals st st' ∧
        ∃ evs, hist st' = hist st ++ evs ∧
        ∃ mid post, evs = mid ++ EvPyGILState_Release gilState :: post ∧
        ∃ x, forwarding instance requestJson clientId mid x ret ∧
             exit_effect errorOut x ret st st' mid post).
Proof.
  destruct st as [f inst hw pw ts hp cl h].
  unfold forward_request. destruct clientId as [c|]; wp_run_of.
  all: (split; [done|]).
  all: exists_events; (split; [hist_norm; reflexivity|]).
  all: match goal with
       | |- ∃ mid post, ?l = _ ∧ _ =>
           let r := split_at_release l in
           lazymatch r with (?a, ?b) => exists a, b end
       end.
  all: (split; [reflexivity|]).
  all: repeat match goal with
         | H : utf8_of _ (Some _) |- _ =>
             destruct H as [?|(? & -> & ?)]; simplify_eq
         end.
  all: eexists; (split; [econstructor; eassumption|]).
  all: unfold exit_effect.
  all: first
         [ split; [reflexivity|]; solve_error_report
         | split; [reflexivity|]; split; [state_norm; reflexivity|];
           eexists _, _; split; [reflexivity|]; split; [solve_In|];
           unfold owned_copy; state_norm; done ].
Qed.

(** A call that finds the instance in place. *)
Lemma process_request_forwards requestJson clientId brandConfigJson errorOut st i :
  s_pythonInitialized st = true →
  s_novinBridgeInstance st = Some i →
  wp (novin_python_process_request env requestJson clientId brandConfigJson errorOut) st
     (λ ret st',
        same_globals st st' ∧
        ∃ g mid post x,
          emitted st st' =
            EvPyGILState_Ensure g :: mid ++ EvPyGILState_Release g :: post ∧
          forwarding i requestJson clientId mid x ret ∧
          exit_effect errorOut x ret st st' mid post).
Proof.
  destruct st as [f inst hw pw ts hp cl h]. intros Hf Hi. cbn in Hf, Hi. subst f inst.
  unfold novin_python_process_request. wp_run.
  eapply wp_mono; [apply forward_request_trace|].
  intros ret st' (Hsame & evs & Hh & mid & post & -> & x & Hfwd & Heff).
  split; [done|]. exists r, mid, post, x. split_and!; try done.
  apply emitted_app. rewrite Hh. hist_norm. reflexivity.
Qed.

(** A call that constructs the instance and goes on. *)
Lemma process_request_constructs_and_forwards
    requestJson clientId brandConfigJson errorOut st :
  s_pythonInitialized st = true →
  s_novinBridgeInstance st = None →
  wp (novin_python_process_request env requestJson clientId brandConfigJson errorOut) st
     (λ ret st',
        ∀ i, s_novinBridgeInstance st' = Some i →
        ∃ g cevs mid post x,
          emitted st st' =
            EvPyGILState_Ensure g :: (cevs ++ mid) ++ EvPyGILState_Release g :: post ∧
          construction brandConfigJson cevs (Some i) ∧
          constructed brandConfigJson cevs i ∧
          forwarding i requestJson clientId mid x ret ∧
          exit_effect errorOut x ret st st' mid post).
Proof.
  destruct st as [f inst hw pw ts hp cl h]. intros Hf Hi. cbn in Hf, Hi. subst f inst.
  unfold novin_python_process_request. wp_run.
  eapply wp_mono; [by apply ensure_bridge_initialized_full|].
  intros [] st1 (cevs & inst' & -> & Hcons & Hdone). wp_run.
  1: { subst inst'. eapply wp_mono; [apply forward_request_trace|].
       intros ret st' ((_ & Hinst & _) & evs & Hh & mid & post & -> & x & Hfwd & Heff).
       intros i Hi. rewrite Hinst in Hi. cbn in Hi. simplify_eq.
       exists r, cevs, mid, post, x. split_and!; try done.
       - apply emitted_app. rewrite Hh. hist_norm. reflexivity.
       - by apply Hdone. }
  all: intros i Hi; by cbn in Hi.
Qed.

Lemma exit_effect_mono errorOut x ret st st' mid evs post :
  exit_effect errorOut x ret st st' mid post →
  (∀ e, In e mid → In e evs) →
  exit_effect errorOut x ret st st' evs post.
Proof.
  unfold exit_effect. destruct x; try done.
  intros (? & ? & p & s & ? & ? & ?) Hin. eauto 10.
Qed.

(** A call changes no global but, possibly, the instance. *)
Lemma process_request_frame requestJson clientId brandConfigJson errorOut st :
  wp (novin_python_process_request env requestJson clientId brandConfigJson errorOut) st
     (λ _ st',
        s_pythonInitialized st' = s_pythonInitialized st ∧
        s_pythonHomeW st' = s_pythonHomeW st ∧
        s_pythonPathW st' = s_pythonPathW st ∧
        s_mainThreadState st' = s_mainThreadState st).
Proof.
  destruct st as [f inst hw pw ts hp cl h].
  unfold novin_python_process_request. wp_run.
  all: try lazymatch goal with
           | |- wp (ensure_bridge_initialized _ _) _ _ =>
               eapply wp_mono; [by apply ensure_bridge_initialized_spec|];
               intros [] st1 (cevs & inst' & -> & _); wp_run
           end.
  all: try lazymatch goal with
           | |- wp (forward_request _ _ _ _ _ _) _ _ =>
               eapply wp_mono; [apply forward_request_spec|];
               intros ret st' ((Hf & _ & Hh & Hp & Ht) & _);
               rewrite Hf, Hh, Hp, Ht
           end.
  all: done.
Qed.

(** Every call made while the runtime is initialised is a [request_run]. *)
Lemma process_request_run requestJson clientId brandConfigJson errorOut st :
  s_pythonInitialized st = true →
  let r := novin_python_process_request env requestJson clientId brandConfigJson
             errorOut st in
  s_pythonInitialized r.2 = true ∧
  s_pythonHomeW r.2 = s_pythonHomeW st ∧
  s_pythonPathW r.2 = s_pythonPathW st ∧
  s_mainThreadState r.2 = s_mainThreadState st ∧
  ∃ post x,
    request_run requestJson clientId brandConfigJson (s_novinBridgeInstance st)
      (emitted st r.2) post (s_novinBridgeInstance r.2) x r.1 ∧
    exit_effect errorOut x r.1 st r.2 (emitted st r.2) post.
Proof.
  intros Hinit r.
  destruct (s_novinBridgeInstance st) as [i|] eqn:Hinst.
  - destruct (process_request_forwards requestJson clientId brandConfigJson errorOut
                st i Hinit Hinst)
      as ((Hf & Hi & Hh & Hp & Ht) & g & mid & post & x & Hem & Hfwd & Heff).
    fold r in Hf, Hi, Hh, Hp, Ht, Hem, Hfwd, Heff.
    rewrite Hf, Hh, Hp, Ht, Hi, Hinst, Hem. split_and!; try done.
    exists post, x. split; [by econstructor|].
    eapply exit_effect_mono; [done|]. intros e He. right. apply in_or_app. by left.
  - pose proof (process_request_locked requestJson clientId brandConfigJson errorOut
                  st Hinit) as Hlocked.
    pose proof (process_request_frame requestJson clientId brandConfigJson errorOut st)
      as Hframe.
    unfold wp in Hframe. fold r in Hframe. destruct Hframe as (_ & Hh & Hp & Ht).
    destruct Hlocked as (Hf & _). fold r in Hf.
    split_and!; try done.
    destruct (s_novinBridgeInstance r.2) as [i|] eqn:Hafter.
    + destruct (process_request_constructs_and_forwards requestJson clientId
                  brandConfigJson errorOut st Hinit Hinst i Hafter)
        as (g & cevs & mid & post & x & Hem & Hcons & _ & Hfwd & Heff).
      fold r in Hem, Hfwd, Heff. rewrite Hem.
      exists post, x. split; [by econstructor|].
      eapply exit_effect_mono; [done|]. intros e He. right.
      apply in_or_app. left. apply in_or_app. by right.
    + destruct (process_request_constructs requestJson clientId brandConfigJson
                  errorOut st Hinit Hinst)
        as (_ & g & cevs & rest & post & Hem & Hcons & _ & _ & Hfail & _).
      fold r in Hem, Hcons, Hfail. rewrite Hafter in Hcons.
      destruct (Hfail Hafter) as (Hret & -> & Hrep).
      rewrite app_nil_r in Hem. rewrite Hem, Hret.
      exists post, BridgeInitFailed. split; [by econstructor|done].
Qed.

Lemma forwarding_causes i requestJson clientId mid x ret :
  forwarding i requestJson clientId mid x ret →
  (x = MethodMissing ↔
     In (EvPyObject_GetAttrString i "process_request" None) mid) ∧
  (x = ProcessingFailed ↔ call_results mid = [None]) ∧
  (x = EncodingFailed ↔ ∃ o, In (EvPyUnicode_AsUTF8 o None) mid) ∧
  (x = OutOfMemory ↔ ∃ s, In (EvStrdup s None) mid) ∧
  (x = Success ↔ ∃ p, ret = Some p).
Proof.
  destruct 1; unfold call_results, call_events; cbn.
  all: split_and!; split; try done; try (intros [? Hin]; cbn in Hin); try intros Hin.
  all: try (by eauto 15).
  all: exfalso; repeat (destruct Hin as [Hin|Hin]; [try discriminate Hin|]); try done.
Qed.

Lemma forwarding_head i requestJson clientId mid x ret :
  forwarding i requestJson clientId mid x ret →
  ∃ lookup rest, mid = EvPyObject_GetAttrString i "process_request" lookup :: rest.
Proof. destruct 1; eauto. Qed.

Lemma forwarding_results i requestJson clientId mid x ret :
  forwarding i requestJson clientId mid x ret →
  match x with
  | MethodMissing => call_results mid = []
  | ProcessingFailed => call_results mid = [None]
  | EncodingFailed => ∃ o, call_results mid = [Some o]
  | OutOfMemory => ∃ s, call_results mid = [Some (PyStr s)]
  | Success =>
      ∃ s, call_results mid = [Some (PyStr s)] ∧
           ∀ s' p, In (EvStrdup s' (Some p)) mid → s' = s
  | _ => False
  end.
Proof.
  destruct 1; try done; try (by eexists).
  exists s. split; [done|]. intros s' p' Hin. cbn in Hin.
  repeat (destruct Hin as [Hin|Hin]; [try discriminate Hin|]); [|done].
  by simplify_eq.
Qed.

Lemma observed_in_mid {A} (f : event → option A) g mid post :
  (post = [] ∨ ∃ m a, post = [EvStrdup m a]) →
  (∀ g', f (EvPyGILState_Ensure g') = None) →
  (∀ g', f (EvPyGILState_Release g') = None) →
  (∀ m a, f (EvStrdup m a) = None) →
  omap f (EvPyGILState_Ensure g :: mid ++ EvPyGILState_Release g :: post) = omap f mid.
Proof.
  intros Hpost He Hr Hs. cbn. rewrite He, omap_app. cbn. rewrite Hr.
  destruct Hpost as [->|(m & a & ->)]; cbn; rewrite ?Hs; by rewrite app_nil_r.
Qed.

Lemma exit_effect_post errorOut x ret st st' mid post :
  exit_effect errorOut x ret st st' mid post →
  post = [] ∨ ∃ m a, post = [EvStrdup m a].
Proof.
  unfold exit_effect. destruct x.
  1: by intros (-> & _); left.
  all: intros (_ & [->|[a ->]]%error_report_post); eauto.
Qed.

Lemma forwarding_exits i requestJson clientId mid x ret :
  forwarding i requestJson clientId mid x ret →
  In x [MethodMissing; ProcessingFailed; EncodingFailed; OutOfMemory; Success].
Proof. destruct 1; cbn; auto 10. Qed.

Lemma null_dereferenced_app l1 l2 :
  null_dereferenced (l1 ++ l2) = null_dereferenced l1 || null_dereferenced l2.
Proof. apply existsb_app. Qed.

(** Under the lock a call first makes sure the instance is there, then
    forwards the request to it. *)
Lemma process_request_forwarding requestJson clientId brandConfigJson errorOut st i :
  s_pythonInitialized st = true →
  let r := novin_python_process_request env requestJson clientId brandConfigJson
             errorOut st in
  s_novinBridgeInstance r.2 = Some i →
  ∃ g cevs mid post x,
    emitted st r.2 =
      EvPyGILState_Ensure g :: (cevs ++ mid) ++ EvPyGILState_Release g :: post ∧
    match s_novinBridgeInstance st with
    | Some _ => cevs = []
    | None => constructed brandConfigJson cevs i
    end ∧
    forwarding i requestJson clientId mid x r.1 ∧
    exit_effect errorOut x r.1 st r.2 mid post.
Proof.
  intros Hinit r Hi.
  destruct (s_novinBridgeInstance st) as [i0|] eqn:Hinst.
  - destruct (process_request_forwards requestJson clientId brandConfigJson errorOut
                st i0 Hinit Hinst)
      as ((_ & Hsame & _) & g & mid & post & x & Hem & Hfwd & Heff).
    fold r in Hsame, Hem, Hfwd, Heff. rewrite Hinst, Hi in Hsame. simplify_eq.
    by exists g, [], mid, post, x.
  - destruct (process_request_constructs_and_forwards requestJson clientId
                brandConfigJson errorOut st Hinit Hinst i Hi)
      as (g & cevs & mid & post & x & Hem & _ & Hdone & Hfwd & Heff).
    by exists g, cevs, mid, post, x.
Qed.

(** Split [null_dereferenced l = false] into one fact per event. *)
Ltac null_split H :=
  unfold null_dereferenced, call_events, request_args in H; cbn in H;
  repeat (apply orb_false_elim in H as [? H]).

(** What a run that dereferences no NULL says about the forwarding part:
    the tuple and its two strings were created. *)
Lemma forwarding_defined i requestJson clientId mid x ret :
  forwarding i requestJson clientId mid x ret →
  null_dereferenced mid = false →
  mid = [EvPyObject_GetAttrString i "process_request" None; EvPyErr_Print] ∨
  ∃ processFunc s result rest,
    requestJson = Some s ∧
    mid = EvPyObject_GetAttrString i "process_request" (Some processFunc)
          :: call_events processFunc requestJson (default_client clientId)
               (Some (PyTuple [None; None])) (Some (PyStr s))
               (Some (PyStr (default_client clientId))) result
          ++ rest ∧
    calls rest = [].
Proof.
  destruct 1 as [|pf t u v Ht Hu Hv|pf t u v res Ht Hu Hv|pf t u v s Ht Hu Hv
                |pf t u v s p Ht Hu Hv]; [by left|..].
  all: intros Hnull; right.
  all: destruct Ht as [ -> | -> ]; [|exfalso; null_split Hnull; done].
  all: destruct Hu as [->|(s0 & -> & ->)]; [exfalso; null_split Hnull; done|].
  all: destruct Hv as [->|(c & Hc & ->)]; [exfalso; null_split Hnull; done|].
  all: injection Hc as <-.
  all: by eexists pf, s0, _, _.
Qed.

(** X1. A call that ends with the instance in place (it was there, or has
    just been constructed) and dereferences no NULL leaves by exactly one of
    five exits, and the events of its forwarding part tell which: the method
    lookup returned NULL (method missing), the method call returned NULL
    (processing failed), no UTF-8 text could be obtained from the result
    (encoding failed), the copy of the text could not be allocated (out of
    memory), or a buffer is returned.  Each failing exit returns NULL and
    reports its own message through the error slot. *)
Theorem request_exit_by_cause requestJson clientId brandConfigJson errorOut st i :
  s_pythonInitialized st = true →
  let r := novin_python_process_request env requestJson clientId brandConfigJson
             errorOut st in
  s_novinBridgeInstance r.2 = Some i →
  null_dereferenced (emitted st r.2) = false →
  ∃ g cevs mid post x,
    emitted st r.2 =
      EvPyGILState_Ensure g :: (cevs ++ mid) ++ EvPyGILState_Release g :: post ∧
    match s_novinBridgeInstance st with
    | Some _ => cevs = []
    | None => constructed brandConfigJson cevs i
    end ∧
    forwarding i requestJson clientId mid x r.1 ∧
    In x [MethodMissing; ProcessingFailed; EncodingFailed; OutOfMemory; Success] ∧
    exit_effect errorOut x r.1 st r.2 mid post ∧
    (x = MethodMissing ↔
       In (EvPyObject_GetAttrString i "process_request" None) mid) ∧
    (x = ProcessingFailed ↔ call_results mid = [None]) ∧
    (x = EncodingFailed ↔ ∃ o, In (EvPyUnicode_AsUTF8 o None) mid) ∧
    (x = OutOfMemory ↔ ∃ s, In (EvStrdup s None) mid) ∧
    (x = Success ↔ ∃ p, r.1 = Some p) ∧
    (x = MethodMissing ∨ ∃ s, requestJson = Some s).
Proof.
  intros Hinit r Hi Hnull.
  destruct (process_request_forwarding requestJson clientId brandConfigJson errorOut
              st i Hinit Hi)
    as (g & cevs & mid & post & x & Hem & Hcevs & Hfwd & Heff).
  fold r in Hem, Hfwd, Heff.
  exists g, cevs, mid, post, x. split_and!; try done.
  1: by eapply forwarding_exits.
  1-5: by apply (forwarding_causes _ _ _ _ _ _ Hfwd).
  rewrite Hem in Hnull.
  change (?a :: (cevs ++ mid) ++ ?l) with ([a] ++ (cevs ++ mid) ++ l) in Hnull.
  rewrite !null_dereferenced_app in Hnull.
  apply orb_false_elim in Hnull as (_ & Hnull).
  apply orb_false_elim in Hnull as (Hnull & _).
  apply orb_false_elim in Hnull as (_ & Hnull).
  destruct (forwarding_defined _ _ _ _ _ _ Hfwd Hnull)
    as [->|(pf & s & res & rest & -> & _)]; [left|right; eauto].
  apply (forwarding_causes _ _ _ _ _ _ Hfwd). by left.
Qed.

(** X2. On a call that ends with the instance in place, a returned buffer
    is fresh and holds the text of the string object that the instance's
    [process_request] method returned, as C reads it (up to its first NUL
    character, all of it when it has none); and when the method returns an
    object that is not a string the call fails with the encoding message. *)
Theorem request_result_passes_through
    requestJson clientId brandConfigJson errorOut st i :
  s_pythonInitialized st = true →
  let r := novin_python_process_request env requestJson clientId brandConfigJson
             errorOut st in
  s_novinBridgeInstance r.2 = Some i →
  ∃ g cevs mid post,
    emitted st r.2 =
      EvPyGILState_Ensure g :: (cevs ++ mid) ++ EvPyGILState_Release g :: post ∧
    match s_novinBridgeInstance st with
    | Some _ => cevs = []
    | None => constructed brandConfigJson cevs i
    end ∧
    (∃ lookup rest,
       mid = EvPyObject_GetAttrString i "process_request" lookup :: rest) ∧
    (∀ p, r.1 = Some p →
          ∃ s, call_results mid = [Some (PyStr s)] ∧
               heap st !! p = None ∧
               heap r.2 = <[p:=c_string s]> (heap st)) ∧
    (∀ o, call_results mid = [Some o] →
          (∀ s, o ≠ PyStr s) →
          r.1 = None ∧
          error_report errorOut (error_message EncodingFailed) st r.2 post).
Proof.
  intros Hinit r Hi.
  destruct (process_request_forwarding requestJson clientId brandConfigJson errorOut
              st i Hinit Hi)
    as (g & cevs & mid & post & x & Hem & Hcevs & Hfwd & Heff).
  fold r in Hem, Hfwd, Heff.
  exists g, cevs, mid, post. split_and!; try done.
  { by eapply forwarding_head. }
  all: pose proof (forwarding_results _ _ _ _ _ _ Hfwd) as Hx.
  all: pose proof (forwarding_causes _ _ _ _ _ _ Hfwd) as (_ & _ & _ & _ & Hsucc).
  - intros p Hp. assert (x = Success) as -> by (apply Hsucc; eauto).
    destruct Hx as (s & Hcall & Hdup).
    destruct Heff as (_ & _ & p' & s' & Hret & Hin & Hfresh & Hheap).
    rewrite Hp in Hret. simplify_eq. rewrite (Hdup _ _ Hin) in *.
    by exists s.
  - intros o Hcall Hstr. destruct x; try done.
    all: try (by destruct Heff).
    all: try (rewrite Hx in Hcall; done).
    all: try (destruct Hx as (s & Hx & _); rewrite Hx in Hcall; simplify_eq;
              by destruct (Hstr s)).
    all: destruct Hx as (s & Hx); rewrite Hx in Hcall; simplify_eq;
      by destruct (Hstr s).
Qed.

(** X3. On a call that ends with the instance in place and dereferences no
    NULL, the part after the construction (if any) invokes at most one
    callable: the [process_request] attribute it has just looked up on the
    instance, with the two-element tuple holding the request text and the
    client id, where a NULL client id is replaced by [ios-client] and any
    other one, the empty string included, is passed as it is. *)
Theorem request_calls_method_with_client
    requestJson clientId brandConfigJson errorOut st i :
  s_pythonInitialized st = true →
  let r := novin_python_process_request env requestJson clientId brandConfigJson
             errorOut st in
  let evs := emitted st r.2 in
  s_novinBridgeInstance r.2 = Some i →
  null_dereferenced evs = false →
  ∃ g cevs mid post,
    evs = EvPyGILState_Ensure g :: (cevs ++ mid) ++ EvPyGILState_Release g :: post ∧
    match s_novinBridgeInstance st with
    | Some _ => cevs = []
    | None => constructed brandConfigJson cevs i
    end ∧
    calls evs = calls cevs ++ calls mid ∧
    ((mid = [EvPyObject_GetAttrString i "process_request" None; EvPyErr_Print] ∧
      calls mid = []) ∨
     ∃ processFunc s rest,
       requestJson = Some s ∧
       mid = EvPyObject_GetAttrString i "process_request" (Some processFunc) :: rest ∧
       calls mid =
         [(processFunc,
           Some (PyTuple [Some (PyStr s); Some (PyStr (default_client clientId))]))]).
Proof.
  intros Hinit r evs Hi Hnull.
  destruct (process_request_forwarding requestJson clientId brandConfigJson errorOut
              st i Hinit Hi)
    as (g & cevs & mid & post & x & Hem & Hcevs & Hfwd & Heff).
  fold r in Hem, Hfwd, Heff. fold evs in Hem.
  exists g, cevs, mid, post. split_and!; try done.
  - rewrite Hem. unfold calls. cbn. rewrite !omap_app. cbn.
    destruct (exit_effect_post _ _ _ _ _ _ _ Heff) as [->|(m & a & ->)]; cbn;
      by rewrite app_nil_r.
  - rewrite Hem in Hnull.
    change (?a :: (cevs ++ mid) ++ ?l) with ([a] ++ (cevs ++ mid) ++ l) in Hnull.
    rewrite !null_dereferenced_app in Hnull.
    apply orb_false_elim in Hnull as (_ & Hnull).
    apply orb_false_elim in Hnull as (Hnull & _).
    apply orb_false_elim in Hnull as (_ & Hnull).
    destruct (forwarding_defined _ _ _ _ _ _ Hfwd Hnull)
      as [->|(pf & s & res & rest & -> & -> & Hrest)]; [by left|right].
    exists pf, s. eexists. split_and!; try done.
    unfold calls in *. cbn. by rewrite Hrest.
Qed.

(** X4. A failing request does not poison the instance: whatever exit a
    call takes, the instance and the initialised flag stay as they were, and
    the next call starts over by taking the lock and looking the method up
    on the same instance. *)
Theorem failed_request_keeps_instance
    requestJson clientId brandConfigJson errorOut st i
    requestJson' clientId' brandConfigJson' errorOut' :
  s_pythonInitialized st = true →
  s_novinBridgeInstance st = Some i →
  let r := novin_python_process_request env requestJson clientId brandConfigJson
             errorOut st in
  let r' := novin_python_process_request env requestJson' clientId' brandConfigJson'
              errorOut' r.2 in
  same_globals st r.2 ∧
  ∃ g' lookup rest,
    emitted r.2 r'.2 =
      EvPyGILState_Ensure g'
      :: EvPyObject_GetAttrString i "process_request" lookup :: rest.
Proof.
  intros Hinit Hinst r r'.
  destruct (process_request_forwards requestJson clientId brandConfigJson errorOut
              st i Hinit Hinst) as (Hsame & _).
  fold r in Hsame. split; [done|].
  destruct Hsame as (Hf & Hi & _). rewrite Hinit in Hf. rewrite Hinst in Hi.
  destruct (process_request_forwards requestJson' clientId' brandConfigJson' errorOut'
              r.2 i Hf Hi) as (_ & g' & mid & post & x & Hem & Hfwd & _).
  fold r' in Hem. destruct (forwarding_head _ _ _ _ _ _ Hfwd) as (lookup & rest & ->).
  exists g', lookup. eexists. by rewrite Hem.
Qed.

(** *** Memory *)

Lemma error_report_memory errorOut msg st st' post :
  error_report errorOut msg st st' post →
  heap st ⊆ heap st' ∧
  existsb is_free_event post = false ∧
  match errorOut with
  | Some l =>
      delete l (cells st') = delete l (cells st) ∧
      ∃ a, cells st' !! l = Some a ∧
           heap (novin_python_free_string a st').2 = heap st
  | None => cells st' = cells st ∧ heap st' = heap st
  end.
Proof.
  unfold error_report, owned_copy. destruct errorOut as [l|].
  - intros (a & -> & Hc & Ha). rewrite Hc.
    split_and!; [|done|by rewrite delete_insert_eq|].
    + destruct a as [q|]; [|by rewrite Ha]. destruct Ha as [Hq ->].
      by apply insert_subseteq.
    + exists a. split; [apply lookup_insert_eq|].
      destruct a as [q|]; [|by destruct st'].
      destruct Ha as [Hq Hh]. destruct st'. cbn in *. subst.
      by apply delete_insert_id.
  - intros (-> & Hh & Hc). by rewrite Hh.
Qed.

Lemma exit_effect_memory errorOut x ret st st' evs post :
  exit_effect errorOut x ret st st' evs post →
  heap st ⊆ heap st' ∧
  existsb is_free_event post = false ∧
  match errorOut with
  | Some l => delete l (cells st') = delete l (cells st)
  | None => cells st' = cells st
  end ∧
  match ret with
  | Some p => heap (novin_python_free_string (Some p) st').2 = heap st
  | None =>
      match errorOut with
      | Some l => ∃ a, cells st' !! l = Some a ∧
                       heap (novin_python_free_string a st').2 = heap st
      | None => heap st' = heap st
      end
  end.
Proof.
  unfold exit_effect. destruct x.
  1: { intros (-> & Hc & p & s & -> & _ & Hp & Hh). split_and!; try done.
       - rewrite Hh. by apply insert_subseteq.
       - rewrite Hc. by destruct errorOut.
       - destruct st'. cbn in *. subst. by apply delete_insert_id. }
  all: intros (-> & Hrep); apply error_report_memory in Hrep.
  all: destruct Hrep as (? & ? & Hrep); split_and!; try done.
  all: destruct errorOut; by destruct Hrep.
Qed.

Lemma arguments_no_free brandConfigJson pre args :
  arguments brandConfigJson pre args → existsb is_free_event pre = false.
Proof. by destruct 1. Qed.

Lemma construction_no_free brandConfigJson cevs r :
  construction brandConfigJson cevs r → existsb is_free_event cevs = false.
Proof.
  destruct 1 as [ | | |m c pre args Ha|m c pre args i Ha]; try done.
  all: cbn; by rewrite existsb_app, (arguments_no_free _ _ _ Ha).
Qed.

Lemma forwarding_no_free i requestJson clientId mid x ret :
  forwarding i requestJson clientId mid x ret → existsb is_free_event mid = false.
Proof. by destruct 1. Qed.

Lemma request_run_no_free requestJson clientId brandConfigJson before evs post after x ret :
  request_run requestJson clientId brandConfigJson before evs post after x ret →
  existsb is_free_event post = false →
  existsb is_free_event evs = false.
Proof.
  destruct 1 as [g i mid x ret post _ Hf|g i cevs mid x ret post _ Hc Hf|g cevs post _ Hc];
    intros Hpost; cbn; rewrite !existsb_app; cbn; rewrite Hpost.
  - by rewrite (forwarding_no_free _ _ _ _ _ _ Hf).
  - by rewrite (construction_no_free _ _ _ Hc), (forwarding_no_free _ _ _ _ _ _ Hf).
  - by rewrite (construction_no_free _ _ _ Hc).
Qed.

(** Either way a call goes, what it does to memory. *)
Lemma process_request_memory requestJson clientId brandConfigJson errorOut st :
  let r := novin_python_process_request env requestJson clientId brandConfigJson
             errorOut st in
  ∃ x post,
    exit_effect errorOut x r.1 st r.2 (emitted st r.2) post ∧
    (existsb is_free_event post = false →
     existsb is_free_event (emitted st r.2) = false).
Proof.
  intros r. destruct (s_pythonInitialized st) eqn:Hinit.
  - destruct (process_request_run requestJson clientId brandConfigJson errorOut st Hinit)
      as (_ & _ & _ & _ & post & x & Hrun & Heff).
    exists x, post. split; [done|]. by eapply request_run_no_free.
  - destruct (process_request_unlocked requestJson clientId brandConfigJson errorOut
                st Hinit) as (Hret & _ & post & Hh & Hrep).
    fold r in Hret, Hh, Hrep. apply emitted_app in Hh.
    exists NotInitialized, post. rewrite Hh. by split.
Qed.

(** X5. A call never frees anything and never disturbs what is already
    there: every buffer live before the call is live and unchanged after
    it, no [free] is issued, and no cell of the caller other than the one
    [errorOut] points to is written. *)
Theorem process_request_frame_memory
    requestJson clientId brandConfigJson errorOut st :
  let r := novin_python_process_request env requestJson clientId brandConfigJson
             errorOut st in
  heap st ⊆ heap r.2 ∧
  existsb is_free_event (emitted st r.2) = false ∧
  match errorOut with
  | Some l => delete l (cells r.2) = delete l (cells st)
  | None => cells r.2 = cells st
  end.
Proof.
  intros r.
  destruct (process_request_memory requestJson clientId brandConfigJson errorOut st)
    as (x & post & Heff & Hfree).
  fold r in Heff, Hfree.
  destruct (exit_effect_memory _ _ _ _ _ _ _ Heff) as (? & ? & ? & _).
  split_and!; auto.
Qed.

(** X6. What a call allocates is exactly what it hands to the caller:
    after releasing the returned buffer with [novin_python_free_string], or,
    when the call failed, the string left in the error slot, the heap is
    what it was before the call. *)
Theorem free_string_undoes_request
    requestJson clientId brandConfigJson errorOut st :
  let r := novin_python_process_request env requestJson clientId brandConfigJson
             errorOut st in
  match r.1 with
  | Some p => heap (novin_python_free_string (Some p) r.2).2 = heap st
  | None =>
      match errorOut with
      | Some l => ∃ a, cells r.2 !! l = Some a ∧
                       heap (novin_python_free_string a r.2).2 = heap st
      | None => heap r.2 = heap st
      end
  end.
Proof.
  intros r.
  destruct (process_request_memory requestJson clientId brandConfigJson errorOut st)
    as (x & post & Heff & _).
  fold r in Heff. by destruct (exit_effect_memory _ _ _ _ _ _ _ Heff) as (_ & _ & _ & ?).
Qed.

(** *** References *)

Lemma ledger_app owned evs mid evs' final :
  ledger owned evs mid → ledger mid evs' final → ledger owned (evs ++ evs') final.
Proof.
  induction 1; intros Hrest; cbn; [done|..].
  - eapply ledger_new; eauto.
  - apply ledger_keep; eauto.
  - eapply ledger_store; eauto.
  - apply ledger_store_nothing; eauto.
  - eapply ledger_release; eauto.
  - eapply ledger_xrelease; eauto.
Qed.

Ltac solve_take := solve [ repeat first [ apply take_here | apply take_later ] ].

(** Account for the next event. *)
Ltac ledger_step :=
  first
    [ apply ledger_done
    | eapply ledger_store; [reflexivity | solve_take | solve_take | ]
    | apply ledger_store_nothing
    | eapply ledger_release; [solve_take | ]
    | eapply ledger_xrelease; [solve_take | ]
    | eapply ledger_new; [reflexivity | ]
    | apply ledger_keep; [reflexivity | ] ].

Ltac solve_ledger := cbn; repeat (ledger_step; cbn).

Lemma forwarding_ledger i requestJson clientId mid x ret :
  forwarding i requestJson clientId mid x ret →
  null_dereferenced mid = false →
  ∀ owned, ledger owned mid owned.
Proof.
  destruct 1 as [|pf t u v Ht Hu Hv|pf t u v res Ht Hu Hv|pf t u v s Ht Hu Hv
                |pf t u v s p Ht Hu Hv]; intros Hnull owned; [solve_ledger|..].
  all: destruct Ht as [ -> | -> ]; [|exfalso; null_split Hnull; done].
  all: destruct Hu as [->|(s0 & -> & ->)]; [exfalso; null_split Hnull; done|].
  all: destruct Hv as [->|(c & Hc & ->)]; [exfalso; null_split Hnull; done|].
  all: unfold call_events, request_args; solve_ledger.
Qed.

(** The references of one run of [ensure_bridge_initialized]: all given
    back but the one to the instance, when there is one. *)
Lemma ensure_bridge_initialized_books brandConfigJson st :
  s_novinBridgeInstance st = None →
  wp (ensure_bridge_initialized env brandConfigJson) st
     (λ _ st', ∃ evs, hist st' = hist st ++ evs ∧
        (null_dereferenced evs = false →
         ∀ owned, ledger owned evs
                    (option_list (s_novinBridgeInstance st') ++ owned))).
Proof.
  destruct st as [f inst hw pw ts hp cl h]. intros Hinst. cbn in Hinst. subst inst.
  unfold ensure_bridge_initialized, constructor_args. wp_run.
  all: exists_events; (split; [hist_norm; reflexivity|]).
  all: intros Hnull owned.
  all: first [ solve [solve_ledger] | exfalso; null_split Hnull; done ].
Qed.

Lemma ensure_bridge_initialized_ledger brandConfigJson st :
  s_novinBridgeInstance st = None →
  wp (ensure_bridge_initialized env brandConfigJson) st
     (λ _ st', ∃ evs r, st' = set_novinBridgeInstance r (with_events evs st) ∧
        (null_dereferenced evs = false →
         ∀ owned, ledger owned evs (option_list r ++ owned))).
Proof.
  intros Hinst.
  pose proof (ensure_bridge_initialized_spec brandConfigJson st Hinst) as Hshape.
  pose proof (ensure_bridge_initialized_books brandConfigJson st Hinst) as Hbooks.
  unfold wp in *. destruct Hshape as (evs & r & Heq & _).
  exists evs, r. split; [done|].
  rewrite Heq in Hbooks. destruct Hbooks as (evs' & Hh & Hl).
  destruct st as [f inst hw pw ts hp cl h]. cbn in Hh, Hl.
  apply app_inv_head in Hh. by subst.
Qed.

Lemma ledger_post post owned :
  (post = [] ∨ ∃ m a, post = [EvStrdup m a]) → ledger owned post owned.
Proof. intros [->|(m & a & ->)]; solve_ledger. Qed.

Lemma process_request_ledger requestJson clientId brandConfigJson errorOut st :
  s_pythonInitialized st = true →
  wp (novin_python_process_request env requestJson clientId brandConfigJson errorOut) st
     (λ _ st',
        null_dereferenced (emitted st st') = false →
        ledger [] (emitted st st')
          match s_novinBridgeInstance st with
          | Some _ => []
          | None => option_list (s_novinBridgeInstance st')
          end).
Proof.
  destruct st as [f inst hw pw ts hp cl h]. intros Hf. cbn in Hf. subst f.
  unfold novin_python_process_request. wp_run.
  - eapply wp_mono; [apply forward_request_trace|].
    intros ret st' (_ & evs & Hh & mid & post & -> & x & Hfwd & Heff).
    assert (Hem : emitted (mkState true (Some p) hw pw ts hp cl h) st' =
                  [EvPyGILState_Ensure r] ++ mid ++ [EvPyGILState_Release r] ++ post).
    { apply emitted_app. rewrite Hh. hist_norm. reflexivity. }
    rewrite Hem. rewrite !null_dereferenced_app. intros Hnull.
    apply orb_false_elim in Hnull as (_ & Hnull).
    apply orb_false_elim in Hnull as (Hnull & _).
    eapply ledger_app; [solve_ledger|].
    eapply ledger_app; [by eapply forwarding_ledger|].
    eapply ledger_app; [solve_ledger|].
    apply ledger_post. by eapply exit_effect_post.
  - eapply wp_mono; [by apply ensure_bridge_initialized_ledger|].
    intros [] st1 (cevs & inst' & -> & Hbooks). wp_run.
    1: { subst inst'. eapply wp_mono; [apply forward_request_trace|].
      intros ret st' ((_ & Hinst & _) & evs & Hh & mid & post & -> & x & Hfwd & Heff).
      assert (Hem : emitted (mkState true None hw pw ts hp cl h) st' =
                    [EvPyGILState_Ensure r] ++ cevs ++ mid ++
                    [EvPyGILState_Release r] ++ post).
      { apply emitted_app. rewrite Hh. hist_norm. reflexivity. }
      rewrite Hem, Hinst. cbn [s_novinBridgeInstance set_novinBridgeInstance].
      rewrite !null_dereferenced_app. intros Hnull.
      apply orb_false_elim in Hnull as (_ & Hnull).
      apply orb_false_elim in Hnull as (Hc & Hnull).
      apply orb_false_elim in Hnull as (Hm & _).
      eapply ledger_app; [solve_ledger|].
      eapply ledger_app; [by apply Hbooks|].
      eapply ledger_app; [by eapply forwarding_ledger|].
      eapply ledger_app; [solve_ledger|].
      apply ledger_post. by eapply (exit_effect_post _ _ _ _ _ _ _ Heff). }
    all: subst inst'; intros Hnull.
    all: match type of Hnull with
      | null_dereferenced (emitted _ ?s) = false =>
          let l := events_of s constr:(@nil event) in
          assert (Hem : emitted (mkState true None hw pw ts hp cl h) s = l)
            by (apply emitted_app; hist_norm; reflexivity)
      end.
    all: rewrite Hem in Hnull |- *; clear Hem.
    all: change (?a :: cevs ++ ?l) with ([a] ++ cevs ++ l) in Hnull |- *.
    all: rewrite !null_dereferenced_app in Hnull.
    all: apply orb_false_elim in Hnull as (_ & Hnull).
    all: apply orb_false_elim in Hnull as (Hc & _).
    all: (eapply ledger_app; [solve_ledger|]).
    all: (eapply ledger_app; [by apply Hbooks|]); solve_ledger.
Qed.

(** X7. A call made while the runtime is initialised, on which no NULL is
    dereferenced, keeps its books on references straight on every path:
    going through its events in order, every release gives up a reference
    the call holds at that moment, every item stored into a tuple is a
    reference the call holds and is stored into an empty slot of a tuple it
    holds, and when the call returns it holds nothing any more except, when
    it has just constructed the instance, the one reference it stored in
    the global. *)
Theorem process_request_balances_references
    requestJson clientId brandConfigJson errorOut st :
  s_pythonInitialized st = true →
  let r := novin_python_process_request env requestJson clientId brandConfigJson
             errorOut st in
  let evs := emitted st r.2 in
  null_dereferenced evs = false →
  ledger [] evs
    match s_novinBridgeInstance st with
    | Some _ => []
    | None => option_list (s_novinBridgeInstance r.2)
    end.
Proof.
  intros Hinit r evs Hnull.
  by apply (process_request_ledger requestJson clientId brandConfigJson errorOut st Hinit).
Qed.

(** *** Tear-down *)

Lemma finalize_exact st :
  s_pythonInitialized st = true →
  wp (novin_python_finalize env) st
     (λ _ st',
        ∃ g, st' =
             with_events
               (finalize_events (s_mainThreadState st) g (s_novinBridgeInstance st)
                  (s_pythonHomeW st) (s_pythonPathW st))
               (mkState false None None None None (heap st) (cells st) (hist st))).
Proof.
  destruct st as [f inst hw pw ts hp cl h]. intros Hf. cbn in Hf. subst f.
  unfold novin_python_finalize. wp_run.
  all: eexists; unfold finalize_events; hist_norm; reflexivity.
Qed.

(** *** Initialisation, with the globals and the heap *)

Lemma append_search_paths_exact mutablePath tokens c st :
  wp (append_search_paths env mutablePath tokens c) st
     (λ r st',
        ∃ evs, st' = set_heap (match r with
                               | Some _ => heap st
                               | None => delete mutablePath (heap st)
                               end) (with_events evs st) ∧
               path_loop mutablePath tokens c evs r).
Proof.
  revert c st. induction tokens as [|token tokens IH]; intros c st;
    destruct st as [f inst hw pw ts hp cl h]; cbn [append_search_paths]; wp_run.
  all: try lazymatch goal with
           | |- wp (append_search_paths _ _ _ _) _ _ =>
               eapply wp_mono; [apply IH|];
               intros r' st' (evs & -> & Hloop)
           end.
  all: exists_events; (split; [hist_norm; try reflexivity|]).
  all: try (econstructor; eassumption).
  all: by destruct r'.
Qed.

Lemma configure_home_exact pythonHome c st :
  wp (configure_home env pythonHome c) st
     (λ r st',
        ∃ evs, st' = set_pythonHomeW (home_saved (s_pythonHomeW st) evs)
                       (with_events evs st) ∧
               home_stage pythonHome c evs r).
Proof.
  destruct st as [f inst hw pw ts hp cl h]. unfold configure_home. wp_run.
  all: exists_events; (split; [hist_norm; reflexivity|]).
  all: econstructor; eassumption.
Qed.

Lemma configure_paths_exact pythonPath c st :
  wp (configure_paths env pythonPath c) st
     (λ r st', ∃ evs, st' = with_events evs st ∧ path_stage pythonPath c evs r).
Proof.
  destruct st as [f inst hw pw ts hp cl h]. unfold configure_paths. wp_run.
  all: try lazymatch goal with
           | |- wp (append_search_paths _ _ _ _) _ _ =>
               eapply wp_mono; [apply append_search_paths_exact|];
               intros r' st' (evs & -> & Hloop); wp_run
           end.
  all: exists_events; split.
  all: try (subst; econstructor; eassumption).
  all: hist_norm; rewrite ?delete_insert_id by done; reflexivity.
Qed.

Lemma path_loop_cleanup mutablePath tokens c evs r :
  path_loop mutablePath tokens c evs r →
  saved_threads evs = [] ∧
  raw_freed evs = decoded evs ∧
  count_events is_copy_event evs = 0 ∧
  count_events is_clear_event evs = match r with Some _ => 0 | None => 1 end ∧
  count_events is_free_event evs = match r with Some _ => 0 | None => 1 end ∧
  match r with
  | Some c' => isolated c' = isolated c ∧ use_environment c' = use_environment c
  | None => True
  end.
Proof.
  unfold saved_threads, raw_freed, decoded, count_events.
  induction 1 as [c|token tokens c evs r _ IH|token tokens w status c evs r Hs _ IH
                 |token tokens w status c Hs]; cbn; try done.
  destruct IH as (? & -> & ? & ? & ? & ?). split_and!; try done.
Qed.

Lemma home_stage_cleanup pythonHome c hevs r :
  home_stage pythonHome c hevs r →
  saved_threads hevs = [] ∧
  raw_freed hevs = [] ∧
  decoded hevs = option_list (home_saved None hevs) ∧
  count_events is_copy_event hevs = 0 ∧
  count_events is_free_event hevs = 0 ∧
  count_events is_clear_event hevs = match r with Some _ => 0 | None => 1 end ∧
  startup_configs hevs = [] ∧
  match r with
  | Some c' => isolated c' = isolated c ∧ use_environment c' = use_environment c
  | None => True
  end.
Proof. by destruct 1. Qed.

Lemma path_stage_cleanup pythonPath c pevs r :
  path_stage pythonPath c pevs r →
  saved_threads pevs = [] ∧
  raw_freed pevs = decoded pevs ∧
  count_events is_copy_event pevs = count_events is_free_event pevs ∧
  count_events is_clear_event pevs = match r with Some _ => 0 | None => 1 end ∧
  startup_configs pevs = [] ∧
  match r with
  | Some c' => isolated c' = isolated c ∧ use_environment c' = use_environment c
  | None => True
  end.
Proof.
  destruct 1 as [?|p ?|p mp evs ? Hl|p mp evs c' ? Hl]; try done.
  all: destruct (path_loop_cleanup _ _ _ _ _ Hl) as (Ht & Hr & Hc & Hcl & Hf & Hi).
  all: destruct (path_loop_facts _ _ _ _ _ Hl) as (_ & Hsc & _).
  all: unfold saved_threads, raw_freed, decoded, startup_configs in *.
  - change (?a :: evs) with ([a] ++ evs).
    rewrite !omap_app, !count_events_app, Ht, Hr, Hc, Hcl, Hf, Hsc. done.
  - change (?a :: evs ++ ?l) with ([a] ++ evs ++ l).
    rewrite !omap_app, !count_events_app, Ht, Hr, Hc, Hcl, Hf, Hsc. cbn.
    by rewrite !app_nil_r.
Qed.

Lemma startup_stage_cleanup c sevs b :
  startup_stage c sevs b →
  raw_freed sevs = [] ∧ decoded sevs = [] ∧
  count_events is_copy_event sevs = 0 ∧
  count_events is_free_event sevs = 0 ∧
  count_events is_clear_event sevs = 1 ∧
  startup_configs sevs = [c] ∧
  ∃ t, saved_threads sevs = (if b then [t] else []) ∧
       (if b then last sevs = Some (EvPyEval_SaveThread t) else True).
Proof.
  destruct 1 as [status Hs|status Hs|status t Hs]; split_and!; try done.
  - by exists None.
  - by exists None.
  - by exists t.
Qed.

Lemma home_saved_app pythonHome c hevs r pythonPath c' pevs r' old rest :
  home_stage pythonHome c hevs r →
  path_stage pythonPath c' pevs r' →
  (∀ s w l, rest ≠ EvPy_DecodeLocale s w :: l) →
  home_saved old (hevs ++ pevs ++ rest) = home_saved old hevs.
Proof.
  intros Hh Hp Hrest. destruct Hh; try done. destruct Hp; try done.
  cbn. destruct rest as [|e rest]; [done|].
  destruct e; try done. by edestruct Hrest.
Qed.

(** A run of [novin_python_initialize] from the uninitialised state, with
    what it does to the globals and to the heap. *)
Lemma initialize_exact pythonHome pythonPath st :
  s_pythonInitialized st = false →
  wp (novin_python_initialize env pythonHome pythonPath) st
     (λ b st',
        ∃ evs, hist st' = hist st ++ evs ∧
               initialize_run pythonHome pythonPath evs b ∧
               heap st' = heap st ∧
               s_pythonPathW st' = s_pythonPathW st ∧
               s_pythonHomeW st' = home_saved (s_pythonHomeW st) (tail evs) ∧
               match b with
               | true => saved_threads evs = [s_mainThreadState st']
               | false => saved_threads evs = [] ∧
                          s_mainThreadState st' = s_mainThreadState st
               end).
Proof.
  destruct st as [f inst hw pw ts hp cl h]. intros Hf. cbn in Hf. subst f.
  unfold novin_python_initialize. wp_run.
  eapply wp_mono; [apply configure_home_exact|].
  intros c1 st1 (hevs & -> & Hhome). wp_run.
  2: { exists_events. split; [hist_norm; reflexivity|].
       split; [by constructor|]. cbn.
       destruct (home_stage_cleanup _ _ _ _ Hhome) as (Ht & _).
       unfold saved_threads in *. by rewrite Ht. }
  eapply wp_mono; [apply configure_paths_exact|].
  intros c2 st2 (pevs & -> & Hpath). wp_run.
  all: exists_events; (split; [hist_norm; reflexivity|]).
  all: destruct (home_stage_cleanup _ _ _ _ Hhome) as (Ht1 & _).
  all: destruct (path_stage_cleanup _ _ _ _ Hpath) as (Ht2 & _).
  all: unfold saved_threads in *; cbn [tail].
  all: repeat match goal with b : bool |- _ => destruct b end; try done.
  all: split; [subst; first [ eapply run_path_failed; [exact Hhome|exact Hpath]
                            | eapply run_started; [exact Hhome|exact Hpath|];
                              by econstructor ]|].
  all: cbn; rewrite ?omap_app, ?Ht1, ?Ht2; cbn.
  all: split_and!; try done.
  all: try (erewrite (home_saved_app _ _ _ _ _ _ _ _ hw) by (done || eassumption);
            done).
  rewrite <- (app_nil_r pevs). symmetry. by eapply home_saved_app.
Qed.

(** X8. A finalize that finds the runtime initialised puts the bridge back
    into the state of a fresh process: all five globals are reset, heap and
    caller memory are left alone, and what happens is, in this order:
    the saved thread state (if any) is restored, the instance reference is
    dropped between taking and releasing the lock, the interpreter is shut
    down, and the retained wide strings (if any) are given back.  No
    reference is obtained, and the one reference dropped is the instance's. *)
Theorem finalize_returns_to_start st :
  s_pythonInitialized st = true →
  let evs := emitted st (novin_python_finalize env st).2 in
  ∃ g,
    (novin_python_finalize env st).2 =
      with_events (hist st ++ evs) (process_start (heap st) (cells st)) ∧
    evs = finalize_events (s_mainThreadState st) g (s_novinBridgeInstance st)
            (s_pythonHomeW st) (s_pythonPathW st) ∧
    total acquired evs = 0 ∧
    total released evs = held (s_novinBridgeInstance st).
Proof.
  intros Hinit evs. destruct (finalize_exact st Hinit) as (g & Hfin).
  assert (Hevs : evs = finalize_events (s_mainThreadState st) g
                         (s_novinBridgeInstance st) (s_pythonHomeW st)
                         (s_pythonPathW st)).
  { subst evs. apply emitted_app. rewrite Hfin. by destruct st. }
  exists g. split_and!; try done.
  - rewrite Hfin, Hevs. by destruct st.
  - rewrite Hevs. unfold finalize_events.
    by destruct (s_mainThreadState st), (s_pythonHomeW st), (s_pythonPathW st).
  - rewrite Hevs. unfold finalize_events.
    destruct (s_mainThreadState st), (s_pythonHomeW st), (s_pythonPathW st); cbn; lia.
Qed.

(** X9. Re-initialisation works: after a finalize, initialize does not take
    the already-initialised shortcut but runs in full; when it succeeds the
    flag is true again, there is no instance, and the next request
    constructs one anew from the configuration it carries. *)
Theorem reinitialize_after_finalize
    pythonHome pythonPath requestJson clientId brandConfigJson errorOut st :
  s_pythonInitialized st = true →
  let st1 := (novin_python_finalize env st).2 in
  let r := novin_python_initialize env pythonHome pythonPath st1 in
  let q := novin_python_process_request env requestJson clientId brandConfigJson
             errorOut r.2 in
  r.1 = true →
  initialize_run pythonHome pythonPath (emitted st1 r.2) true ∧
  s_pythonInitialized r.2 = true ∧
  s_novinBridgeInstance r.2 = None ∧
  ∃ g cevs rest post,
    emitted r.2 q.2 =
      EvPyGILState_Ensure g :: (cevs ++ rest) ++ EvPyGILState_Release g :: post ∧
    construction brandConfigJson cevs (s_novinBridgeInstance q.2).
Proof.
  intros Hinit st1 r q Hr.
  destruct (finalize_spec st) as (Hf & Hi & _). fold st1 in Hf, Hi.
  specialize (Hi Hinit).
  destruct (initialize_spec pythonHome pythonPath st1 Hf)
    as (Hflag & Hinst & _ & evs & Hh & Hrun).
  fold r in Hflag, Hinst, Hh, Hrun. rewrite Hr in Hflag, Hrun. rewrite Hi in Hinst.
  apply emitted_app in Hh. rewrite Hh. split_and!; try done.
  destruct (process_request_constructs requestJson clientId brandConfigJson errorOut
              r.2 Hflag Hinst) as (_ & g & cevs & rest & post & Hem & Hcons & _).
  by exists g, cevs, rest, post.
Qed.

Lemma home_saved_old pythonHome c hevs r old :
  home_stage pythonHome c hevs r →
  home_saved old hevs =
    match nonempty pythonHome with
    | Some _ => home_saved None hevs
    | None => old
    end.
Proof. destruct 1 as [Hn|h Hn|h w s Hn ?|h w s Hn ?]; by rewrite Hn. Qed.

Lemma initialize_run_cleanup pythonHome pythonPath evs b :
  initialize_run pythonHome pythonPath evs b →
  count_events is_copy_event evs = count_events is_free_event evs ∧
  count_events is_clear_event evs = 1 ∧
  decoded evs = option_list (home_saved None (tail evs)) ++ raw_freed evs ∧
  (∀ old, home_saved old (tail evs) =
          match nonempty pythonHome with
          | Some _ => home_saved None (tail evs)
          | None => old
          end) ∧
  (∀ c, c ∈ startup_configs evs → isolated c = 1%Z ∧ use_environment c = 0%Z) ∧
  (b = true → List.length (startup_configs evs) = 1) ∧
  (List.length (startup_configs evs) ≤ 1)%nat.
Proof.
  intros Hrun.
  assert (Hsaved : ∃ hevs c r, home_stage pythonHome c hevs r ∧
                     count_events is_copy_event evs = count_events is_free_event evs ∧
                     count_events is_clear_event evs = 1 ∧
                     decoded evs = option_list (home_saved None hevs) ++ raw_freed evs ∧
                     ∀ old, home_saved old (tail evs) = home_saved old hevs).
  { destruct Hrun as [hevs Hh|hevs c1 pevs Hh Hp|hevs c1 pevs c2 sevs b Hh Hp Hs].
    - exists hevs, isolated_config, None.
      destruct (home_stage_cleanup _ _ _ _ Hh) as (_ & Hr1 & Hd1 & Hc1 & Hf1 & Hl1 & _).
      change (EvPyConfig_InitIsolatedConfig :: hevs)
        with ([EvPyConfig_InitIsolatedConfig] ++ hevs).
      rewrite !count_events_app, Hc1, Hf1, Hl1.
      unfold decoded, raw_freed in *. rewrite !omap_app, Hd1, Hr1. cbn.
      split_and!; try done. by rewrite app_nil_r.
    - exists hevs, isolated_config, (Some c1).
      destruct (home_stage_cleanup _ _ _ _ Hh) as (_ & Hr1 & Hd1 & Hc1 & Hf1 & Hl1 & _).
      destruct (path_stage_cleanup _ _ _ _ Hp) as (_ & Hr2 & Hc2 & Hl2 & _).
      change (EvPyConfig_InitIsolatedConfig :: hevs ++ pevs)
        with ([EvPyConfig_InitIsolatedConfig] ++ hevs ++ pevs).
      rewrite !count_events_app, Hc1, Hf1, Hl1, Hc2, Hl2.
      unfold decoded, raw_freed in *. rewrite !omap_app, Hd1, Hr1, Hr2. cbn.
      split_and!; try done.
      intros old. rewrite <- (app_nil_r pevs). by eapply home_saved_app.
    - exists hevs, isolated_config, (Some c1).
      destruct (home_stage_cleanup _ _ _ _ Hh) as (_ & Hr1 & Hd1 & Hc1 & Hf1 & Hl1 & _).
      destruct (path_stage_cleanup _ _ _ _ Hp) as (_ & Hr2 & Hc2 & Hl2 & _).
      destruct (startup_stage_cleanup _ _ _ Hs) as (Hr3 & Hd3 & Hc3 & Hf3 & Hl3 & _).
      change (EvPyConfig_InitIsolatedConfig :: hevs ++ pevs ++ sevs)
        with ([EvPyConfig_InitIsolatedConfig] ++ hevs ++ pevs ++ sevs).
      rewrite !count_events_app, Hc1, Hf1, Hl1, Hc2, Hl2, Hc3, Hf3, Hl3.
      unfold decoded, raw_freed in *. rewrite !omap_app, Hd1, Hr1, Hr2, Hd3, Hr3. cbn.
      split_and!; try done; try lia.
      all: rewrite ?app_nil_r; try done.
      all: intros old; eapply home_saved_app; [done..|]; by destruct Hs. }
  destruct Hsaved as (hevs0 & c0 & r0 & Hh0 & Hcopy & Hclear & Hdec & Hsaved).
  split_and!; try done.
  - by rewrite Hsaved.
  - intros old. rewrite !Hsaved. by eapply home_saved_old.
  - intros c Hc.
    destruct Hrun as [hevs Hh|hevs c1 pevs Hh Hp|hevs c1 pevs c2 sevs b Hh Hp Hs].
    + destruct (home_stage_cleanup _ _ _ _ Hh) as (_ & _ & _ & _ & _ & _ & Hs1 & _).
      unfold startup_configs in *. cbn in Hc. rewrite Hs1 in Hc.
      by apply elem_of_nil in Hc.
    + destruct (home_stage_cleanup _ _ _ _ Hh) as (_ & _ & _ & _ & _ & _ & Hs1 & _).
      destruct (path_stage_cleanup _ _ _ _ Hp) as (_ & _ & _ & _ & Hs2 & _).
      unfold startup_configs in *. cbn in Hc. rewrite omap_app, Hs1, Hs2 in Hc.
      by apply elem_of_nil in Hc.
    + destruct (home_stage_cleanup _ _ _ _ Hh) as (_ & _ & _ & _ & _ & _ & Hs1 & Hi1).
      destruct (path_stage_cleanup _ _ _ _ Hp) as (_ & _ & _ & _ & Hs2 & Hi2).
      destruct (startup_stage_cleanup _ _ _ Hs) as (_ & _ & _ & _ & _ & Hs3 & _).
      unfold startup_configs in *. cbn in Hc. rewrite !omap_app, Hs1, Hs2, Hs3 in Hc.
      apply list_elem_of_singleton in Hc as ->.
      destruct Hi1 as (Hi1 & Hu1), Hi2 as (Hi2 & Hu2).
      by rewrite Hi2, Hu2, Hi1, Hu1.
  - intros ->. destruct (initialize_run_startup _ _ _ _ Hrun) as [(_ & ?)|(c & -> & _)]; done.
  - destruct (initialize_run_startup _ _ _ _ Hrun) as [(-> & _)|(c & -> & _)]; cbn; lia.
Qed.

Lemma initialize_shortcut pythonHome pythonPath st :
  s_pythonInitialized st = true →
  novin_python_initialize env pythonHome pythonPath st = (true, st).
Proof.
  intros Hinit. unfold novin_python_initialize, mbind, M_bind, get. by rewrite Hinit.
Qed.

Lemma emitted_same st : emitted st st = [].
Proof. unfold emitted. by rewrite drop_all. Qed.

(** X10. A successful initialize followed by finalize is a clean cycle:
    finalize restores exactly the thread state initialize saved, gives back
    the home string initialize decoded and stored, and ends in the state of
    a fresh process whose history is that of the two calls. *)
Theorem finalize_undoes_initialize pythonHome pythonPath st :
  s_pythonInitialized st = false →
  let r := novin_python_initialize env pythonHome pythonPath st in
  let fin := novin_python_finalize env r.2 in
  r.1 = true →
  ∃ t g,
    saved_threads (emitted st r.2) = [t] ∧
    emitted r.2 fin.2 =
      finalize_events t g (s_novinBridgeInstance st) (s_pythonHomeW r.2)
        (s_pythonPathW st) ∧
    match nonempty pythonHome with
    | Some h => ∃ w, emitted st r.2 !! 1 = Some (EvPy_DecodeLocale h (Some w)) ∧
                     s_pythonHomeW r.2 = Some w
    | None => s_pythonHomeW r.2 = s_pythonHomeW st
    end ∧
    fin.2 = with_events (hist st ++ emitted st r.2 ++ emitted r.2 fin.2)
              (process_start (heap st) (cells st)).
Proof.
  intros Hinit r fin Hr.
  destruct (initialize_spec pythonHome pythonPath st Hinit)
    as (Hflag & Hinst & Hcells & _).
  destruct (initialize_exact pythonHome pythonPath st Hinit)
    as (evs & Hh & Hrun & Hheap & Hpath & Hhome & Hts).
  fold r in Hflag, Hinst, Hcells, Hh, Hrun, Hheap, Hpath, Hhome, Hts.
  rewrite Hr in Hflag, Hrun, Hts.
  pose proof (emitted_app _ _ _ Hh) as Hem. rewrite Hem.
  destruct (finalize_exact r.2 Hflag) as (g & Hfin). fold fin in Hfin.
  rewrite Hinst, Hpath, Hheap, Hcells, Hh in Hfin.
  exists (s_mainThreadState r.2), g.
  assert (Hfev : emitted r.2 fin.2 =
                 finalize_events (s_mainThreadState r.2) g (s_novinBridgeInstance st)
                   (s_pythonHomeW r.2) (s_pythonPathW st)).
  { apply emitted_app. rewrite Hfin, Hh. by destruct st. }
  rewrite Hfev. split_and!; try done.
  - destruct (initialize_run_cleanup _ _ _ _ Hrun) as (_ & _ & _ & Hold & _).
    rewrite Hhome, Hold.
    destruct (nonempty pythonHome) as [h|] eqn:Hn; [|done].
    inversion Hrun as [| |hevs c1 pevs c2 sevs b Hhs Hp Hs]; subst.
    inversion Hhs as [Hn'| | |h' w status Hn' Hst]; subst; [congruence|].
    exists w. rewrite Hn in Hn'. by injection Hn' as ->.
  - rewrite Hfin. destruct st. cbn. by rewrite <- !app_assoc.
Qed.

(** X11. Whenever initialize starts the interpreter it does so in isolated
    mode with the environment ignored (lines 83-87 survive the configuration
    of home and search paths); it starts it at most once per call, and
    exactly once on a call that returns true from the uninitialised state. *)
Theorem initialize_starts_isolated pythonHome pythonPath st :
  let r := novin_python_initialize env pythonHome pythonPath st in
  let evs := emitted st r.2 in
  Forall (λ c, isolated c = 1%Z ∧ use_environment c = 0%Z) (startup_configs evs) ∧
  if s_pythonInitialized st then startup_configs evs = []
  else if r.1 then List.length (startup_configs evs) = 1
       else (List.length (startup_configs evs) ≤ 1)%nat.
Proof.
  intros r evs. destruct (s_pythonInitialized st) eqn:Hinit.
  - subst evs r. rewrite (initialize_shortcut _ _ _ Hinit). cbn.
    by rewrite emitted_same.
  - destruct (initialize_spec pythonHome pythonPath st Hinit)
      as (_ & _ & _ & evs' & Hh & Hrun).
    fold r in Hh, Hrun. apply emitted_app in Hh. fold evs in Hh. subst evs'.
    destruct (initialize_run_cleanup _ _ _ _ Hrun) as (_ & _ & _ & _ & Hiso & Hone & Hmost).
    split; [by apply Forall_forall|]. destruct r.1; [by apply Hone|done].
Qed.

(** X12. An initialize that runs gives back what it takes: the copy of the
    path argument is freed before it returns (the heap is as before), the
    configuration is cleared exactly once, and every wide string it decoded
    was given back with [PyMem_RawFree], except the home string, which stays
    in [s_pythonHomeW] whether the call succeeds or not.  Without a home
    argument that global is left as it was. *)
Theorem initialize_gives_back_what_it_takes pythonHome pythonPath st :
  s_pythonInitialized st = false →
  let r := novin_python_initialize env pythonHome pythonPath st in
  let evs := emitted st r.2 in
  heap r.2 = heap st ∧ cells r.2 = cells st ∧
  count_events is_copy_event evs = count_events is_free_event evs ∧
  count_events is_clear_event evs = 1 ∧
  match nonempty pythonHome with
  | Some _ => decoded evs = option_list (s_pythonHomeW r.2) ++ raw_freed evs
  | None => decoded evs = raw_freed evs ∧ s_pythonHomeW r.2 = s_pythonHomeW st
  end.
Proof.
  intros Hinit r evs.
  destruct (initialize_spec pythonHome pythonPath st Hinit) as (_ & _ & Hcells & _).
  destruct (initialize_exact pythonHome pythonPath st Hinit)
    as (evs' & Hh & Hrun & Hheap & _ & Hhome & _).
  fold r in Hcells, Hh, Hrun, Hheap, Hhome.
  apply emitted_app in Hh. fold evs in Hh. subst evs'.
  destruct (initialize_run_cleanup _ _ _ _ Hrun) as (Hcopy & Hclear & Hdec & Hold & _).
  split_and!; try done.
  rewrite Hhome, Hold. pose proof (Hold None) as Hnone.
  destruct (nonempty pythonHome); [done|].
  rewrite Hdec, Hnone. done.
Qed.

(** X13. A failed initialize can be retried: it leaves the flag false and
    the instance, the saved thread state, the heap and the caller's memory
    as they were, and saves no thread state; a finalize after it does
    nothing at all (so a home string decoded before the failure is not given
    back), and the next initialize runs in full. *)
Theorem failed_initialize_can_be_retried
    pythonHome pythonPath pythonHome' pythonPath' st :
  s_pythonInitialized st = false →
  let r := novin_python_initialize env pythonHome pythonPath st in
  let r' := novin_python_initialize env pythonHome' pythonPath' r.2 in
  r.1 = false →
  s_pythonInitialized r.2 = false ∧
  s_novinBridgeInstance r.2 = s_novinBridgeInstance st ∧
  s_mainThreadState r.2 = s_mainThreadState st ∧
  s_pythonPathW r.2 = s_pythonPathW st ∧
  heap r.2 = heap st ∧ cells r.2 = cells st ∧
  saved_threads (emitted st r.2) = [] ∧
  novin_python_finalize env r.2 = (tt, r.2) ∧
  initialize_run pythonHome' pythonPath' (emitted r.2 r'.2) r'.1.
Proof.
  intros Hinit r r' Hr.
  destruct (initialize_spec pythonHome pythonPath st Hinit)
    as (Hflag & Hinst & Hcells & _).
  destruct (initialize_exact pythonHome pythonPath st Hinit)
    as (evs & Hh & Hrun & Hheap & Hpath & _ & Hts).
  fold r in Hflag, Hinst, Hcells, Hh, Hrun, Hheap, Hpath, Hts.
  rewrite Hr in Hflag, Hts. destruct Hts as (Hsaved & Hts).
  apply emitted_app in Hh. rewrite Hh.
  split_and!; try done.
  - destruct (finalize_spec r.2) as (_ & _ & Hsame). specialize (Hsame Hflag).
    destruct (novin_python_finalize env r.2) as [[] s]. cbn in Hsame. by subst s.
  - destruct (initialize_spec pythonHome' pythonPath' r.2 Hflag)
      as (_ & _ & _ & evs' & Hh' & Hrun').
    fold r' in Hh', Hrun'. apply emitted_app in Hh'. by rewrite Hh'.
Qed.

Lemma run_op_lifecycle o st :
  lifecycle_invariant st = true → lifecycle_invariant (run_op env o st) = true.
Proof.
  unfold lifecycle_invariant. intros Hinv.
  destruct o as [h p|rq c b e|s|]; cbn [run_op].
  - destruct (s_pythonInitialized st) eqn:Hinit.
    + rewrite (initialize_shortcut _ _ _ Hinit). cbn. by rewrite Hinit.
    + destruct (initialize_spec h p st Hinit) as (Hflag & _).
      destruct (initialize_exact h p st Hinit) as (evs & _ & _ & _ & Hpath & _ & Hts).
      rewrite Hpath, Hflag.
      destruct (s_pythonPathW st); [done|].
      destruct (novin_python_initialize env h p st).1.
      * by destruct (s_mainThreadState (novin_python_initialize env h p st).2).
      * destruct Hts as (_ & ->). by destruct (s_mainThreadState st).
  - destruct (process_request_frame rq c b e st) as (-> & _ & -> & ->). done.
  - by destruct st, s.
  - destruct (s_pythonInitialized st) eqn:Hinit.
    + destruct (finalize_exact st Hinit) as (g & ->). by destruct st.
    + destruct (finalize_spec st) as (_ & _ & Hsame). rewrite (Hsame Hinit).
      by rewrite Hinit.
Qed.

Lemma run_ops_lifecycle ops st :
  lifecycle_invariant st = true → lifecycle_invariant (run_ops env ops st) = true.
Proof.
  revert st. induction ops as [|o ops IH]; intros st Hinv; [done|].
  apply (IH (run_op env o st)), run_op_lifecycle, Hinv.
Qed.

(** X14. Whatever sequence of the four operations a process runs,
    [s_pythonPathW] is NULL at the end of each of them (nothing ever assigns
    it), and a saved thread state is only held while the runtime is
    initialised.  So the second clean-up branch of finalize never runs: the
    only wide string a finalize gives back is the stored home string. *)
Theorem path_global_stays_null ops hp cl :
  let st := run_ops env ops (process_start hp cl) in
  let fin := novin_python_finalize env st in
  s_pythonPathW st = None ∧
  (if s_pythonInitialized st then True else s_mainThreadState st = None) ∧
  raw_freed (emitted st fin.2) =
    if s_pythonInitialized st then option_list (s_pythonHomeW st) else [].
Proof.
  intros st fin.
  assert (Hinv : lifecycle_invariant st = true) by by apply run_ops_lifecycle.
  unfold lifecycle_invariant in Hinv.
  destruct (s_pythonPathW st) eqn:Hpath; [by destruct (s_mainThreadState st)|].
  split; [done|].
  destruct (s_pythonInitialized st) eqn:Hinit.
  - split; [done|]. destruct (finalize_exact st Hinit) as (g & Hfin). fold fin in Hfin.
    assert (emitted st fin.2 =
            finalize_events (s_mainThreadState st) g (s_novinBridgeInstance st)
              (s_pythonHomeW st) None) as ->.
    { apply emitted_app. rewrite Hfin, Hpath. by destruct st. }
    unfold finalize_events. by destruct (s_mainThreadState st), (s_pythonHomeW st).
  - split; [by destruct (s_mainThreadState st)|].
    destruct (finalize_spec st) as (_ & _ & Hsame). fold fin in Hsame.
    rewrite (Hsame Hinit). by rewrite emitted_same.
Qed.

(** *** Splitting the path argument *)

Lemma string_app_cons c (s t : string) :
  String.append (String c s) t = String c (String.append s t).
Proof. reflexivity. Qed.

Lemma string_app_nil_r (s : string) : String.append s EmptyString = s.
Proof. induction s as [|c s IH]; [done|]. by rewrite string_app_cons, IH. Qed.

Lemma string_app_snoc (s : string) c rest :
  String.append (String.append s (String c EmptyString)) rest =
  String.append s (String c rest).
Proof. induction s as [|d s IH]; [done|]. by rewrite !string_app_cons, IH. Qed.

Lemma delimiter_free_snoc s c :
  delimiter_free (String.append s (String c EmptyString)) =
  delimiter_free s && negb (Ascii.eqb c delim).
Proof.
  induction s as [|d s IH].
  - change (delimiter_free (String c EmptyString) = negb (Ascii.eqb c delim)).
    cbn [delimiter_free]. by rewrite andb_true_r.
  - rewrite string_app_cons. cbn [delimiter_free]. by rewrite IH, andb_assoc.
Qed.

Lemma strlen_snoc s c : (0 <? strlen (String.append s (String c EmptyString)))%nat = true.
Proof. by destruct s. Qed.

Lemma strtok_r_entries s cur :
  delimiter_free cur = true →
  Forall (λ t, is_entry t = true) (strtok_r delim s cur).
Proof.
  revert cur. induction s as [|c s IH]; intros cur Hcur; cbn [strtok_r].
  - destruct (0 <? strlen cur)%nat eqn:Hlen; [|by constructor].
    apply Forall_singleton. unfold is_entry. by rewrite Hlen.
  - destruct (Ascii.eqb c delim) eqn:Hc.
    + destruct (0 <? strlen cur)%nat eqn:Hlen; [|by apply IH].
      apply Forall_cons. split; [|by apply IH]. unfold is_entry. by rewrite Hlen.
    + apply IH. by rewrite delimiter_free_snoc, Hcur, Hc.
Qed.

Lemma strtok_r_split s1 s2 cur :
  strtok_r delim (String.append s1 (String delim s2)) cur =
  strtok_r delim s1 cur ++ strtok_r delim s2 EmptyString.
Proof.
  revert cur. induction s1 as [|c s1 IH]; intros cur.
  - change (strtok_r delim (String delim s2) cur =
            strtok_r delim EmptyString cur ++ strtok_r delim s2 EmptyString).
    cbn [strtok_r]. rewrite Ascii.eqb_refl. by destruct (0 <? strlen cur)%nat.
  - rewrite string_app_cons. cbn [strtok_r].
    destruct (Ascii.eqb c delim); [|by apply IH].
    destruct (0 <? strlen cur)%nat; by rewrite IH.
Qed.

Lemma strtok_r_single t cur :
  delimiter_free t = true →
  strtok_r delim t cur =
    if (0 <? strlen (String.append cur t))%nat then [String.append cur t] else [].
Proof.
  revert cur. induction t as [|c t IH]; intros cur Ht; cbn [strtok_r].
  - by rewrite string_app_nil_r.
  - cbn in Ht. apply andb_true_iff in Ht as (Hc & Ht).
    apply negb_true_iff in Hc. rewrite Hc, (IH _ Ht). by rewrite string_app_snoc.
Qed.

Lemma path_entries_strtok_r s : path_entries (Some s) = strtok_r delim s EmptyString.
Proof. by destruct s. Qed.

(** X15. How initialize splits its path argument: every entry it hands to
    the decoder has at least one character and no colon in it (leading,
    trailing and doubled colons yield no entry, and NULL or the empty string
    yield none at all), and a colon between two paths means concatenating
    their entries. *)
Theorem path_entries_split pythonPath s1 s2 :
  Forall (λ t, is_entry t = true) (path_entries pythonPath) ∧
  path_entries None = [] ∧ path_entries (Some EmptyString) = [] ∧
  path_entries (Some (String.append s1 (String delim s2))) =
    path_entries (Some s1) ++ path_entries (Some s2).
Proof.
  split_and!; try done.
  - unfold path_entries. destruct (nonempty pythonPath); [|done].
    by apply strtok_r_entries.
  - rewrite !path_entries_strtok_r. apply strtok_r_split.
Qed.

(** X16. Joining well-formed entries with colons and handing the result to
    initialize as its path argument yields exactly those entries, in order. *)
Theorem path_entries_joined entries :
  Forall (λ t, is_entry t = true) entries →
  path_entries (Some (joined entries)) = entries.
Proof.
  rewrite path_entries_strtok_r. unfold joined.
  induction 1 as [|t ts Ht Hts IH]; [done|].
  unfold is_entry in Ht. apply andb_true_iff in Ht as (Hlen & Hfree).
  destruct ts as [|t' ts].
  - change (String.concat (String delim EmptyString) [t]) with t.
    rewrite (strtok_r_single _ _ Hfree).
    change (String.append EmptyString t) with t. by rewrite Hlen.
  - change (String.concat (String delim EmptyString) (t :: t' :: ts))
      with (String.append t
              (String delim (String.concat (String delim EmptyString) (t' :: ts)))).
    rewrite strtok_r_split, IH, (strtok_r_single _ _ Hfree).
    change (String.append EmptyString t) with t. by rewrite Hlen.
Qed.

(** *** The instance: constructed once, from the configuration of that call *)

Lemma forwarding_construction_free i requestJson clientId mid x ret :
  forwarding i requestJson clientId mid x ret → is_construction_free mid = true.
Proof. by destruct 1. Qed.

(** What the class was called on, read off a successful construction. *)
Lemma constructed_call brandConfigJson cevs i :
  constructed brandConfigJson cevs i →
  match nonempty brandConfigJson with
  | Some s =>
      ∃ loads d class,
        In (EvPyObject_CallObject loads (Some (PyTuple [Some (PyStr s)])) (Some d))
           cevs ∧
        In (EvPyObject_CallObject class (Some (PyTuple [Some d])) (Some i)) cevs
  | None =>
      ∃ class, In (EvPyObject_CallObject class (Some (PyTuple [])) (Some i)) cevs
  end.
Proof.
  destruct 1 as [m c i Hn|s m c j l d i Hn]; rewrite Hn.
  - exists c. solve_In.
  - exists l, d, c. split; solve_In.
Qed.


(** A call that finds the instance starts by looking the method up on it. *)
Lemma process_request_uses_instance requestJson clientId brandConfigJson errorOut st i :
  s_pythonInitialized st = true →
  s_novinBridgeInstance st = Some i →
  let r := novin_python_process_request env requestJson clientId brandConfigJson
             errorOut st in
  ∃ g lookup rest,
    emitted st r.2 =
      EvPyGILState_Ensure g
      :: EvPyObject_GetAttrString i "process_request" lookup :: rest.
Proof.
  intros Hinit Hinst r.
  destruct (process_request_forwards requestJson clientId brandConfigJson errorOut
              st i Hinit Hinst) as (_ & g & mid & post & x & Hem & Hfwd & _).
  fold r in Hem. destruct (forwarding_head _ _ _ _ _ _ Hfwd) as (lookup & rest & ->).
  exists g, lookup. eexists. by rewrite Hem.
Qed.

(** C3. After a successful initialize, a call that finds no instance and
    leaves one behind has constructed it exactly once (one import of the
    module, one lookup of the class) from the configuration of that very
    call: when the configuration is non-empty the class was called on the
    one-element tuple holding what [json.loads] returned for its text, and
    every step on the way succeeded.  Any number of later calls, whatever
    they carry, keep that instance, run no construction step and behave the
    same for any two configurations, and a call made after them starts by
    looking [process_request] up on that very instance; finalize then drops
    the instance. *)
Theorem bridge_constructed_once
    requestJson clientId brandConfigJson errorOut st i calls
    requestJson' clientId' cfg1 cfg2 errorOut' :
  s_pythonInitialized st = true →
  s_novinBridgeInstance st = None →
  let r := novin_python_process_request env requestJson clientId brandConfigJson
             errorOut st in
  s_novinBridgeInstance r.2 = Some i →
  (∃ g cevs rest post,
     emitted st r.2 =
       EvPyGILState_Ensure g :: (cevs ++ rest) ++ EvPyGILState_Release g :: post ∧
     construction brandConfigJson cevs (Some i) ∧
     constructed brandConfigJson cevs i ∧
     match nonempty brandConfigJson with
     | Some s =>
         ∃ loads d class,
           In (EvPyObject_CallObject loads (Some (PyTuple [Some (PyStr s)])) (Some d))
              cevs ∧
           In (EvPyObject_CallObject class (Some (PyTuple [Some d])) (Some i)) cevs
     | None =>
         ∃ class, In (EvPyObject_CallObject class (Some (PyTuple [])) (Some i)) cevs
     end ∧
     is_construction_free rest = true) ∧
  count_events is_module_import (emitted st r.2) = 1 ∧
  count_events is_class_lookup (emitted st r.2) = 1 ∧
  let st' := run_requests env calls r.2 in
  s_novinBridgeInstance st' = Some i ∧
  is_construction_free (emitted r.2 st') = true ∧
  novin_python_process_request env requestJson' clientId' cfg1 errorOut' st' =
    novin_python_process_request env requestJson' clientId' cfg2 errorOut' st' ∧
  (∃ g' lookup rest',
     emitted st'
       (novin_python_process_request env requestJson' clientId' cfg1 errorOut' st').2 =
     EvPyGILState_Ensure g'
     :: EvPyObject_GetAttrString i "process_request" lookup :: rest') ∧
  s_novinBridgeInstance (novin_python_finalize env st').2 = None.
Proof.
  intros Hinit Hnone r Hi.
  destruct (process_request_constructs requestJson clientId brandConfigJson errorOut
              st Hinit Hnone)
    as (Hf & g & cevs & rest & post & Hem & Hcons & Hfree & Hpost & _ & Hdone).
  fold r in Hf, Hem, Hcons, Hdone. rewrite Hi in Hcons. specialize (Hdone i Hi).
  destruct (construction_counts _ _ _ Hcons) as [Hm Hc].
  destruct (run_requests_sticky calls r.2 i Hf Hi) as (Hf' & Hi' & evs & Hh & Hfree').
  apply libc_construction_free in Hpost.
  assert (Hcount : ∀ p, (∀ e, p e = true → is_construction_event e = true) →
            count_events p (emitted st r.2) = count_events p cevs).
  { intros p Hp. rewrite Hem.
    change (?a :: (cevs ++ rest) ++ ?b :: post)
      with ([a] ++ (cevs ++ rest) ++ [b] ++ post).
    rewrite !count_events_app.
    rewrite (count_events_free p rest), (count_events_free p post) by done.
    rewrite (count_events_free p [_]), (count_events_free p [_]) by done. lia. }
  split; [|split; [|split; [|cbv zeta; split_and!]]].
  - exists g, cevs, rest, post. split_and!; try done. by apply constructed_call.
  - rewrite Hcount; [done|]. apply is_module_import_construction.
  - rewrite Hcount; [done|]. apply is_class_lookup_construction.
  - done.
  - by rewrite (emitted_app _ _ _ Hh).
  - apply process_request_ignores_config. by rewrite Hi'.
  - by apply process_request_uses_instance.
  - by apply (finalize_spec (run_requests env calls r.2)).
Qed.

End Proofs.

(** ** Concrete runs *)

(** The successful exit, against the friendly interpreter. *)
Lemma gil_released_on_every_exit_witness :
  s_pythonInitialized running = true ∧
  gil_released_before_return
    (emitted running
       (novin_python_process_request friendly_env (Some "{}") None None (Some 7%N)
          running).2) = true.
Proof.
  split; [reflexivity|].
  destruct (gil_released_on_every_exit friendly_env (Some "{}") None None (Some 7%N)
              running eq_refl) as (g & mid & post & _ & _ & _ & H & _).
  exact H.
Defined.

(** A call in a fresh process. *)
Lemma not_initialized_call_fails_witness :
  s_pythonInitialized empty_start = false ∧
  (novin_python_process_request friendly_env (Some "{}") None None (Some 7%N)
     empty_start).1 = None.
Proof.
  split; [reflexivity|].
  exact (proj1 (not_initialized_call_fails friendly_env (Some "{}") None None
                  (Some 7%N) empty_start ∅ ∅ empty_start eq_refl)).
Defined.

(** The out-of-memory exit gives the lock back as well. *)
Example out_of_memory_exit_releases_lock :
  let r := novin_python_process_request no_memory_env (Some "{}") None None
             (Some 7%N) running_no_memory in
  r.1 = None ∧
  gil_released_before_return (emitted running_no_memory r.2) = true.
Proof. by vm_compute. Qed.

(** C2, counterexample.  In a fresh process whose allocator is exhausted, a
    call with an error slot stores NULL there: no message is written. *)
Lemma not_initialized_message_lost :
  let r := novin_python_process_request no_memory_env (Some "{}") None None
             (Some 7%N) empty_start in
  s_pythonInitialized empty_start = false ∧
  r.1 = None ∧
  cells r.2 !! 7%N = Some None ∧
  ¬ slot_holds_message r.2 7%N "Python runtime not initialized".
Proof.
  cbv zeta. split_and!; try by vm_compute.
  intros (p & Hp & _). vm_compute in Hp. discriminate.
Qed.

(** C5, counterexample.  The collaborator answers, duplicating the answer
    fails, and so does duplicating the out-of-memory message: the call
    fails and the slot holds NULL, not a message. *)
Lemma failure_without_message :
  let r := novin_python_process_request no_memory_env (Some "{}") None None
             (Some 7%N) running_no_memory in
  r.1 = None ∧
  last (emitted running_no_memory r.2) =
    Some (EvStrdup "Out of memory duplicating response" None) ∧
  cells r.2 !! 7%N = Some None ∧
  ¬ ∃ msg, slot_holds_message r.2 7%N msg.
Proof.
  cbv zeta. split_and!; try by vm_compute.
  intros (msg & p & Hp & _). vm_compute in Hp. discriminate.
Qed.

(** First call with one configuration, a later call with another. *)
Lemma bridge_constructed_once_witness :
  s_pythonInitialized running = true ∧
  s_novinBridgeInstance running = None ∧
  s_novinBridgeInstance
    (novin_python_process_request friendly_env (Some "{}") None (Some "{a}") None
       running).2 = Some (PyRef 10) ∧
  count_events is_module_import
    (emitted running
       (novin_python_process_request friendly_env (Some "{}") None (Some "{a}") None
          running).2) = 1.
Proof.
  split_and!; [reflexivity..|].
  exact (proj1 (proj2 (bridge_constructed_once friendly_env (Some "{}") None
                         (Some "{a}") None running (PyRef 10)
                         [(Some "{}", None, Some "{b}", None)]
                         (Some "{}") None (Some "{b}") (Some "{c}") None
                         eq_refl eq_refl eq_refl))).
Defined.


(** The configuration is not empty but [json.loads] rejects it.  The code
    falls back to the empty argument tuple (lines 59-61) without clearing
    the error, so the call of the class comes back NULL: no instance, and
    the construction failure is reported. *)
Example rejected_config_fails :
  let r := novin_python_process_request bad_json_env (Some "{}") None (Some "{a}")
             (Some 7%N) running in
  In (EvPyObject_CallObject (PyRef 4) (Some (PyTuple [Some (PyStr "{a}")])) None)
     (emitted running r.2) ∧
  In (EvPyObject_CallObject (PyRef 3) (Some (PyTuple [])) None)
     (emitted running r.2) ∧
  s_novinBridgeInstance r.2 = None ∧
  r.1 = None ∧
  slot_holds_message r.2 7%N "Failed to initialize NovinAIBridge".
Proof.
  cbv zeta. split_and!; try by vm_compute.
  - vm_compute. tauto.
  - vm_compute. tauto.
  - exists 0%N. by vm_compute.
Qed.

(** With a configuration the parser accepts, the class is called on the
    one-element tuple holding the parsed value. *)
Example accepted_config_is_passed :
  let r := novin_python_process_request friendly_env (Some "{}") None (Some "{a}")
             (Some 7%N) running in
  In (EvPyObject_CallObject (PyRef 4) (Some (PyTuple [Some (PyStr "{a}")]))
        (Some (PyRef 11)))
     (emitted running r.2) ∧
  In (EvPyObject_CallObject (PyRef 3) (Some (PyTuple [Some (PyRef 11)]))
        (Some (PyRef 10)))
     (emitted running r.2) ∧
  s_novinBridgeInstance r.2 = Some (PyRef 10).
Proof.
  cbv zeta. split_and!; try by vm_compute.
  - vm_compute. tauto.
  - vm_compute. tauto.
Qed.

(** A second initialize, with other arguments, after a successful one. *)
Lemma initialize_idempotent_witness :
  (novin_python_initialize friendly_env None None empty_start).1 = true ∧
  novin_python_initialize friendly_env (Some "/home") (Some "/lib") running =
    (true, running).
Proof.
  split; [reflexivity|].
  exact (proj1 (initialize_idempotent friendly_env None None (Some "/home")
                  (Some "/lib") empty_start (or_intror eq_refl))).
Defined.

(** A path argument with an entry that cannot be decoded. *)
Lemma initialize_fails_exactly_when_witness :
  s_pythonInitialized empty_start = false ∧
  ((novin_python_initialize picky_env None (Some "a:b::c") empty_start).1 = false ↔
   initialize_failure
     (emitted empty_start
        (novin_python_initialize picky_env None (Some "a:b::c") empty_start).2) = true).
Proof.
  split; [reflexivity|].
  exact (proj1 (initialize_fails_exactly_when picky_env None (Some "a:b::c")
                  empty_start eq_refl)).
Defined.

(** An entry that cannot be decoded is passed over and the others are
    appended, in order. *)
Example bad_entry_is_skipped :
  let r := novin_python_initialize picky_env None (Some "a:b::c") empty_start in
  r.1 = true ∧
  decode_attempts (emitted empty_start r.2) = ["a"; "b"; "c"] ∧
  startup_configs (emitted empty_start r.2) = [mkPyConfig 1 0 None ["a"; "c"]].
Proof. by vm_compute. Qed.

(** C7, counterexample.  Nothing goes wrong with the home path, no entry is
    appended and the interpreter is never started, yet initialize returns
    false: the copy of the path argument could not be allocated. *)
Lemma initialize_fails_without_listed_cause :
  let r := novin_python_initialize no_memory_env None (Some "/lib") empty_start in
  s_pythonInitialized empty_start = false ∧
  r.1 = false ∧
  emitted empty_start r.2 =
    [EvPyConfig_InitIsolatedConfig; EvStrdup "/lib" None; EvPyConfig_Clear] ∧
  listed_initialize_failure (emitted empty_start r.2) = false.
Proof. by vm_compute. Qed.

(** The scenarios of the specification, run against the friendly
    interpreter. *)
Example scenario_success :
  let r := novin_python_process_request friendly_env (Some "{x:1}") None None
             (Some 7%N) running in
  ∃ p, r.1 = Some p ∧ heap r.2 !! p = Some "{}" ∧ cells r.2 = cells running.
Proof. exists 0%N. by vm_compute. Qed.

Example scenario_finalize_then_request :
  let st := (novin_python_finalize friendly_env running).2 in
  let r := novin_python_process_request friendly_env (Some "{}") None None
             (Some 7%N) st in
  r.1 = None ∧ slot_holds_message r.2 7%N "Python runtime not initialized".
Proof. split; [by vm_compute|]. exists 0%N. by vm_compute. Qed.

(** What [strdup] copies of a buffer with a NUL in it. *)
Example c_string_stops_at_nul :
  c_string (String "a" (String Ascii.zero (String "b" EmptyString))) = "a" ∧
  c_string "Python processing failed" = "Python processing failed".
Proof. by vm_compute. Qed.

(** ** Concrete runs of the further properties *)

(** A request served by the instance an earlier request constructed. *)
Lemma request_exit_by_cause_witness :
  s_pythonInitialized serving = true ∧
  s_novinBridgeInstance
    (novin_python_process_request friendly_env (Some "{}") None None None serving).2 =
    Some (PyRef 10) ∧
  null_dereferenced
    (emitted serving
       (novin_python_process_request friendly_env (Some "{}") None None None
          serving).2) = false ∧
  ∃ g cevs mid post x,
    emitted serving
      (novin_python_process_request friendly_env (Some "{}") None None None serving).2 =
    EvPyGILState_Ensure g :: (cevs ++ mid) ++ EvPyGILState_Release g :: post ∧
    forwarding (PyRef 10) (Some "{}") None mid x
      (novin_python_process_request friendly_env (Some "{}") None None None serving).1.
Proof.
  split_and!; [reflexivity..|].
  destruct (request_exit_by_cause friendly_env (Some "{}") None None None serving
              (PyRef 10) eq_refl eq_refl eq_refl)
    as (g & cevs & mid & post & x & H & _ & Hfwd & _).
  exists g, cevs, mid, post, x. split; [exact H|exact Hfwd].
Defined.

(** The first request after start-up: it constructs the instance and the
    buffer it returns holds what the method returned. *)
Lemma request_result_passes_through_witness :
  s_pythonInitialized running = true ∧
  s_novinBridgeInstance
    (novin_python_process_request friendly_env (Some "{}") None None None running).2 =
    Some (PyRef 10) ∧
  ∃ g cevs mid post,
    emitted running
      (novin_python_process_request friendly_env (Some "{}") None None None running).2 =
    EvPyGILState_Ensure g :: (cevs ++ mid) ++ EvPyGILState_Release g :: post ∧
    constructed None cevs (PyRef 10).
Proof.
  split_and!; [reflexivity..|].
  destruct (request_result_passes_through friendly_env (Some "{}") None None None
              running (PyRef 10) eq_refl eq_refl)
    as (g & cevs & mid & post & H & Hc & _).
  exists g, cevs, mid, post. split; [exact H|exact Hc].
Defined.

Lemma request_calls_method_with_client_witness :
  s_pythonInitialized running = true ∧
  s_novinBridgeInstance
    (novin_python_process_request friendly_env (Some "{}") None None None running).2 =
    Some (PyRef 10) ∧
  null_dereferenced
    (emitted running
       (novin_python_process_request friendly_env (Some "{}") None None None
          running).2) = false ∧
  ∃ cevs mid,
    calls
      (emitted running
         (novin_python_process_request friendly_env (Some "{}") None None None
            running).2) = calls cevs ++ calls mid ∧
    constructed None cevs (PyRef 10).
Proof.
  split_and!; [reflexivity..|].
  destruct (request_calls_method_with_client friendly_env (Some "{}") None None None
              running (PyRef 10) eq_refl eq_refl eq_refl)
    as (g & cevs & mid & post & _ & Hc & H & _).
  exists cevs, mid. split; [exact H|exact Hc].
Defined.

(** Two requests in a row. *)
Lemma failed_request_keeps_instance_witness :
  s_pythonInitialized serving = true ∧
  s_novinBridgeInstance serving = Some (PyRef 10) ∧
  same_globals serving
    (novin_python_process_request friendly_env (Some "{}") None None None serving).2.
Proof.
  split_and!; [reflexivity..|].
  exact (proj1 (failed_request_keeps_instance friendly_env (Some "{}") None None None
                  serving (PyRef 10) (Some "{}") (Some "c") None None
                  eq_refl eq_refl)).
Defined.

(** The first request after start-up, which constructs the instance. *)
Lemma process_request_balances_references_witness :
  s_pythonInitialized running = true ∧
  null_dereferenced
    (emitted running
       (novin_python_process_request friendly_env (Some "{}") None None None
          running).2) = false ∧
  ledger []
    (emitted running
       (novin_python_process_request friendly_env (Some "{}") None None None
          running).2)
    [PyRef 10].
Proof.
  split_and!; [reflexivity..|].
  exact (process_request_balances_references friendly_env (Some "{}") None None None
           running eq_refl eq_refl).
Defined.

(** Shutting down a bridge that has served a request. *)
Lemma finalize_returns_to_start_witness :
  s_pythonInitialized serving = true ∧
  total released (emitted serving (novin_python_finalize friendly_env serving).2) =
    held (s_novinBridgeInstance serving).
Proof.
  split; [reflexivity|].
  destruct (finalize_returns_to_start friendly_env serving eq_refl)
    as (g & _ & _ & _ & H).
  exact H.
Defined.

(** Shut down, start again with a home and two search paths, serve. *)
Lemma reinitialize_after_finalize_witness :
  s_pythonInitialized serving = true ∧
  (novin_python_initialize friendly_env (Some "/h") (Some "a:b")
     (novin_python_finalize friendly_env serving).2).1 = true ∧
  s_novinBridgeInstance
    (novin_python_initialize friendly_env (Some "/h") (Some "a:b")
       (novin_python_finalize friendly_env serving).2).2 = None.
Proof.
  split_and!; [reflexivity..|].
  exact (proj1 (proj2 (proj2
           (reinitialize_after_finalize friendly_env (Some "/h") (Some "a:b")
              (Some "{}") None None None serving eq_refl eq_refl)))).
Defined.

Lemma finalize_undoes_initialize_witness :
  s_pythonInitialized empty_start = false ∧
  (novin_python_initialize friendly_env (Some "/h") (Some "a:b") empty_start).1 = true ∧
  ∃ t,
    saved_threads
      (emitted empty_start
         (novin_python_initialize friendly_env (Some "/h") (Some "a:b") empty_start).2)
    = [t].
Proof.
  split_and!; [reflexivity..|].
  destruct (finalize_undoes_initialize friendly_env (Some "/h") (Some "a:b")
              empty_start eq_refl eq_refl) as (t & g & H & _).
  exists t. exact H.
Defined.

Lemma initialize_gives_back_what_it_takes_witness :
  s_pythonInitialized empty_start = false ∧
  heap (novin_python_initialize friendly_env (Some "/h") (Some "a:b") empty_start).2
    = heap empty_start.
Proof.
  split; [reflexivity|].
  exact (proj1 (initialize_gives_back_what_it_takes friendly_env (Some "/h")
                  (Some "a:b") empty_start eq_refl)).
Defined.

(** The home is decoded and stored, then the copy of the path argument
    cannot be allocated. *)
Lemma failed_initialize_can_be_retried_witness :
  s_pythonInitialized empty_start = false ∧
  (novin_python_initialize no_memory_env (Some "/h") (Some "a:b") empty_start).1
    = false ∧
  novin_python_finalize no_memory_env
    (novin_python_initialize no_memory_env (Some "/h") (Some "a:b") empty_start).2 =
  (tt, (novin_python_initialize no_memory_env (Some "/h") (Some "a:b") empty_start).2).
Proof.
  split_and!; [reflexivity..|].
  destruct (failed_initialize_can_be_retried no_memory_env (Some "/h") (Some "a:b")
              None None empty_start eq_refl eq_refl)
    as (_ & _ & _ & _ & _ & _ & _ & H & _).
  exact H.
Defined.

Lemma path_entries_joined_witness :
  Forall (λ t, is_entry t = true) ["lib"; "site-packages"] ∧
  path_entries (Some (joined ["lib"; "site-packages"])) = ["lib"; "site-packages"].
Proof.
  assert (H : Forall (λ t, is_entry t = true) ["lib"; "site-packages"]).
  { repeat constructor. }
  split; [exact H|]. exact (path_entries_joined _ H).
Defined.
